(** * SpeedJS virtual-DOM engine: a shallow embedding and its properties

    This development embeds the rendering engine found under
    [speedJS/vdom] (node builder, batch scheduler, component container,
    hooks runtime, context channel, error boundary, reconciler and the
    delegated event table) as executable Rocq definitions, and states the
    properties of the engine as theorems over them.

    Conventions of the embedding:
    - JavaScript values are the inductive [JsVal]; objects that the engine
      compares by reference carry an identity.
    - Mutable singletons and heap objects live in one record, [World];
      every engine function is a computation in the state-and-exception
      monad [M] over it.
    - User code (render methods, lifecycle hooks, effects, callbacks) is a
      parameter: classes and functions are looked up in tables stored in the
      world, and what a user function does is a [Script] of engine calls.
    - Calls that the source makes through dynamic dispatch or through mutual
      recursion between files go through the record [Interp], whose depth is
      bounded by a fuel counter ([interp]).
    - The field [log] records observation points (render, reconcile, user
      function calls, console output); it is instrumentation only and no
      engine function reads it. *)

From Stdlib Require Import ZArith.
From stdpp Require Import base option list sets strings pretty.

Set Default Proof Using "Type".
Open Scope string_scope.
Open Scope list_scope.

(** ** Identifiers of heap objects *)

Abbreviation NodeId := nat (only parsing).
Abbreviation CompId := nat (only parsing).
Abbreviation CtxId := nat (only parsing).
Abbreviation HookId := nat (only parsing).
Abbreviation FunId := nat (only parsing).
Abbreviation ClassId := nat (only parsing).
Abbreviation ObjId := nat (only parsing).
Abbreviation ClosureId := nat (only parsing).

(** ** JavaScript values and node descriptions ([VNode.ts]) *)

(** [type: string | Function] of a node description. *)
Inductive VType : Type :=
  | TTag (tag : string)
  | TClass (cls : ClassId).

(** Values. Numbers are integer valued, with [JNaN] apart; function,
    object, component and node-description values are compared by their
    identity; an error object is identified by its message. *)
Inductive JsVal : Type :=
  | JUndefined
  | JNull
  | JBool (b : bool)
  | JNum (n : Z)
  | JNaN
  | JStr (s : string)
  | JFun (f : FunId)
  | JObj (o : ObjId)
  | JComp (c : CompId)
  | JError (message : string)
  | JElem (o : ObjId) (v : VNode)
with VNode : Type :=
  | mkVNode (type : VType) (props : list (string * JsVal))
            (children : list VChild) (key : JsVal)
with VChild : Type :=
  | ChildText (s : string)
  | ChildNode (v : VNode).

Definition Props := list (string * JsVal).
Definition State := list (string * JsVal).

Definition vtype (v : VNode) : VType := let (t, _, _, _) := v in t.
Definition vprops (v : VNode) : Props := let (_, p, _, _) := v in p.
Definition vchildren (v : VNode) : list VChild := let (_, _, c, _) := v in c.
Definition vkey (v : VNode) : JsVal := let (_, _, _, k) := v in k.

#[global] Instance VType_eq_dec : EqDecision VType.
Proof. solve_decision. Defined.

(** [a === b] *)
Definition strict_eq (a b : JsVal) : bool :=
  match a, b with
  | JUndefined, JUndefined => true
  | JNull, JNull => true
  | JBool x, JBool y => bool_decide (x = y)
  | JNum x, JNum y => (x =? y)%Z
  | JStr x, JStr y => bool_decide (x = y)
  | JFun x, JFun y => bool_decide (x = y)
  | JObj x, JObj y => bool_decide (x = y)
  | JComp x, JComp y => bool_decide (x = y)
  | JError x, JError y => bool_decide (x = y)
  | JElem x _, JElem y _ => bool_decide (x = y)
  | _, _ => false
  end.

(** [a !== b] *)
Definition strict_neq (a b : JsVal) : bool := negb (strict_eq a b).

(** SameValueZero, the key equality of [Map] and [Set]. *)
Definition same_value_zero (a b : JsVal) : bool :=
  match a, b with
  | JNaN, JNaN => true
  | _, _ => strict_eq a b
  end.

(** ToBoolean *)
Definition truthy (a : JsVal) : bool :=
  match a with
  | JUndefined | JNull | JNaN => false
  | JBool b => b
  | JNum n => negb (n =? 0)%Z
  | JStr s => negb (bool_decide (s = ""))
  | _ => true
  end.

(** [a != null] *)
Definition not_nullish (a : JsVal) : bool :=
  match a with
  | JUndefined | JNull => false
  | _ => true
  end.

(** [typeof a === 'function'] *)
Definition is_function (a : JsVal) : bool :=
  match a with JFun _ => true | _ => false end.

(** [String(a)], the conversion applied to attribute values. *)
Definition to_String (a : JsVal) : string :=
  match a with
  | JUndefined => "undefined"
  | JNull => "null"
  | JBool true => "true"
  | JBool false => "false"
  | JNum n => pretty n
  | JNaN => "NaN"
  | JStr s => s
  | JFun _ => "function"
  | JError m => "Error: " +:+ m
  | JObj _ | JComp _ | JElem _ _ => "[object Object]"
  end.

(** *** Plain objects used as records: insertion-ordered association lists *)

Module Obj.
(** [o[name]] *)
Fixpoint get (name : string) (o : list (string * JsVal)) : JsVal :=
  match o with
  | [] => JUndefined
  | (k, v) :: o' => if bool_decide (k = name) then v else get name o'
  end.

(** [name in o] *)
Fixpoint has (name : string) (o : list (string * JsVal)) : bool :=
  match o with
  | [] => false
  | (k, _) :: o' => bool_decide (k = name) || has name o'
  end.

(** [o[name] = v]: an existing key keeps its position. *)
Fixpoint set (name : string) (v : JsVal) (o : list (string * JsVal))
  : list (string * JsVal) :=
  match o with
  | [] => [(name, v)]
  | (k, x) :: o' =>
      if bool_decide (k = name) then (k, v) :: o' else (k, x) :: set name v o'
  end.

(** the rest pattern [{ name, ...rest } = o] *)
Definition without (name : string) (o : list (string * JsVal))
  : list (string * JsVal) :=
  filter (fun kv => kv.1 ≠ name) o.

(** the spread [{ ...a, ...b }] *)
Definition spread (a b : list (string * JsVal)) : list (string * JsVal) :=
  foldl (fun acc kv => set kv.1 kv.2 acc) a b.
End Obj.

(** *** The node builder *)

(** One rest argument of [createElement]: a single item or an array of
    items (arrays nested deeper survive [flat()] as arrays and have no
    typed counterpart). *)
Inductive ChildItem : Type :=
  | ItemNull
  | ItemUndefined
  | ItemChild (c : VChild).

Inductive ChildArg : Type :=
  | One (i : ChildItem)
  | Many (l : list ChildItem).

(** [children.flat()] *)
Definition flat (children : list ChildArg) : list ChildItem :=
  concat (map (fun a => match a with One i => [i] | Many l => l end) children).

(** [.filter(child => child !== null && child !== undefined)] *)
Definition keep_defined (items : list ChildItem) : list VChild :=
  omap (fun i => match i with ItemChild c => Some c | _ => None end) items.

Definition createElement (type : VType) (props : option Props)
    (children : list ChildArg) : VNode :=
  let p := default [] props in
  let key := Obj.get "key" p in
  let restProps := Obj.without "key" p in
  mkVNode type restProps (keep_defined (flat children))
          (if truthy key then key else JUndefined).

Definition areNodesEqual (node1 node2 : VNode) : bool :=
  bool_decide (vtype node1 = vtype node2) && strict_eq (vkey node1) (vkey node2).

(** *** The JSX factory ([vdom/index.ts]) *)

(** One rest argument of [jsx]: an item, or an array whose elements are
    items or arrays of items. *)
Inductive JsxArg : Type :=
  | JsxOne (i : ChildItem)
  | JsxMany (l : list ChildArg).

(** [children.flat()] *)
Definition jsx_flat (children : list JsxArg) : list ChildArg :=
  concat (map (fun a => match a with JsxOne i => [One i] | JsxMany l => l end)
              children).

(** [child !== null && child !== undefined]: an array is neither *)
Definition jsx_defined (a : ChildArg) : bool :=
  match a with
  | One ItemNull | One ItemUndefined => false
  | _ => true
  end.

Definition jsx (type : VType) (props : option Props) (children : list JsxArg)
  : VNode :=
  createElement type (Some (default [] props))
    (List.filter jsx_defined (jsx_flat children)).

(** ** User code *)

(** What a user-written function does when called: a sequence of calls
    into the engine, possibly ending in a throw. *)
Inductive Action : Type :=
  | ALog (tag : string)
  | AThrow (e : JsVal)
  | ASetState (c : CompId) (newState : State) (callback : JsVal)
  | AForceUpdate (c : CompId) (callback : JsVal)
  | ACallSetter (hook : HookId) (newValue : JsVal).

Definition Script := list Action.

(** Outcome of a computation: a value, a thrown value, or the depth bound
    of the interpreter reached. *)
Inductive Res (A : Type) : Type :=
  | Ok (a : A)
  | Throw (e : JsVal)
  | OutOfFuel.
Arguments Ok {A} a.
Arguments Throw {A} e.
Arguments OutOfFuel {A}.

(** Body of a functional component ([renderFunction]): hook calls in
    order, then the description returned. The setter handed out by
    [useState] closes over the hook object and is represented by that
    object's identity. *)
Inductive HookProg : Type :=
  | HReturn (v : VNode)
  | HThrow (e : JsVal)
  | HUseState (initialValue : JsVal) (k : JsVal -> HookId -> HookProg)
  | HUseEffect (effect : JsVal) (deps : option (list JsVal)) (k : HookProg).

(** The three bases a user class can extend. *)
Inductive ClassKind : Type :=
  | KComponent
  | KErrorBoundary
  | KFunctional.

(** A user class. Fields that a kind does not use are ignored. Lifecycle
    hooks are optional function values; they are called with the instance
    as their only argument. *)
Record ClassDef : Type := {
  cd_kind : ClassKind;
  (** state assigned by the subclass constructor, if any *)
  cd_initialState : Props -> option State;
  (** [render()] of a [Component] subclass *)
  cd_render : Props -> State -> Res VNode;
  (** [fallbackRender(error)] of an [ErrorBoundary] subclass *)
  cd_fallbackRender : JsVal -> Res VNode;
  (** [renderFunction()] of a [FunctionalComponent] subclass *)
  cd_renderFunction : CompId -> HookProg;
  (** override of [shouldComponentUpdate(nextProps, nextState)] *)
  cd_shouldComponentUpdate : option (Props -> State -> Res JsVal);
  cd_componentWillUpdate : option FunId;
  cd_componentDidUpdate : option FunId;
  cd_componentDidMount : option FunId;
  cd_componentWillUnmount : option FunId;
  cd_componentDidCatch : option FunId;
}.

(** ** Heap objects *)

(** What [render] returns at run time: a description, a string, or some
    other value when an untyped [props.children] is passed through. *)
Inductive Rendered : Type :=
  | RChild (c : VChild)
  | ROther (v : JsVal).

(** Class of an instance: a user class, or one of the two classes that
    [Context.ts] defines. *)
Inductive Behaviour : Type :=
  | BUser (cls : ClassId)
  | BProvider (ctx : CtxId)
  | BConsumer (ctx : CtxId).

(** A [Component] instance. [c_hooks] is the [_hooks] field that only
    [FunctionalComponent] declares; entries are hook objects. *)
Record ComponentObj : Type := {
  c_behaviour : Behaviour;
  c_props : Props;
  c_state : State;
  c_domElement : option NodeId;
  c_prevVNode : option Rendered;
  c_isMounted : bool;
  c_errorBoundary : option CompId;
  c_contexts : list CtxId;
  c_hooks : option (list (option HookId));
  (** [ContextConsumer.unsubscribe]: the context whose [subscribe] call
      returned the stored closure *)
  c_unsubscribe : option CtxId;
}.

(** A [Context] instance. [Set] iterates in insertion order. *)
Record ContextObj : Type := {
  x_subscribers : list CompId;
  x_currentValue : JsVal;
}.

(** A [Hook] record ([hooks.ts]). *)
Record Hook : Type := {
  h_type : string;
  h_value : JsVal;
  h_deps : option (list JsVal);
  h_cleanup : JsVal;
}.

(** A live display node. *)
Inductive NodeKind : Type :=
  | TextNode (data : string)
  | ElementNode (tagName : string).

Record DomNode : Type := {
  nodeKind : NodeKind;
  attributes : list (string * string);
  listeners : list (string * JsVal);
  childNodes : list NodeId;
  parentNode : option NodeId;
}.

(** The closures that [setState] and [forceUpdate] hand to the scheduler.
    A closure is a fresh object each time it is created. *)
Inductive Callback : Type :=
  | SetStateUpdate (c : CompId) (prevState : State) (callback : JsVal)
  | ForceUpdateUpdate (c : CompId) (callback : JsVal)
  | UserUpdate (f : JsVal).

Record Closure : Type := {
  closureId : ClosureId;
  closureCode : Callback;
}.

(** Observation points. *)
Inductive Event : Type :=
  | EvRender (c : CompId)
  | EvReconcile (c : CompId)
  | EvForceUpdate (c : CompId)
  | EvCall (f : FunId) (args : list JsVal)
  | EvUser (tag : string)
  | EvConsoleError (e : JsVal).

(** ** The world *)

(** [BatchUpdate] singleton *)
Record BatchUpdateState : Type := {
  batchedCallbacks : list Closure;
  isBatchingUpdates : bool;
}.

(** module-level variables of [hooks.ts] *)
Record HooksState : Type := {
  currentComponent : option CompId;
  currentHookIndex : nat;
}.

(** [EventDelegator] singleton; a handler table is keyed by the element
    reference it was given, which can be [undefined]. *)
Record EventDelegatorState : Type := {
  eventHandlers : list (string * list (option NodeId * JsVal));
  delegatedEvents : list string;
}.

Record World : Type := {
  batch : BatchUpdateState;
  (** [Reconciler.currentErrorBoundary] *)
  currentErrorBoundary : option CompId;
  hooksMod : HooksState;
  delegator : EventDelegatorState;
  comps : list ComponentObj;
  contexts : list ContextObj;
  hookObjs : list Hook;
  nodes : list DomNode;
  nextClosure : ClosureId;
  classes : ClassId -> ClassDef;
  funs : FunId -> list JsVal -> Script * JsVal;
  log : list Event;
}.

Definition set_batch (f : BatchUpdateState -> BatchUpdateState) (w : World) : World :=
  {| batch := f (batch w); currentErrorBoundary := currentErrorBoundary w;
     hooksMod := hooksMod w; delegator := delegator w; comps := comps w;
     contexts := contexts w; hookObjs := hookObjs w; nodes := nodes w;
     nextClosure := nextClosure w; classes := classes w; funs := funs w;
     log := log w |}.

Definition set_currentErrorBoundary (b : option CompId) (w : World) : World :=
  {| batch := batch w; currentErrorBoundary := b;
     hooksMod := hooksMod w; delegator := delegator w; comps := comps w;
     contexts := contexts w; hookObjs := hookObjs w; nodes := nodes w;
     nextClosure := nextClosure w; classes := classes w; funs := funs w;
     log := log w |}.

Definition set_hooksMod (f : HooksState -> HooksState) (w : World) : World :=
  {| batch := batch w; currentErrorBoundary := currentErrorBoundary w;
     hooksMod := f (hooksMod w); delegator := delegator w; comps := comps w;
     contexts := contexts w; hookObjs := hookObjs w; nodes := nodes w;
     nextClosure := nextClosure w; classes := classes w; funs := funs w;
     log := log w |}.

Definition set_delegator (f : EventDelegatorState -> EventDelegatorState)
    (w : World) : World :=
  {| batch := batch w; currentErrorBoundary := currentErrorBoundary w;
     hooksMod := hooksMod w; delegator := f (delegator w); comps := comps w;
     contexts := contexts w; hookObjs := hookObjs w; nodes := nodes w;
     nextClosure := nextClosure w; classes := classes w; funs := funs w;
     log := log w |}.

Definition set_comps (f : list ComponentObj -> list ComponentObj) (w : World) : World :=
  {| batch := batch w; currentErrorBoundary := currentErrorBoundary w;
     hooksMod := hooksMod w; delegator := delegator w; comps := f (comps w);
     contexts := contexts w; hookObjs := hookObjs w; nodes := nodes w;
     nextClosure := nextClosure w; classes := classes w; funs := funs w;
     log := log w |}.

Definition set_contexts (f : list ContextObj -> list ContextObj) (w : World) : World :=
  {| batch := batch w; currentErrorBoundary := currentErrorBoundary w;
     hooksMod := hooksMod w; delegator := delegator w; comps := comps w;
     contexts := f (contexts w); hookObjs := hookObjs w; nodes := nodes w;
     nextClosure := nextClosure w; classes := classes w; funs := funs w;
     log := log w |}.

Definition set_hookObjs (f : list Hook -> list Hook) (w : World) : World :=
  {| batch := batch w; currentErrorBoundary := currentErrorBoundary w;
     hooksMod := hooksMod w; delegator := delegator w; comps := comps w;
     contexts := contexts w; hookObjs := f (hookObjs w); nodes := nodes w;
     nextClosure := nextClosure w; classes := classes w; funs := funs w;
     log := log w |}.

Definition set_nodes (f : list DomNode -> list DomNode) (w : World) : World :=
  {| batch := batch w; currentErrorBoundary := currentErrorBoundary w;
     hooksMod := hooksMod w; delegator := delegator w; comps := comps w;
     contexts := contexts w; hookObjs := hookObjs w; nodes := f (nodes w);
     nextClosure := nextClosure w; classes := classes w; funs := funs w;
     log := log w |}.

Definition set_nextClosure (n : ClosureId) (w : World) : World :=
  {| batch := batch w; currentErrorBoundary := currentErrorBoundary w;
     hooksMod := hooksMod w; delegator := delegator w; comps := comps w;
     contexts := contexts w; hookObjs := hookObjs w; nodes := nodes w;
     nextClosure := n; classes := classes w; funs := funs w;
     log := log w |}.

Definition set_log (f : list Event -> list Event) (w : World) : World :=
  {| batch := batch w; currentErrorBoundary := currentErrorBoundary w;
     hooksMod := hooksMod w; delegator := delegator w; comps := comps w;
     contexts := contexts w; hookObjs := hookObjs w; nodes := nodes w;
     nextClosure := nextClosure w; classes := classes w; funs := funs w;
     log := f (log w) |}.

(** ** The monad of engine computations *)

Definition M (A : Type) : Type := World -> Res A * World.

Definition ret {A} (a : A) : M A := fun w => (Ok a, w).

Definition bind {A B} (m : M A) (k : A -> M B) : M B :=
  fun w =>
    match m w with
    | (Ok a, w') => k a w'
    | (Throw e, w') => (Throw e, w')
    | (OutOfFuel, w') => (OutOfFuel, w')
    end.

Declare Scope js_scope.
Delimit Scope js_scope with js.
Notation "x <- m ;; k" := (bind m (fun x => k))
  (at level 100, m at next level, right associativity) : js_scope.
Notation "m ;; k" := (bind m (fun _ => k))
  (at level 100, right associativity) : js_scope.
Open Scope js_scope.

(** [throw e] *)
Definition throw {A} (e : JsVal) : M A := fun w => (Throw e, w).

Definition outOfFuel {A} : M A := fun w => (OutOfFuel, w).

Definition gets {A} (f : World -> A) : M A := fun w => (Ok (f w), w).

Definition modify (f : World -> World) : M unit := fun w => (Ok tt, f w).

(** [try { body } catch (error) { handler }] *)
Definition tryCatch {A} (body : M A) (handler : JsVal -> M A) : M A :=
  fun w =>
    match body w with
    | (Throw e, w') => handler e w'
    | r => r
    end.

(** [try { body } finally { fin }] *)
Definition tryFinally {A} (body : M A) (fin : M unit) : M A :=
  fun w =>
    match body w with
    | (OutOfFuel, w') => (OutOfFuel, w')
    | (r, w') =>
        match fin w' with
        | (Ok _, w'') => (r, w'')
        | (Throw e, w'') => (Throw e, w'')
        | (OutOfFuel, w'') => (OutOfFuel, w'')
        end
    end.

(** [l.forEach(f)] over a snapshot of [l] *)
Fixpoint forEach {A} (f : A -> M unit) (l : list A) : M unit :=
  match l with
  | [] => ret tt
  | x :: l' => f x ;; forEach f l'
  end.

(** [if (c) { m }] *)
Definition when (c : bool) (m : M unit) : M unit := if c then m else ret tt.

Definition TypeError (message : string) : JsVal := JError ("TypeError: " +:+ message).
Definition DOMException (name : string) : JsVal := JError name.

Definition emit (e : Event) : M unit := modify (set_log (fun l => l ++ [e])).

(** The late-bound entry points: user function bodies, the scheduled
    closure body, the virtual methods of a component, and the reconciler's
    two recursive entry points. *)
Inductive Lifecycle : Type :=
  | ComponentWillUpdate
  | ComponentDidUpdate
  | ComponentDidMount
  | ComponentWillUnmount.

Record Interp : Type := {
  (** body of a user function *)
  i_callFun : FunId -> list JsVal -> M JsVal;
  (** body of a scheduled closure *)
  i_runCallback : Callback -> M unit;
  (** [component.render()] *)
  i_render : CompId -> M Rendered;
  (** [component.componentDidMount?.()] and the like *)
  i_lifecycle : Lifecycle -> CompId -> M unit;
  (** [Reconciler.createDOMElement] *)
  i_createDOMElement : Rendered -> M NodeId;
  (** [Reconciler.updateDOMElement] *)
  i_updateDOMElement : option NodeId -> Rendered -> Rendered -> M unit;
}.

(** [f(...args)] for a value [f]: calling a non-function is a TypeError. *)
Definition call (rec : Interp) (f : JsVal) (args : list JsVal) : M JsVal :=
  match f with
  | JFun id => emit (EvCall id args) ;; i_callFun rec id args
  | _ => throw (TypeError "not a function")
  end.

(** [f?.(...args)] *)
Definition optCall (rec : Interp) (f : JsVal) (args : list JsVal) : M unit :=
  if not_nullish f then call rec f args ;; ret tt else ret tt.

(** Run a pure user function inside the engine. *)
Definition liftRes {A} (r : Res A) : M A := fun w => (r, w).

(** ** The platform: display nodes *)

Module Document.
Definition newNode (k : NodeKind) : DomNode :=
  {| nodeKind := k; attributes := []; listeners := []; childNodes := [];
     parentNode := None |}.

Definition with_attributes (f : list (string * string) -> list (string * string))
    (d : DomNode) : DomNode :=
  {| nodeKind := nodeKind d; attributes := f (attributes d);
     listeners := listeners d; childNodes := childNodes d;
     parentNode := parentNode d |}.

Definition with_listeners (f : list (string * JsVal) -> list (string * JsVal))
    (d : DomNode) : DomNode :=
  {| nodeKind := nodeKind d; attributes := attributes d;
     listeners := f (listeners d); childNodes := childNodes d;
     parentNode := parentNode d |}.

Definition with_childNodes (f : list NodeId -> list NodeId) (d : DomNode) : DomNode :=
  {| nodeKind := nodeKind d; attributes := attributes d;
     listeners := listeners d; childNodes := f (childNodes d);
     parentNode := parentNode d |}.

Definition with_parentNode (p : option NodeId) (d : DomNode) : DomNode :=
  {| nodeKind := nodeKind d; attributes := attributes d;
     listeners := listeners d; childNodes := childNodes d;
     parentNode := p |}.

Definition alloc (k : NodeKind) : M NodeId :=
  fun w => (Ok (length (nodes w)), set_nodes (fun ns => ns ++ [newNode k]) w).

(** [document.createTextNode(data)] *)
Definition createTextNode (data : string) : M NodeId := alloc (TextNode data).

(** [document.createElement(tagName)] *)
Definition createElement (tagName : string) : M NodeId := alloc (ElementNode tagName).

(** A member access on a reference that may be [undefined]. *)
Definition receiver (n : option NodeId) : M NodeId :=
  match n with
  | Some i => ret i
  | None => throw (TypeError "Cannot read properties of undefined")
  end.

Definition getNode (i : NodeId) : M DomNode :=
  d <- gets (fun w => nodes w !! i) ;;
  match d with
  | Some d => ret d
  | None => throw (TypeError "Cannot read properties of undefined")
  end.

Definition update (i : NodeId) (f : DomNode -> DomNode) : M unit :=
  modify (set_nodes (alter f i)).

Definition isElement (d : DomNode) : bool :=
  match nodeKind d with ElementNode _ => true | TextNode _ => false end.

Fixpoint attr_set (name value : string) (l : list (string * string))
  : list (string * string) :=
  match l with
  | [] => [(name, value)]
  | (k, x) :: l' =>
      if bool_decide (k = name) then (k, value) :: l'
      else (k, x) :: attr_set name value l'
  end.

(** [element.setAttribute(name, value)]; a text node has no such method. *)
Definition setAttribute (i : NodeId) (name value : string) : M unit :=
  d <- getNode i ;;
  if isElement d then update i (with_attributes (attr_set name value))
  else throw (TypeError "setAttribute is not a function").

(** [element.removeAttribute(name)] *)
Definition removeAttribute (i : NodeId) (name : string) : M unit :=
  d <- getNode i ;;
  if isElement d
  then update i (with_attributes (filter (fun kv => kv.1 ≠ name)))
  else throw (TypeError "removeAttribute is not a function").

(** [element.addEventListener(type, listener)] *)
Definition addEventListener (i : NodeId) (type : string) (listener : JsVal) : M unit :=
  _ <- getNode i ;;
  update i (with_listeners (fun l => l ++ [(type, listener)])).

(** [node.childNodes[index]] *)
Definition childAt (i : NodeId) (index : nat) : M (option NodeId) :=
  d <- getNode i ;; ret (childNodes d !! index).

(** [node.childNodes.length] *)
Definition childCount (i : NodeId) : M nat :=
  d <- getNode i ;; ret (length (childNodes d)).

Definition remove_id (x : NodeId) (l : list NodeId) : list NodeId :=
  filter (fun y => y ≠ x) l.

(** Take [x] out of the child list of its parent, if it has one. *)
Definition detach (x : NodeId) : M unit :=
  d <- getNode x ;;
  match parentNode d with
  | Some p =>
      update p (with_childNodes (remove_id x)) ;;
      update x (with_parentNode None)
  | None => ret tt
  end.

Fixpoint insert_before (x : NodeId) (ref : option NodeId) (l : list NodeId)
  : list NodeId :=
  match l with
  | [] => [x]
  | y :: l' =>
      if bool_decide (ref = Some y) then x :: y :: l'
      else y :: insert_before x ref l'
  end.

Fixpoint next_sibling (x : NodeId) (l : list NodeId) : option NodeId :=
  match l with
  | [] => None
  | y :: l' => if bool_decide (y = x) then head l' else next_sibling x l'
  end.

(** [parent.insertBefore(node, child)]: a missing [node] is a TypeError,
    a missing [child] appends. The check that [node] is not an ancestor of
    [parent] is left out: the engine only inserts fresh nodes and children
    of [parent]. *)
Definition insertBefore (parent : NodeId) (node child : option NodeId) : M unit :=
  match node with
  | None => throw (TypeError "parameter 1 is not of type 'Node'")
  | Some x =>
      p <- getNode parent ;;
      if negb (isElement p) then throw (DOMException "HierarchyRequestError")
      else if negb (match child with
                    | Some r => bool_decide (r ∈ childNodes p)
                    | None => true
                    end)
      then throw (DOMException "NotFoundError")
      else
        let ref := if bool_decide (child = Some x)
                   then next_sibling x (childNodes p) else child in
        detach x ;;
        update parent (with_childNodes (insert_before x ref)) ;;
        update x (with_parentNode (Some parent))
  end.

(** [parent.appendChild(node)] *)
Definition appendChild (parent : NodeId) (node : NodeId) : M unit :=
  p <- getNode parent ;;
  if negb (isElement p) then throw (DOMException "HierarchyRequestError")
  else
    detach node ;;
    update parent (with_childNodes (fun l => l ++ [node])) ;;
    update node (with_parentNode (Some parent)).

(** [parent.removeChild(child)] *)
Definition removeChild (parent : NodeId) (child : NodeId) : M unit :=
  p <- getNode parent ;;
  if bool_decide (child ∈ childNodes p)
  then update parent (with_childNodes (remove_id child)) ;;
       update child (with_parentNode None)
  else throw (DOMException "NotFoundError").

Definition replace_id (old new : NodeId) (l : list NodeId) : list NodeId :=
  map (fun y => if bool_decide (y = old) then new else y) l.

(** [parent.replaceChild(newChild, oldChild)] *)
Definition replaceChild (parent : NodeId) (newChild oldChild : NodeId) : M unit :=
  p <- getNode parent ;;
  if negb (isElement p) then throw (DOMException "HierarchyRequestError")
  else if negb (bool_decide (oldChild ∈ childNodes p))
  then throw (DOMException "NotFoundError")
  else
    detach newChild ;;
    update parent (with_childNodes (replace_id oldChild newChild)) ;;
    update oldChild (with_parentNode None) ;;
    update newChild (with_parentNode (Some parent)).
End Document.

(** ** [events/EventDelegator.ts]: the handler table *)

Module EventDelegator.
Definition Handlers := list (option NodeId * JsVal).

(** [handlers.set(element, handler)] *)
Fixpoint handlers_set (element : option NodeId) (handler : JsVal) (h : Handlers)
  : Handlers :=
  match h with
  | [] => [(element, handler)]
  | (k, x) :: h' =>
      if bool_decide (k = element) then (k, handler) :: h'
      else (k, x) :: handlers_set element handler h'
  end.

Fixpoint table_get (eventType : string) (t : list (string * Handlers))
  : option Handlers :=
  match t with
  | [] => None
  | (k, h) :: t' => if bool_decide (k = eventType) then Some h else table_get eventType t'
  end.

Fixpoint table_alter (f : Handlers -> Handlers) (eventType : string)
    (t : list (string * Handlers)) : list (string * Handlers) :=
  match t with
  | [] => []
  | (k, h) :: t' =>
      if bool_decide (k = eventType) then (k, f h) :: t'
      else (k, h) :: table_alter f eventType t'
  end.

(** [handlers.get(element)], as [handleEvent] looks a handler up *)
Fixpoint handlers_get (element : option NodeId) (h : Handlers) : option JsVal :=
  match h with
  | [] => None
  | (k, x) :: h' =>
      if bool_decide (k = element) then Some x else handlers_get element h'
  end.

Definition addEventListener (element : option NodeId) (eventType : string)
    (handler : JsVal) : M unit :=
  modify (set_delegator (fun d =>
    let delegated :=
      if bool_decide (eventType ∈ delegatedEvents d) then delegatedEvents d
      else delegatedEvents d ++ [eventType] in
    let table :=
      match table_get eventType (eventHandlers d) with
      | Some _ => eventHandlers d
      | None => eventHandlers d ++ [(eventType, [])]
      end in
    {| eventHandlers := table_alter (handlers_set element handler) eventType table;
       delegatedEvents := delegated |})).

Definition removeEventListener (element : option NodeId) (eventType : string)
  : M unit :=
  modify (set_delegator (fun d =>
    {| eventHandlers :=
         table_alter (filter (fun kv => kv.1 ≠ element)) eventType (eventHandlers d);
       delegatedEvents := delegatedEvents d |})).
End EventDelegator.

(** ** [BatchUpdate.ts]: the update scheduler *)

Module BatchUpdate.
(** [this.batchedCallbacks.add(callback)] *)
Definition add (cb : Closure) (l : list Closure) : list Closure :=
  if bool_decide (closureId cb ∈ map closureId l) then l else l ++ [cb].

Definition runImmediate (rec : Interp) (callback : Closure) : M unit :=
  tryCatch (i_runCallback rec (closureCode callback))
           (fun error => emit (EvConsoleError error)).

Definition scheduleUpdate (rec : Interp) (callback : Closure) : M unit :=
  b <- gets (fun w => isBatchingUpdates (batch w)) ;;
  if b
  then modify (set_batch (fun s =>
         {| batchedCallbacks := add callback (batchedCallbacks s);
            isBatchingUpdates := isBatchingUpdates s |}))
  else runImmediate rec callback.

Definition batchStart : M unit :=
  modify (set_batch (fun s =>
    {| batchedCallbacks := batchedCallbacks s; isBatchingUpdates := true |})).

Definition flush (rec : Interp) : M unit :=
  callbacks <- gets (fun w => batchedCallbacks (batch w)) ;;
  if bool_decide (length callbacks = 0) then ret tt
  else
    modify (set_batch (fun s =>
      {| batchedCallbacks := []; isBatchingUpdates := isBatchingUpdates s |})) ;;
    forEach (runImmediate rec) callbacks.

Definition batchEnd (rec : Interp) : M unit :=
  modify (set_batch (fun s =>
    {| batchedCallbacks := batchedCallbacks s; isBatchingUpdates := false |})) ;;
  flush rec.

(** [wrap(fn)] is the function that, applied to [args], runs [fn(...args)]
    inside the bracket. *)
Definition wrap {A} (rec : Interp) (fn : list JsVal -> M A) : list JsVal -> M A :=
  fun args =>
    batchStart ;;
    tryFinally (fn args) (batchEnd rec).

(** A closure expression evaluated: a new function object. *)
Definition newClosure (code : Callback) : M Closure :=
  fun w =>
    (Ok {| closureId := nextClosure w; closureCode := code |},
     set_nextClosure (S (nextClosure w)) w).
End BatchUpdate.

(** ** [Component.ts]: the lifecycle container *)

Module Component.
Definition with_state (s : State) (o : ComponentObj) : ComponentObj :=
  {| c_behaviour := c_behaviour o; c_props := c_props o; c_state := s;
     c_domElement := c_domElement o; c_prevVNode := c_prevVNode o;
     c_isMounted := c_isMounted o; c_errorBoundary := c_errorBoundary o;
     c_contexts := c_contexts o; c_hooks := c_hooks o;
     c_unsubscribe := c_unsubscribe o |}.

Definition with_domElement (d : option NodeId) (o : ComponentObj) : ComponentObj :=
  {| c_behaviour := c_behaviour o; c_props := c_props o; c_state := c_state o;
     c_domElement := d; c_prevVNode := c_prevVNode o;
     c_isMounted := c_isMounted o; c_errorBoundary := c_errorBoundary o;
     c_contexts := c_contexts o; c_hooks := c_hooks o;
     c_unsubscribe := c_unsubscribe o |}.

Definition with_prevVNode (v : option Rendered) (o : ComponentObj) : ComponentObj :=
  {| c_behaviour := c_behaviour o; c_props := c_props o; c_state := c_state o;
     c_domElement := c_domElement o; c_prevVNode := v;
     c_isMounted := c_isMounted o; c_errorBoundary := c_errorBoundary o;
     c_contexts := c_contexts o; c_hooks := c_hooks o;
     c_unsubscribe := c_unsubscribe o |}.

Definition with_isMounted (b : bool) (o : ComponentObj) : ComponentObj :=
  {| c_behaviour := c_behaviour o; c_props := c_props o; c_state := c_state o;
     c_domElement := c_domElement o; c_prevVNode := c_prevVNode o;
     c_isMounted := b; c_errorBoundary := c_errorBoundary o;
     c_contexts := c_contexts o; c_hooks := c_hooks o;
     c_unsubscribe := c_unsubscribe o |}.

Definition with_errorBoundary (b : option CompId) (o : ComponentObj) : ComponentObj :=
  {| c_behaviour := c_behaviour o; c_props := c_props o; c_state := c_state o;
     c_domElement := c_domElement o; c_prevVNode := c_prevVNode o;
     c_isMounted := c_isMounted o; c_errorBoundary := b;
     c_contexts := c_contexts o; c_hooks := c_hooks o;
     c_unsubscribe := c_unsubscribe o |}.

Definition with_contexts (l : list CtxId) (o : ComponentObj) : ComponentObj :=
  {| c_behaviour := c_behaviour o; c_props := c_props o; c_state := c_state o;
     c_domElement := c_domElement o; c_prevVNode := c_prevVNode o;
     c_isMounted := c_isMounted o; c_errorBoundary := c_errorBoundary o;
     c_contexts := l; c_hooks := c_hooks o;
     c_unsubscribe := c_unsubscribe o |}.

Definition with_hooks (h : option (list (option HookId))) (o : ComponentObj)
  : ComponentObj :=
  {| c_behaviour := c_behaviour o; c_props := c_props o; c_state := c_state o;
     c_domElement := c_domElement o; c_prevVNode := c_prevVNode o;
     c_isMounted := c_isMounted o; c_errorBoundary := c_errorBoundary o;
     c_contexts := c_contexts o; c_hooks := h;
     c_unsubscribe := c_unsubscribe o |}.

Definition with_unsubscribe (u : option CtxId) (o : ComponentObj) : ComponentObj :=
  {| c_behaviour := c_behaviour o; c_props := c_props o; c_state := c_state o;
     c_domElement := c_domElement o; c_prevVNode := c_prevVNode o;
     c_isMounted := c_isMounted o; c_errorBoundary := c_errorBoundary o;
     c_contexts := c_contexts o; c_hooks := c_hooks o;
     c_unsubscribe := u |}.

(** [this] *)
Definition get (c : CompId) : M ComponentObj :=
  o <- gets (fun w => comps w !! c) ;;
  match o with
  | Some o => ret o
  | None => throw (TypeError "Cannot read properties of undefined")
  end.

Definition update (c : CompId) (f : ComponentObj -> ComponentObj) : M unit :=
  modify (set_comps (alter f c)).

(** [constructor(props)]: [this.props = props; this.state = {}] and the
    field initialisers. *)
Definition construct (b : Behaviour) (props : Props) : ComponentObj :=
  {| c_behaviour := b; c_props := props; c_state := [];
     c_domElement := None; c_prevVNode := None; c_isMounted := false;
     c_errorBoundary := None; c_contexts := []; c_hooks := None;
     c_unsubscribe := None |}.

Definition alloc (o : ComponentObj) : M CompId :=
  fun w => (Ok (length (comps w)), set_comps (fun l => l ++ [o]) w).

Definition setState (rec : Interp) (c : CompId) (newState : State)
    (callback : JsVal) : M unit :=
  o <- get c ;;
  let prevState := c_state o in
  update c (with_state (Obj.spread (c_state o) newState)) ;;
  cb <- BatchUpdate.newClosure (SetStateUpdate c prevState callback) ;;
  BatchUpdate.scheduleUpdate rec cb.

Definition setErrorBoundary (c : CompId) (boundary : CompId) : M unit :=
  _ <- get c ;;
  update c (with_errorBoundary (Some boundary)).

(** [handleError]: [this.errorBoundary.handleError(error)] is the same
    inherited method on the boundary, so the error climbs the chain of
    back-references and is thrown at its end. [n] bounds the climb. *)
Fixpoint handleError_climb (n : nat) (c : CompId) (error : JsVal) : M unit :=
  o <- get c ;;
  match c_errorBoundary o with
  | Some b =>
      match n with
      | 0 => outOfFuel
      | S n' => handleError_climb n' b error
      end
  | None => throw error
  end.

Definition handleError (c : CompId) (error : JsVal) : M unit :=
  n <- gets (fun w => length (comps w)) ;;
  handleError_climb n c error.

(** truthiness of [this.prevVNode] *)
Definition rendered_truthy (r : option Rendered) : bool :=
  match r with
  | None => false
  | Some (RChild (ChildText s)) => negb (bool_decide (s = ""))
  | Some (RChild (ChildNode _)) => true
  | Some (ROther v) => truthy v
  end.

Definition updateComponent (rec : Interp) (c : CompId) (prevState : State) : M unit :=
  o <- get c ;;
  if bool_decide (is_Some (c_domElement o)) && rendered_truthy (c_prevVNode o)
     && c_isMounted o
  then
    tryCatch
      (i_lifecycle rec ComponentWillUpdate c ;;
       newVNode <- i_render rec c ;;
       o' <- get c ;;
       emit (EvReconcile c) ;;
       i_updateDOMElement rec (c_domElement o')
         (default (ROther JNull) (c_prevVNode o')) newVNode ;;
       update c (with_prevVNode (Some newVNode)) ;;
       i_lifecycle rec ComponentDidUpdate c)
      (fun error => handleError c error)
  else ret tt.

Definition forceUpdate (rec : Interp) (c : CompId) (callback : JsVal) : M unit :=
  emit (EvForceUpdate c) ;;
  o <- get c ;;
  if c_isMounted o
  then cb <- BatchUpdate.newClosure (ForceUpdateUpdate c callback) ;;
       BatchUpdate.scheduleUpdate rec cb
  else ret tt.

Definition mount (rec : Interp) (c : CompId) (container : NodeId) : M unit :=
  vnode <- i_render rec c ;;
  update c (with_prevVNode (Some vnode)) ;;
  el <- i_createDOMElement rec vnode ;;
  update c (with_domElement (Some el)) ;;
  Document.appendChild container el ;;
  update c (with_isMounted true) ;;
  i_lifecycle rec ComponentDidMount c.

(** [context.unsubscribe(this)] for each subscribed context, then clear *)
Definition unsubscribeFromContexts (c : CompId) : M unit :=
  o <- get c ;;
  forEach (fun ctx =>
    modify (set_contexts (alter (fun x =>
      {| x_subscribers := filter (fun s => s ≠ c) (x_subscribers x);
         x_currentValue := x_currentValue x |}) ctx)))
    (c_contexts o) ;;
  update c (with_contexts []).

Definition unmount (rec : Interp) (c : CompId) : M unit :=
  o <- get c ;;
  match c_domElement o with
  | Some el =>
      if c_isMounted o then
        i_lifecycle rec ComponentWillUnmount c ;;
        unsubscribeFromContexts c ;;
        o' <- get c ;;
        match c_domElement o' with
        | Some el' => Document.detach el'
        | None => throw (TypeError "Cannot read properties of null")
        end ;;
        update c (with_isMounted false) ;;
        update c (with_domElement None) ;;
        update c (with_prevVNode None)
      else ret tt
  | None => ret tt
  end.
End Component.

(** ** [hooks.ts]: the hooks runtime *)

Module Hooks.
Definition hooksError : JsVal :=
  JError "Hooks can only be used in functional components".

Definition setCurrentComponent (component : option CompId) : M unit :=
  modify (set_hooksMod (fun _ =>
    {| currentComponent := component; currentHookIndex := 0 |})).

(** [currentHookIndex++] *)
Definition nextHookIndex : M nat :=
  fun w =>
    (Ok (currentHookIndex (hooksMod w)),
     set_hooksMod (fun s =>
       {| currentComponent := currentComponent s;
          currentHookIndex := S (currentHookIndex s) |}) w).

Definition getHook (h : HookId) : M Hook :=
  o <- gets (fun w => hookObjs w !! h) ;;
  match o with
  | Some o => ret o
  | None => throw (TypeError "Cannot read properties of undefined")
  end.

Definition allocHook (o : Hook) : M HookId :=
  fun w => (Ok (length (hookObjs w)), set_hookObjs (fun l => l ++ [o]) w).

Definition with_value (v : JsVal) (o : Hook) : Hook :=
  {| h_type := h_type o; h_value := v; h_deps := h_deps o; h_cleanup := h_cleanup o |}.

Definition with_cleanup (v : JsVal) (o : Hook) : Hook :=
  {| h_type := h_type o; h_value := h_value o; h_deps := h_deps o; h_cleanup := v |}.

Definition with_deps (d : option (list JsVal)) (o : Hook) : Hook :=
  {| h_type := h_type o; h_value := h_value o; h_deps := d; h_cleanup := h_cleanup o |}.

Definition updateHook (h : HookId) (f : Hook -> Hook) : M unit :=
  modify (set_hookObjs (alter f h)).

(** [arr[i] = x] on a JavaScript array: writing past the end extends it
    with holes. *)
Definition array_set (i : nat) (x : HookId) (arr : list (option HookId))
  : list (option HookId) :=
  if bool_decide (i < length arr) then <[i := Some x]> arr
  else arr ++ replicate (i - length arr) None ++ [Some x].

(** [hooks[hookIndex]] where [hooks = currentComponent._hooks || []] *)
Definition slot (o : ComponentObj) (hookIndex : nat) : option HookId :=
  match c_hooks o with
  | Some arr => mjoin (arr !! hookIndex)
  | None => None
  end.

(** [hooks[hookIndex] = hook]: the array is the component's own when it
    has one, and a temporary otherwise. *)
Definition storeSlot (c : CompId) (hookIndex : nat) (h : HookId) : M unit :=
  Component.update c (fun o =>
    Component.with_hooks (array_set hookIndex h <$> c_hooks o) o).

(** The setter returned by [useState] (the inner arrow function
    [setState]), closed over [hook]. It reads the module-level
    [currentComponent] when it is called. *)
Definition setter (rec : Interp) (hook : HookId) (newValue : JsVal) : M unit :=
  hk <- getHook hook ;;
  nextValue <- (if is_function newValue then call rec newValue [h_value hk]
                else ret newValue) ;;
  hk' <- getHook hook ;;
  if strict_neq nextValue (h_value hk')
  then
    updateHook hook (with_value nextValue) ;;
    cur <- gets (fun w => currentComponent (hooksMod w)) ;;
    match cur with
    | Some c => Component.forceUpdate rec c JUndefined
    | None => ret tt
    end
  else ret tt.

(** [useState(initialValue)] returns the value and the setter. *)
Definition useState (rec : Interp) (initialValue : JsVal) : M (JsVal * HookId) :=
  cur <- gets (fun w => currentComponent (hooksMod w)) ;;
  match cur with
  | None => throw hooksError
  | Some c =>
      o <- Component.get c ;;
      hookIndex <- nextHookIndex ;;
      hook <- match slot o hookIndex with
              | Some h => ret h
              | None =>
                  v <- (if is_function initialValue then call rec initialValue []
                        else ret initialValue) ;;
                  h <- allocHook {| h_type := "state"; h_value := v;
                                    h_deps := None; h_cleanup := JUndefined |} ;;
                  storeSlot c hookIndex h ;;
                  ret h
              end ;;
      hk <- getHook hook ;;
      ret (h_value hk, hook)
  end.

(** [deps.some((dep, i) => dep !== old[i])] *)
Fixpoint some_differs (i : nat) (deps old : list JsVal) : bool :=
  match deps with
  | [] => false
  | dep :: deps' =>
      strict_neq dep (default JUndefined (old !! i)) || some_differs (S i) deps' old
  end.

(** [!hook.deps || deps.length !== hook.deps.length || deps.some(...)] *)
Definition depsChanged (stored : option (list JsVal)) (deps : list JsVal) : bool :=
  match stored with
  | None => true
  | Some old =>
      negb (bool_decide (length deps = length old)) || some_differs 0 deps old
  end.

(** The condition [hasNoDeps || hasChangedDeps] of [useEffect]. *)
Definition effectDue (stored deps : option (list JsVal)) : bool :=
  let hasNoDeps := negb (bool_decide (is_Some deps)) in
  let hasChangedDeps :=
    match deps with
    | Some d => depsChanged stored d
    | None => true
    end in
  hasNoDeps || hasChangedDeps.

Definition useEffect (rec : Interp) (effect : JsVal) (deps : option (list JsVal))
  : M unit :=
  cur <- gets (fun w => currentComponent (hooksMod w)) ;;
  match cur with
  | None => throw hooksError
  | Some c =>
      o <- Component.get c ;;
      hookIndex <- nextHookIndex ;;
      hook <- match slot o hookIndex with
              | Some h => ret h
              | None => allocHook {| h_type := "effect"; h_value := JUndefined;
                                     h_deps := None; h_cleanup := JUndefined |}
              end ;;
      hk <- getHook hook ;;
      (if effectDue (h_deps hk) deps
       then
         (if truthy (h_cleanup hk) then call rec (h_cleanup hk) [] ;; ret tt
          else ret tt) ;;
         cleanup <- call rec effect [] ;;
         updateHook hook (with_cleanup cleanup) ;;
         updateHook hook (with_deps deps)
       else ret tt) ;;
      storeSlot c hookIndex hook
  end.

(** The [factory] argument of [useMemo]: a user function, or the arrow
    function [() => callback] that [useCallback] builds. *)
Inductive Factory : Type :=
  | UserFactory (f : JsVal)
  | ConstantFactory (callback : JsVal).

(** [factory()] *)
Definition callFactory (rec : Interp) (factory : Factory) : M JsVal :=
  match factory with
  | UserFactory f => call rec f []
  | ConstantFactory callback => ret callback
  end.

Definition useMemo (rec : Interp) (factory : Factory) (deps : list JsVal)
  : M JsVal :=
  cur <- gets (fun w => currentComponent (hooksMod w)) ;;
  match cur with
  | None => throw hooksError
  | Some c =>
      o <- Component.get c ;;
      hookIndex <- nextHookIndex ;;
      hook <- match slot o hookIndex with
              | Some h => ret h
              | None => allocHook {| h_type := "memo"; h_value := JUndefined;
                                     h_deps := None; h_cleanup := JUndefined |}
              end ;;
      hk <- getHook hook ;;
      (if depsChanged (h_deps hk) deps
       then
         value <- callFactory rec factory ;;
         updateHook hook (with_value value) ;;
         updateHook hook (with_deps (Some deps))
       else ret tt) ;;
      storeSlot c hookIndex hook ;;
      hk' <- getHook hook ;;
      ret (h_value hk')
  end.

Definition useCallback (rec : Interp) (callback : JsVal) (deps : list JsVal)
  : M JsVal :=
  useMemo rec (ConstantFactory callback) deps.

(** The condition [hasChangedDeps] of [useLayoutEffect]:
    [!hook.deps || !deps || deps.length !== hook.deps.length || deps.some(...)] *)
Definition layoutEffectDue (stored deps : option (list JsVal)) : bool :=
  match stored with
  | None => true
  | Some old =>
      match deps with
      | None => true
      | Some d =>
          negb (bool_decide (length d = length old)) || some_differs 0 d old
      end
  end.

Definition useLayoutEffect (rec : Interp) (effect : JsVal)
    (deps : option (list JsVal)) : M unit :=
  cur <- gets (fun w => currentComponent (hooksMod w)) ;;
  match cur with
  | None => throw hooksError
  | Some c =>
      o <- Component.get c ;;
      hookIndex <- nextHookIndex ;;
      hook <- match slot o hookIndex with
              | Some h => ret h
              | None => allocHook {| h_type := "layoutEffect"; h_value := JUndefined;
                                     h_deps := None; h_cleanup := JUndefined |}
              end ;;
      hk <- getHook hook ;;
      (if layoutEffectDue (h_deps hk) deps
       then
         (if truthy (h_cleanup hk) then call rec (h_cleanup hk) [] ;; ret tt
          else ret tt) ;;
         cleanup <- call rec effect [] ;;
         updateHook hook (with_cleanup cleanup) ;;
         updateHook hook (with_deps deps)
       else ret tt) ;;
      storeSlot c hookIndex hook
  end.
End Hooks.

(** ** User functions and scripts *)

Module UserCode.
Definition runAction (rec : Interp) (a : Action) : M unit :=
  match a with
  | ALog tag => emit (EvUser tag)
  | AThrow e => throw e
  | ASetState c newState callback => Component.setState rec c newState callback
  | AForceUpdate c callback => Component.forceUpdate rec c callback
  | ACallSetter hook newValue => Hooks.setter rec hook newValue
  end.

Definition runScript (rec : Interp) (s : Script) : M unit :=
  forEach (runAction rec) s.

(** Body of the user function [f] applied to [args]. *)
Definition callFun (rec : Interp) (f : FunId) (args : list JsVal) : M JsVal :=
  body <- gets (fun w => funs w f args) ;;
  runScript rec body.1 ;;
  ret body.2.
End UserCode.

(** A value returned where a description is expected. *)
Definition asRendered (v : JsVal) : Rendered :=
  match v with
  | JElem _ n => RChild (ChildNode n)
  | JStr s => RChild (ChildText s)
  | _ => ROther v
  end.

(** ** [FunctionalComponent.ts] *)

Module FunctionalComponent.
Fixpoint runHookProg (rec : Interp) (p : HookProg) : M VNode :=
  match p with
  | HReturn v => ret v
  | HThrow e => throw e
  | HUseState initialValue k =>
      r <- Hooks.useState rec initialValue ;;
      runHookProg rec (k r.1 r.2)
  | HUseEffect effect deps k =>
      Hooks.useEffect rec effect deps ;;
      runHookProg rec k
  end.

Definition render (rec : Interp) (c : CompId) (renderFunction : HookProg)
  : M Rendered :=
  Hooks.setCurrentComponent (Some c) ;;
  result <- runHookProg rec renderFunction ;;
  Hooks.setCurrentComponent None ;;
  ret (RChild (ChildNode result)).
End FunctionalComponent.

(** ** [ErrorBoundary.ts] *)

Module ErrorBoundary.
(** state set by the constructor *)
Definition initialState : State :=
  [("hasError", JBool false); ("error", JUndefined)].

Definition getDerivedStateFromError (error : JsVal) : State :=
  [("hasError", JBool true); ("error", error)].

Definition render (c : CompId) (fallbackRender : JsVal -> Res VNode) : M Rendered :=
  o <- Component.get c ;;
  if truthy (Obj.get "hasError" (c_state o))
  then v <- liftRes (fallbackRender (Obj.get "error" (c_state o))) ;;
       ret (RChild (ChildNode v))
  else ret (asRendered (Obj.get "children" (c_props o))).
End ErrorBoundary.

(** ** [Context.ts]: the context channel *)

Module Context.
Definition get (ctx : CtxId) : M ContextObj :=
  o <- gets (fun w => contexts w !! ctx) ;;
  match o with
  | Some o => ret o
  | None => throw (TypeError "Cannot read properties of undefined")
  end.

Definition createContext (defaultValue : JsVal) : M CtxId :=
  fun w =>
    (Ok (length (contexts w)),
     set_contexts (fun l =>
       l ++ [{| x_subscribers := []; x_currentValue := defaultValue |}]) w).

Definition getValue (ctx : CtxId) : M JsVal :=
  o <- get ctx ;; ret (x_currentValue o).

(** [this.currentValue = value] *)
Definition write (ctx : CtxId) (value : JsVal) : M unit :=
  _ <- get ctx ;;
  modify (set_contexts (alter (fun x =>
    {| x_subscribers := x_subscribers x; x_currentValue := value |}) ctx)).

Definition notify (rec : Interp) (ctx : CtxId) : M unit :=
  o <- get ctx ;;
  forEach (fun component => Component.forceUpdate rec component JUndefined)
          (x_subscribers o).

Definition setValue (rec : Interp) (ctx : CtxId) (value : JsVal) : M unit :=
  write ctx value ;;
  notify rec ctx.

(** [subscribe]; the closure it returns deletes [component] again. *)
Definition subscribe (ctx : CtxId) (component : CompId) : M unit :=
  _ <- get ctx ;;
  modify (set_contexts (alter (fun x =>
    {| x_subscribers :=
         if bool_decide (component ∈ x_subscribers x) then x_subscribers x
         else x_subscribers x ++ [component];
       x_currentValue := x_currentValue x |}) ctx)).

Definition unsubscribe (ctx : CtxId) (component : CompId) : M unit :=
  _ <- get ctx ;;
  modify (set_contexts (alter (fun x =>
    {| x_subscribers := filter (fun s => s ≠ component) (x_subscribers x);
       x_currentValue := x_currentValue x |}) ctx)).

(** [useContext(context)] *)
Definition useContext (ctx : CtxId) : M JsVal := getValue ctx.
End Context.

(** [Component.subscribeToContext(context)]: [this.contexts.add(context)],
    then the context's value. *)
Definition subscribeToContext (c : CompId) (ctx : CtxId) : M JsVal :=
  o <- Component.get c ;;
  Component.update c
    (Component.with_contexts
       (if bool_decide (ctx ∈ c_contexts o) then c_contexts o
        else c_contexts o ++ [ctx])) ;;
  Context.getValue ctx.

Module ContextProvider.
Definition construct (props : Props) (ctx : CtxId) : M CompId :=
  Component.alloc (Component.construct (BProvider ctx) props).

Definition updateContextValue (rec : Interp) (c : CompId) (ctx : CtxId) : M unit :=
  oldValue <- Context.getValue ctx ;;
  o <- Component.get c ;;
  let newValue := Obj.get "value" (c_props o) in
  if strict_neq oldValue newValue
  then Context.setValue rec ctx newValue
  else ret tt.

Definition render (c : CompId) : M Rendered :=
  o <- Component.get c ;;
  ret (asRendered (Obj.get "children" (c_props o))).

(** The [Provider] member of a context: builds a provider and returns
    what it renders, without mounting it. *)
Definition Provider (ctx : CtxId) (props : Props) : M Rendered :=
  c <- construct props ctx ;;
  render c.
End ContextProvider.

Module ContextConsumer.
Definition construct (props : Props) (ctx : CtxId) : M CompId :=
  Component.alloc (Component.construct (BConsumer ctx) props).

Definition componentDidMount (c : CompId) (ctx : CtxId) : M unit :=
  Context.subscribe ctx c ;;
  Component.update c (Component.with_unsubscribe (Some ctx)).

Definition componentWillUnmount (c : CompId) : M unit :=
  o <- Component.get c ;;
  match c_unsubscribe o with
  | Some ctx => Context.unsubscribe ctx c
  | None => ret tt
  end.

Definition render (rec : Interp) (c : CompId) (ctx : CtxId) : M Rendered :=
  o <- Component.get c ;;
  value <- Context.getValue ctx ;;
  r <- call rec (Obj.get "children" (c_props o)) [value] ;;
  ret (asRendered r).

Definition Consumer (rec : Interp) (ctx : CtxId) (props : Props) : M Rendered :=
  c <- construct props ctx ;;
  render rec c ctx.
End ContextConsumer.

(** ** [reconciler.ts]: materialisation and patching *)

Module Reconciler.
(** [name.startsWith('on')] *)
Definition isEventProp (name : string) : bool := String.prefix "on" name.

Definition lower_ascii (a : Ascii.ascii) : Ascii.ascii :=
  let n := Ascii.nat_of_ascii a in
  if (65 <=? n)%nat && (n <=? 90)%nat then Ascii.ascii_of_nat (n + 32) else a.

Fixpoint toLowerCase (s : string) : string :=
  match s with
  | EmptyString => EmptyString
  | String a s' => String (lower_ascii a) (toLowerCase s')
  end.

(** [name.toLowerCase().substring(2)] *)
Definition eventNameOf (name : string) : string :=
  let l := toLowerCase name in
  String.substring 2 (String.length l - 2) l.

(** [new ComponentClass(vnode.props)]: the base constructors, then the
    subclass constructor. *)
Definition instantiate (cls : ClassId) (props : Props) : M CompId :=
  def <- gets (fun w => classes w cls) ;;
  let base := Component.construct (BUser cls) props in
  let o1 := match cd_kind def with
            | KComponent => base
            | KErrorBoundary => Component.with_state ErrorBoundary.initialState base
            | KFunctional => Component.with_hooks (Some []) base
            end in
  let o2 := match cd_initialState def props with
            | Some s => Component.with_state s o1
            | None => o1
            end in
  Component.alloc o2.

(** [component instanceof ErrorBoundary] *)
Definition isErrorBoundary (c : CompId) : M bool :=
  o <- Component.get c ;;
  match c_behaviour o with
  | BUser cls =>
      def <- gets (fun w => classes w cls) ;;
      ret (match cd_kind def with KErrorBoundary => true | _ => false end)
  | _ => ret false
  end.

Definition handleErrorInBoundary (rec : Interp) (error : JsVal) : M NodeId :=
  b <- gets currentErrorBoundary ;;
  match b with
  | Some boundary =>
      let state := ErrorBoundary.getDerivedStateFromError error in
      Component.setState rec boundary state JUndefined ;;
      fallback <- i_render rec boundary ;;
      i_createDOMElement rec fallback
  | None => throw error
  end.

Definition createComponent (rec : Interp) (vnode : VNode) (cls : ClassId) : M NodeId :=
  tryCatch
    (component <- instantiate cls (vprops vnode) ;;
     outer <- gets currentErrorBoundary ;;
     match outer with
     | Some b => Component.setErrorBoundary component b
     | None => ret tt
     end ;;
     isBoundary <- isErrorBoundary component ;;
     when isBoundary (modify (set_currentErrorBoundary (Some component))) ;;
     rendered <- i_render rec component ;;
     element <- i_createDOMElement rec rendered ;;
     when isBoundary (modify (set_currentErrorBoundary None)) ;;
     ret element)
    (fun error =>
       b <- gets currentErrorBoundary ;;
       if bool_decide (is_Some b) then handleErrorInBoundary rec error
       else throw error).

(** one entry of [Object.entries(vnode.props)] at materialisation; the
    listener stored on the element is [BatchUpdate.wrap(value)] *)
Definition applyProp (element : NodeId) (entry : string * JsVal) : M unit :=
  let (name, value) := entry in
  if bool_decide (name = "className")
  then Document.setAttribute element "class" (to_String value)
  else if isEventProp name
  then (if is_function value
        then Document.addEventListener element (eventNameOf name) value
        else ret tt)
  else Document.setAttribute element name (to_String value).

Definition createDOMElement (rec : Interp) (vnode : Rendered) : M NodeId :=
  match vnode with
  | RChild (ChildText s) => Document.createTextNode s
  | RChild (ChildNode v) =>
      match vtype v with
      | TClass cls => createComponent rec v cls
      | TTag tag =>
          element <- Document.createElement tag ;;
          forEach (applyProp element) (vprops v) ;;
          forEach (fun child =>
                     childElement <- i_createDOMElement rec (RChild child) ;;
                     Document.appendChild element childElement)
                  (vchildren v) ;;
          ret element
      end
  | ROther v =>
      (* neither a string nor a description: [vnode.type] fails on
         null/undefined; on any other value it is undefined, an element
         is created for it, and [vnode.children.forEach] fails *)
      if not_nullish v
      then _ <- Document.createElement "undefined" ;;
           throw (TypeError "Cannot read properties of undefined")
      else throw (TypeError "Cannot read properties of undefined")
  end.

Definition updateProps (dom : option NodeId) (oldProps newProps : Props) : M unit :=
  forEach (fun name =>
             if negb (Obj.has name newProps)
             then (if isEventProp name
                   then EventDelegator.removeEventListener dom (eventNameOf name)
                   else d <- Document.receiver dom ;;
                        Document.removeAttribute d name)
             else ret tt)
          (map fst oldProps) ;;
  forEach (fun entry : string * JsVal =>
             let (name, value) := entry in
             if strict_neq (Obj.get name oldProps) value
             then (if isEventProp name
                   then EventDelegator.addEventListener dom (eventNameOf name) value
                   else d <- Document.receiver dom ;;
                        Document.setAttribute d name (to_String value))
             else ret tt)
          newProps.

(** the key under which a child is collected or looked up:
    [typeof child !== 'string' && child.key != null] *)
Definition keyOf (child : VChild) : option JsVal :=
  match child with
  | ChildNode v => if not_nullish (vkey v) then Some (vkey v) else None
  | ChildText _ => None
  end.

Definition KeyedChildren := list (JsVal * (VChild * nat)).

(** [map.set(key, entry)] *)
Fixpoint keyed_set (key : JsVal) (entry : VChild * nat) (m : KeyedChildren)
  : KeyedChildren :=
  match m with
  | [] => [(key, entry)]
  | (k, x) :: m' =>
      if same_value_zero k key then (k, entry) :: m'
      else (k, x) :: keyed_set key entry m'
  end.

(** [map.get(key)] *)
Fixpoint keyed_get (key : JsVal) (m : KeyedChildren) : option (VChild * nat) :=
  match m with
  | [] => None
  | (k, x) :: m' => if same_value_zero k key then Some x else keyed_get key m'
  end.

(** first pass: collect the keyed old children *)
Fixpoint collectKeyed (i : nat) (oldChildren : list VChild) (m : KeyedChildren)
  : KeyedChildren :=
  match oldChildren with
  | [] => m
  | child :: rest =>
      collectKeyed (S i) rest
        (match keyOf child with
         | Some k => keyed_set k (child, i) m
         | None => m
         end)
  end.

(** the old counterpart of a new child: by key when the new child is
    keyed, by position otherwise *)
Definition pairOld (oldKeyedChildren : KeyedChildren) (oldChildren : list VChild)
    (newChild : VChild) (newIndex : nat) : option VChild * option nat :=
  match keyOf newChild with
  | Some k =>
      match keyed_get k oldKeyedChildren with
      | Some (node, index) => (Some node, Some index)
      | None => (None, None)
      end
  | None => (oldChildren !! newIndex, Some newIndex)
  end.

(** [if (oldChild)] *)
Definition child_truthy (c : option VChild) : bool :=
  match c with
  | Some (ChildNode _) => true
  | Some (ChildText s) => negb (bool_decide (s = ""))
  | None => false
  end.

Definition isText (c : VChild) : bool :=
  match c with ChildText _ => true | ChildNode _ => false end.

(** [while (dom.childNodes.length > n) dom.removeChild(dom.lastChild)];
    [k] bounds the iterations by the initial child count. *)
Fixpoint trim (k : nat) (d : NodeId) (n : nat) : M unit :=
  match k with
  | 0 => ret tt
  | S k' =>
      node <- Document.getNode d ;;
      if bool_decide (n < length (childNodes node))
      then match last (childNodes node) with
           | Some l => Document.removeChild d l ;; trim k' d n
           | None => ret tt
           end
      else ret tt
  end.

(** body of the second pass for one new child; returns the new
    [lastIndex] *)
Definition updateChild (rec : Interp) (dom : option NodeId)
    (oldKeyedChildren : KeyedChildren) (oldChildren : list VChild)
    (lastIndex : nat) (newChild : VChild) (newIndex : nat) : M nat :=
  let (oldChild, oldIndex) := pairOld oldKeyedChildren oldChildren newChild newIndex in
  if child_truthy oldChild
  then
    let oi := default 0 oldIndex in
    lastIndex' <-
      (if bool_decide (oi < lastIndex)
       then d <- Document.receiver dom ;;
            a <- Document.childAt d oi ;;
            b <- Document.childAt d newIndex ;;
            Document.insertBefore d a b ;;
            ret lastIndex
       else ret oi) ;;
    match oldChild with
    | Some (ChildNode o) =>
        if isText newChild then ret lastIndex'
        else d <- Document.receiver dom ;;
             target <- Document.childAt d newIndex ;;
             i_updateDOMElement rec target (RChild (ChildNode o)) (RChild newChild) ;;
             ret lastIndex'
    | _ => ret lastIndex'
    end
  else
    newElement <- i_createDOMElement rec (RChild newChild) ;;
    d <- Document.receiver dom ;;
    n <- Document.childCount d ;;
    (if bool_decide (newIndex < n)
     then ref <- Document.childAt d newIndex ;;
          Document.insertBefore d (Some newElement) ref
     else Document.appendChild d newElement) ;;
    ret lastIndex.

Fixpoint updateChildren_loop (rec : Interp) (dom : option NodeId)
    (oldKeyedChildren : KeyedChildren) (oldChildren : list VChild)
    (lastIndex newIndex : nat) (newChildren : list VChild) : M unit :=
  match newChildren with
  | [] => ret tt
  | newChild :: rest =>
      lastIndex' <- updateChild rec dom oldKeyedChildren oldChildren
                      lastIndex newChild newIndex ;;
      updateChildren_loop rec dom oldKeyedChildren oldChildren
        lastIndex' (S newIndex) rest
  end.

Definition updateChildren (rec : Interp) (dom : option NodeId)
    (oldChildren newChildren : list VChild) : M unit :=
  let oldKeyedChildren := collectKeyed 0 oldChildren [] in
  updateChildren_loop rec dom oldKeyedChildren oldChildren 0 0 newChildren ;;
  d <- Document.receiver dom ;;
  n <- Document.childCount d ;;
  trim n d (length newChildren).

(** [vnode.type] of whatever was rendered *)
Definition typeOf (r : Rendered) : M (option VType) :=
  match r with
  | RChild (ChildNode v) => ret (Some (vtype v))
  | RChild (ChildText _) => ret None
  | ROther v =>
      if not_nullish v then ret None
      else throw (TypeError "Cannot read properties of undefined")
  end.

Definition updateDOMElement (rec : Interp) (dom : option NodeId)
    (oldVNode newVNode : Rendered) : M unit :=
  t1 <- typeOf oldVNode ;;
  t2 <- typeOf newVNode ;;
  if bool_decide (t1 ≠ t2)
  then
    newElement <- createDOMElement rec newVNode ;;
    d <- Document.receiver dom ;;
    node <- Document.getNode d ;;
    match parentNode node with
    | Some p => Document.replaceChild p newElement d
    | None => ret tt
    end
  else
    match oldVNode, newVNode with
    | RChild (ChildNode o), RChild (ChildNode n) =>
        updateProps dom (vprops o) (vprops n) ;;
        updateChildren rec dom (vchildren o) (vchildren n)
    | _, _ => throw (TypeError "Cannot convert undefined or null to object")
    end.
End Reconciler.

(** ** Dynamic dispatch and the interpreter *)

Module Dispatch.
Definition render (rec : Interp) (c : CompId) : M Rendered :=
  emit (EvRender c) ;;
  o <- Component.get c ;;
  match c_behaviour o with
  | BUser cls =>
      def <- gets (fun w => classes w cls) ;;
      match cd_kind def with
      | KComponent =>
          v <- liftRes (cd_render def (c_props o) (c_state o)) ;;
          ret (RChild (ChildNode v))
      | KErrorBoundary => ErrorBoundary.render c (cd_fallbackRender def)
      | KFunctional => FunctionalComponent.render rec c (cd_renderFunction def c)
      end
  | BProvider _ => ContextProvider.render c
  | BConsumer ctx => ContextConsumer.render rec c ctx
  end.

Definition userHook (l : Lifecycle) (def : ClassDef) : option FunId :=
  match l with
  | ComponentWillUpdate => cd_componentWillUpdate def
  | ComponentDidUpdate => cd_componentDidUpdate def
  | ComponentDidMount => cd_componentDidMount def
  | ComponentWillUnmount => cd_componentWillUnmount def
  end.

Definition lifecycle (rec : Interp) (l : Lifecycle) (c : CompId) : M unit :=
  o <- Component.get c ;;
  match c_behaviour o with
  | BUser cls =>
      def <- gets (fun w => classes w cls) ;;
      match userHook l def with
      | Some f => call rec (JFun f) [JComp c] ;; ret tt
      | None => ret tt
      end
  | BProvider ctx =>
      match l with
      | ComponentDidMount | ComponentDidUpdate =>
          ContextProvider.updateContextValue rec c ctx
      | _ => ret tt
      end
  | BConsumer ctx =>
      match l with
      | ComponentDidMount => ContextConsumer.componentDidMount c ctx
      | ComponentWillUnmount => ContextConsumer.componentWillUnmount c
      | _ => ret tt
      end
  end.

(** [this.shouldComponentUpdate?.(this.props, this.state)]; the base
    class returns [true] *)
Definition shouldComponentUpdate (c : CompId) : M JsVal :=
  o <- Component.get c ;;
  match c_behaviour o with
  | BUser cls =>
      def <- gets (fun w => classes w cls) ;;
      match cd_shouldComponentUpdate def with
      | Some f => liftRes (f (c_props o) (c_state o))
      | None => ret (JBool true)
      end
  | _ => ret (JBool true)
  end.

(** bodies of the closures created by [setState] and [forceUpdate] *)
Definition runCallback (rec : Interp) (cb : Callback) : M unit :=
  match cb with
  | SetStateUpdate c prevState callback =>
      should <- shouldComponentUpdate c ;;
      when (strict_neq should (JBool false))
           (Component.updateComponent rec c prevState) ;;
      optCall rec callback []
  | ForceUpdateUpdate c callback =>
      o <- Component.get c ;;
      Component.updateComponent rec c (c_state o) ;;
      optCall rec callback []
  | UserUpdate f => call rec f [] ;; ret tt
  end.
End Dispatch.

(** The engine at call depth [fuel]. *)
Fixpoint interp (fuel : nat) : Interp :=
  match fuel with
  | 0 =>
      {| i_callFun := fun _ _ => outOfFuel;
         i_runCallback := fun _ => outOfFuel;
         i_render := fun _ => outOfFuel;
         i_lifecycle := fun _ _ => outOfFuel;
         i_createDOMElement := fun _ => outOfFuel;
         i_updateDOMElement := fun _ _ _ => outOfFuel |}
  | S n =>
      let rec := interp n in
      {| i_callFun := UserCode.callFun rec;
         i_runCallback := Dispatch.runCallback rec;
         i_render := Dispatch.render rec;
         i_lifecycle := Dispatch.lifecycle rec;
         i_createDOMElement := Reconciler.createDOMElement rec;
         i_updateDOMElement := Reconciler.updateDOMElement rec |}
  end.

(** [vdom/index.ts] *)
Definition render (fuel : nat) (component : CompId) (container : NodeId) : M unit :=
  Component.mount (interp fuel) component container.

(** ** Example programs

    The classes of the demonstration application, reduced to what the
    engine sees of them, and an initial world with an empty [body]. *)

Module Demo.
Definition abstractClass : ClassDef :=
  {| cd_kind := KComponent;
     cd_initialState := fun _ => None;
     cd_render := fun _ _ => Throw (JError "render is abstract");
     cd_fallbackRender := fun _ => Throw (JError "fallbackRender is abstract");
     cd_renderFunction := fun _ => HThrow (JError "renderFunction is abstract");
     cd_shouldComponentUpdate := None;
     cd_componentWillUpdate := None;
     cd_componentDidUpdate := None;
     cd_componentDidMount := None;
     cd_componentWillUnmount := None;
     cd_componentDidCatch := None |}.

Definition text (s : string) : ChildArg := One (ItemChild (ChildText s)).
Definition node (v : VNode) : ChildArg := One (ItemChild (ChildNode v)).

(** a counter showing [state.count] *)
Definition Counter : ClassDef :=
  {| cd_kind := KComponent;
     cd_initialState := fun _ => Some [("count", JNum 0)];
     cd_render := fun _ st =>
       Ok (createElement (TTag "div") (Some [("title", Obj.get "count" st)]) []);
     cd_fallbackRender := cd_fallbackRender abstractClass;
     cd_renderFunction := cd_renderFunction abstractClass;
     cd_shouldComponentUpdate := None;
     cd_componentWillUpdate := None;
     cd_componentDidUpdate := None;
     cd_componentDidMount := None;
     cd_componentWillUnmount := None;
     cd_componentDidCatch := None |}.

Definition crash : JsVal := JError "I crashed!".

(** a component whose render throws *)
Definition BuggyCounter : ClassDef :=
  {| cd_kind := KComponent;
     cd_initialState := fun _ => Some [("count", JNum 5)];
     cd_render := fun _ _ => Throw crash;
     cd_fallbackRender := cd_fallbackRender abstractClass;
     cd_renderFunction := cd_renderFunction abstractClass;
     cd_shouldComponentUpdate := None;
     cd_componentWillUpdate := None;
     cd_componentDidUpdate := None;
     cd_componentDidMount := None;
     cd_componentWillUnmount := None;
     cd_componentDidCatch := None |}.

Definition didCatch : FunId := 7.

Definition fallback (error : JsVal) : VNode :=
  createElement (TTag "h2") None [text "Something went wrong."].

(** an error boundary with a did-catch hook *)
Definition ErrorBoundaryExample : ClassDef :=
  {| cd_kind := KErrorBoundary;
     cd_initialState := fun _ => None;
     cd_render := cd_render abstractClass;
     cd_fallbackRender := fun error => Ok (fallback error);
     cd_renderFunction := cd_renderFunction abstractClass;
     cd_shouldComponentUpdate := None;
     cd_componentWillUpdate := None;
     cd_componentDidUpdate := None;
     cd_componentDidMount := None;
     cd_componentWillUnmount := None;
     cd_componentDidCatch := Some didCatch |}.

(** a functional component with one state slot *)
Definition Clicker : ClassDef :=
  {| cd_kind := KFunctional;
     cd_initialState := fun _ => None;
     cd_render := cd_render abstractClass;
     cd_fallbackRender := cd_fallbackRender abstractClass;
     cd_renderFunction := fun _ =>
       HUseState (JNum 0) (fun count _ =>
         HReturn (createElement (TTag "p") (Some [("title", count)]) []));
     cd_shouldComponentUpdate := None;
     cd_componentWillUpdate := None;
     cd_componentDidUpdate := None;
     cd_componentDidMount := None;
     cd_componentWillUnmount := None;
     cd_componentDidCatch := None |}.

Definition CounterId : ClassId := 0.
Definition BuggyCounterId : ClassId := 1.
Definition ErrorBoundaryExampleId : ClassId := 2.
Definition ClickerId : ClassId := 3.

Definition effectFn : FunId := 8.
Definition cleanupFn : FunId := 9.
Definition throwingFn : FunId := 10.

(** a functional component with one effect slot *)
Definition Watcher : ClassDef :=
  {| cd_kind := KFunctional;
     cd_initialState := fun _ => None;
     cd_render := cd_render abstractClass;
     cd_fallbackRender := cd_fallbackRender abstractClass;
     cd_renderFunction := fun _ =>
       HUseEffect (JFun effectFn) (Some [JNum 1])
         (HReturn (createElement (TTag "p") None []));
     cd_shouldComponentUpdate := None;
     cd_componentWillUpdate := None;
     cd_componentDidUpdate := None;
     cd_componentDidMount := None;
     cd_componentWillUnmount := None;
     cd_componentDidCatch := None |}.

Definition WatcherId : ClassId := 4.

Definition classTable (cls : ClassId) : ClassDef :=
  match cls with
  | 0 => Counter
  | 1 => BuggyCounter
  | 2 => ErrorBoundaryExample
  | 3 => Clicker
  | 4 => Watcher
  | _ => abstractClass
  end.

Definition funTable (f : FunId) (args : list JsVal) : Script * JsVal :=
  match f with
  | 7 => ([ALog "caught"], JUndefined)
  | 8 => ([ALog "effect"], JFun cleanupFn)
  | 9 => ([ALog "cleanup"], JUndefined)
  | 10 => ([AThrow (JError "handler failed")], JUndefined)
  | _ => ([], JUndefined)
  end.

(** the document: a [body] element, node 0 *)
Definition body : NodeId := 0.

Definition world0 : World :=
  {| batch := {| batchedCallbacks := []; isBatchingUpdates := false |};
     currentErrorBoundary := None;
     hooksMod := {| currentComponent := None; currentHookIndex := 0 |};
     delegator := {| eventHandlers := []; delegatedEvents := [] |};
     comps := [];
     contexts := [];
     hookObjs := [];
     nodes := [Document.newNode (ElementNode "body")];
     nextClosure := 0;
     classes := classTable;
     funs := funTable;
     log := [] |}.

(** [li] elements keyed and labelled by a letter *)
Definition item (k : string) : ChildArg :=
  node (createElement (TTag "li") (Some [("key", JStr k); ("id", JStr k)]) []).

Definition listABC : VNode := createElement (TTag "ul") None [item "a"; item "b"; item "c"].
Definition listCAB : VNode := createElement (TTag "ul") None [item "c"; item "a"; item "b"].
(** *** Scenarios *)

(** the world a computation leaves *)
Definition after {A} (m : M A) (w : World) : World := snd (m w).

(** a mounted [Counter], instance 0, live node 1 *)
Definition mountedCounter : World :=
  after (c <- Reconciler.instantiate CounterId [] ;;
         Component.mount (interp 4) c body) world0.

(** two [setState] calls issued inside one batching window *)
Definition twoSetStates (rec : Interp) (c : CompId) : M unit :=
  BatchUpdate.batchStart ;;
  Component.setState rec c [("count", JNum 1)] JUndefined ;;
  Component.setState rec c [("count", JNum 2)] JUndefined ;;
  BatchUpdate.batchEnd rec.

(** the list [a, b, c] materialised under [body]: the [ul] is node 1 and
    the items are nodes 2, 3 and 4 *)
Definition listWorld : World :=
  after (el <- Reconciler.createDOMElement (interp 3) (RChild (ChildNode listABC)) ;;
         Document.appendChild body el) world0.

(** a boundary whose only child throws when rendered *)
Definition buggyChild : VNode := createElement (TClass BuggyCounterId) None [].

Definition guarded : VNode :=
  createElement (TClass ErrorBoundaryExampleId)
    (Some [("children", JElem 100 buggyChild)]) [].

(** the fallback materialised on its own *)
Definition fallbackWorld : World :=
  after (Reconciler.createDOMElement (interp 3) (RChild (ChildNode (fallback crash))))
        world0.

(** a mounted [Clicker], instance 0, whose state slot is hook 0 *)
Definition mountedClicker : World :=
  after (c <- Reconciler.instantiate ClickerId [] ;;
         Component.mount (interp 4) c body) world0.

(** a [Watcher] rendered once and entering its second render pass *)
Definition watcherRerender : World :=
  after (c <- Reconciler.instantiate WatcherId [] ;;
         i_render (interp 4) c ;;
         Hooks.setCurrentComponent (Some c)) world0.

(** an outer boundary, instance 0, being materialised: it is the current
    error boundary *)
Definition insideOuterBoundary : World :=
  after (c <- Reconciler.instantiate ErrorBoundaryExampleId [] ;;
         modify (set_currentErrorBoundary (Some c))) world0.

(** an inner boundary around a plain element *)
Definition innerBoundary : VNode :=
  createElement (TClass ErrorBoundaryExampleId)
    (Some [("children", JElem 101 (createElement (TTag "div") None []))]) [].

(** a theme context (context 0) with a mounted subscriber (instance 0) and
    a provider (instance 1) that was given another value *)
Definition themeWorld : World :=
  after (ctx <- Context.createContext (JStr "light") ;;
         c <- Reconciler.instantiate CounterId [] ;;
         Component.mount (interp 4) c body ;;
         Context.subscribe ctx c ;;
         ContextProvider.construct
           [("value", JStr "dark");
            ("children", JElem 102 (createElement (TTag "section") None []))]
           ctx) world0.
End Demo.

(** ** Vocabulary of the statements *)

(** A computation that may return or run out of depth, but never throws. *)
Definition neverThrows {A} (m : M A) : Prop :=
  forall w e w', m w <> (Throw e, w').

(** The supplied dependency list differs from the stored one: none is
    stored, or the lengths differ, or some position holds unequal
    values. *)
Definition depsDiffer (stored : option (list JsVal)) (deps : list JsVal) : Prop :=
  match stored with
  | None => True
  | Some old =>
      length deps <> length old
      \/ exists i x y, deps !! i = Some x /\ old !! i = Some y /\ strict_neq x y = true
  end.

(** [w'] differs from [w], as far as display nodes go, at most in the
    attribute list of node [d]. *)
Definition attrsOnly (d : NodeId) (w w' : World) : Prop :=
  length (nodes w') = length (nodes w)
  /\ (forall i, i <> d -> nodes w' !! i = nodes w !! i)
  /\ (forall n, nodes w !! d = Some n ->
        exists n', nodes w' !! d = Some n'
                   /\ nodeKind n' = nodeKind n
                   /\ listeners n' = listeners n
                   /\ childNodes n' = childNodes n
                   /\ parentNode n' = parentNode n).

(** A step that succeeds on a live element [d] and stays within
    [attrsOnly]. *)
Definition attrStep (d : NodeId) (m : M unit) : Prop :=
  forall w n, nodes w !! d = Some n -> Document.isElement n = true ->
    exists w', m w = (Ok tt, w') /\ attrsOnly d w w'.

(** The steps of [createComponent] up to the call of [render], for a class
    that is an error boundary. *)
Definition enterBoundary (vnode : VNode) (cls : ClassId) : M CompId :=
  component <- Reconciler.instantiate cls (vprops vnode) ;;
  outer <- gets currentErrorBoundary ;;
  match outer with
  | Some b => Component.setErrorBoundary component b
  | None => ret tt
  end ;;
  modify (set_currentErrorBoundary (Some component)) ;;
  ret component.

(** What the engine does between entering the materialisation of a
    boundary [vB] and materialising its fallback, when the boundary's only
    child [vC] throws [error] from its first render: both instances are
    built and rendered in turn, the error is merged into the boundary's
    state, the update closure of that [setState] is created, and the
    boundary is rendered again. *)
Definition catchChildError (vB vC : VNode) (clsB clsC : ClassId) (error : JsVal)
  : M unit :=
  boundary <- enterBoundary vB clsB ;;
  emit (EvRender boundary) ;;
  child <- Reconciler.instantiate clsC (vprops vC) ;;
  Component.setErrorBoundary child boundary ;;
  emit (EvRender child) ;;
  o <- Component.get boundary ;;
  Component.update boundary
    (Component.with_state
       (Obj.spread (c_state o) (ErrorBoundary.getDerivedStateFromError error))) ;;
  _ <- BatchUpdate.newClosure (SetStateUpdate boundary (c_state o) JUndefined) ;;
  emit (EvRender boundary).

(** The live list [d] has exactly the childless element children
    [a], [b], [c], in this order. *)
Record liveTriple (d a b c : NodeId) (w : World) : Prop := {
  lt_distinct : NoDup [d; a; b; c];
  lt_list : exists nd, nodes w !! d = Some nd /\ Document.isElement nd = true
                       /\ childNodes nd = [a; b; c];
  lt_item : forall x, x ∈ [a; b; c] ->
            exists nx, nodes w !! x = Some nx /\ Document.isElement nx = true
                       /\ childNodes nx = [] /\ parentNode nx = Some d;
}.

(** Events of one kind in a log. *)
Definition isReconcileOf (c : CompId) (e : Event) : bool :=
  match e with EvReconcile c' => bool_decide (c' = c) | _ => false end.

Definition isRenderOf (c : CompId) (e : Event) : bool :=
  match e with EvRender c' => bool_decide (c' = c) | _ => false end.


Definition isCallOf (f : FunId) (e : Event) : bool :=
  match e with EvCall f' _ => bool_decide (f' = f) | _ => false end.

Definition count (p : Event -> bool) (l : list Event) : nat :=
  length (List.filter p l).

(** The events logged after the first [n]. *)
Definition since (n : nat) (l : list Event) : list Event := drop n l.

(** *** Vocabulary and scenarios of the further properties *)

(** The arguments of [createElement] as arguments of [jsx]. *)
Definition asJsxArg (a : ChildArg) : JsxArg :=
  match a with
  | One i => JsxOne i
  | Many l => JsxMany (map One l)
  end.

(** A mounted instance [1] of the crashing counter under a boundary [0],
    as an earlier, successful render left it. *)
Definition crashingUnderBoundary : World :=
  Demo.after (b <- Reconciler.instantiate Demo.ErrorBoundaryExampleId [] ;;
         c <- Reconciler.instantiate Demo.BuggyCounterId [] ;;
         Component.setErrorBoundary c b ;;
         el <- Document.createElement "div" ;;
         Document.appendChild Demo.body el ;;
         Component.update c (Component.with_domElement (Some el)) ;;
         Component.update c (Component.with_prevVNode
           (Some (RChild (ChildNode (createElement (TTag "div") None []))))) ;;
         Component.update c (Component.with_isMounted true)) Demo.world0.

(** The handler that [handleEvent] finds for an element and an event
    type. *)
Definition handlerOf (d : EventDelegatorState) (eventType : string)
    (element : option NodeId) : option JsVal :=
  h ← EventDelegator.table_get eventType (eventHandlers d);
  EventDelegator.handlers_get element h.

(** a consumer of the theme context, instance 2, not yet mounted *)
Definition themeConsumerWorld : World :=
  Demo.after (ContextConsumer.construct [("children", JFun 11)] 0) Demo.themeWorld.

(** a paragraph with one text child, live nodes 1 and 2 *)
Definition paragraphWorld : World :=
  Demo.after (el <- Reconciler.createDOMElement (interp 1)
                (RChild (ChildNode (createElement (TTag "p") None [Demo.text "one"]))) ;;
              Document.appendChild Demo.body el) Demo.world0.




(** The value a key stands for in a [Map]: a description object stands
    for its identity. *)
Definition keyClass (a : JsVal) : JsVal :=
  match a with
  | JElem o _ => JElem o (mkVNode (TTag "") [] [] JUndefined)
  | _ => a
  end.













(** a [body] whose only child is an empty paragraph, live nodes 0 and 1 *)
Definition replaceWorld : World :=
  set_nodes (fun _ =>
    [Document.with_childNodes (fun _ => [1]) (Document.newNode (ElementNode "body"));
     Document.with_parentNode (Some 0) (Document.newNode (ElementNode "p"))])
    Demo.world0.

(** ** Rewriting computations *)

Lemma bind_ret_l {A B} (a : A) (k : A -> M B) (w : World) :
  bind (ret a) k w = k a w.
Proof. reflexivity. Qed.

Lemma bind_gets {A B} (f : World -> A) (k : A -> M B) (w : World) :
  bind (gets f) k w = k (f w) w.
Proof. reflexivity. Qed.

Lemma bind_modify {B} (f : World -> World) (k : unit -> M B) (w : World) :
  bind (modify f) k w = k tt (f w).
Proof. reflexivity. Qed.

Lemma bind_assoc {A B C} (m : M A) (k : A -> M B) (k' : B -> M C) (w : World) :
  bind (bind m k) k' w = bind m (fun a => bind (k a) k') w.
Proof. unfold bind. destruct (m w) as [[a | e | ] w1]; reflexivity. Qed.

Lemma bind_ok {A B} (m : M A) (k : A -> M B) (w w' : World) (a : A) :
  m w = (Ok a, w') -> bind m k w = k a w'.
Proof. intros H. unfold bind. rewrite H. reflexivity. Qed.

Lemma bind_throw {A B} (m : M A) (k : A -> M B) (w w' : World) (e : JsVal) :
  m w = (Throw e, w') -> bind m k w = (Throw e, w').
Proof. intros H. unfold bind. rewrite H. reflexivity. Qed.

(** Bring the head of a computation applied to a world into normal form. *)
Lemma bind_tryCatch_throw {A B} (m : M A) (h : JsVal -> M A) (k : A -> M B)
    (w w' : World) (e : JsVal) :
  m w = (Throw e, w') -> bind (tryCatch m h) k w = bind (h e) k w'.
Proof. intros H. unfold bind, tryCatch. rewrite H. reflexivity. Qed.

Lemma bind_tryCatch_ok {A B} (m : M A) (h : JsVal -> M A) (k : A -> M B)
    (w w' : World) (a : A) :
  m w = (Ok a, w') -> bind (tryCatch m h) k w = k a w'.
Proof. intros H. unfold bind, tryCatch. rewrite H. reflexivity. Qed.

Ltac mstep :=
  repeat first [ rewrite bind_assoc | rewrite bind_ret_l
               | rewrite bind_gets | rewrite bind_modify ].

(** Reading a field of an updated world. *)
Ltac wsimpl :=
  cbn [batch currentErrorBoundary hooksMod delegator comps contexts hookObjs
       nodes nextClosure classes funs log
       set_batch set_currentErrorBoundary set_hooksMod set_delegator set_comps
       set_contexts set_hookObjs set_nodes set_nextClosure set_log].

Ltac mrun := repeat (progress (mstep; wsimpl)).

(** The instance allocated last. *)
Lemma lookup_snoc {A} (l : list A) (x : A) : (l ++ [x]) !! length l = Some x.
Proof. rewrite lookup_app_r by lia. rewrite Nat.sub_diag. reflexivity. Qed.

Lemma alter_snoc {A} (f : A -> A) (l : list A) (x : A) :
  alter f (length l) (l ++ [x]) = l ++ [f x].
Proof.
  rewrite alter_app_r_alt by lia. rewrite Nat.sub_diag. reflexivity.
Qed.

(** ** The node builder *)

(** C10. A key of [0] or of the empty string given to [createElement] is
    discarded: the node's key is [undefined]. In a later child diff such a
    node counts as unkeyed: it is not collected in the key table when old,
    and when new it is paired with the old child at its own index. *)
Theorem createElement_falsy_key_is_positional
    (type : VType) (props : Props) (children : list ChildArg) :
  Obj.get "key" props = JNum 0 \/ Obj.get "key" props = JStr "" ->
  let n := createElement type (Some props) children in
  vkey n = JUndefined
  /\ Reconciler.keyOf (ChildNode n) = None
  /\ (forall keyed oldChildren newIndex,
        Reconciler.pairOld keyed oldChildren (ChildNode n) newIndex
        = (oldChildren !! newIndex, Some newIndex))
  /\ (forall i rest m,
        Reconciler.collectKeyed i (ChildNode n :: rest) m
        = Reconciler.collectKeyed (S i) rest m).
Proof.
  intros Hkey n.
  assert (Hk : vkey n = JUndefined).
  { unfold n, createElement. simpl. destruct Hkey as [-> | ->]; reflexivity. }
  assert (Hn : Reconciler.keyOf (ChildNode n) = None).
  { unfold Reconciler.keyOf. rewrite Hk. reflexivity. }
  split; [exact Hk|]. split; [exact Hn|]. split.
  - intros keyed oldChildren newIndex. unfold Reconciler.pairOld.
    rewrite Hn. reflexivity.
  - intros i rest m. cbn [Reconciler.collectKeyed]. rewrite Hn. reflexivity.
Qed.

Lemma createElement_falsy_key_is_positional_witness :
  Obj.get "key" [("key", JNum 0); ("id", JStr "x")] = JNum 0
  /\ vkey (createElement (TTag "li") (Some [("key", JNum 0); ("id", JStr "x")]) [])
     = JUndefined.
Proof.
  split; [reflexivity|].
  apply (createElement_falsy_key_is_positional
           (TTag "li") [("key", JNum 0); ("id", JStr "x")] []).
  left. reflexivity.
Defined.

(** A truthy key is kept, and the child is then looked up by key. *)
Lemma createElement_truthy_key_kept
    (type : VType) (props : Props) (children : list ChildArg) :
  truthy (Obj.get "key" props) = true ->
  vkey (createElement type (Some props) children) = Obj.get "key" props.
Proof. intros H. unfold createElement. simpl. rewrite H. reflexivity. Qed.

(** ** The scheduler *)

Lemma neverThrows_ret {A} (a : A) : neverThrows (ret a).
Proof. intros w e w'. unfold ret. congruence. Qed.

Lemma neverThrows_modify (f : World -> World) : neverThrows (modify f).
Proof. intros w e w'. unfold modify. congruence. Qed.

Lemma neverThrows_bind {A B} (m : M A) (k : A -> M B) :
  neverThrows m -> (forall a, neverThrows (k a)) -> neverThrows (bind m k).
Proof.
  intros Hm Hk w e w'. unfold bind.
  destruct (m w) as [[a | e0 | ] w1] eqn:E.
  - apply Hk.
  - exfalso. exact (Hm _ _ _ E).
  - congruence.
Qed.

Lemma neverThrows_forEach {A} (f : A -> M unit) (l : list A) :
  (forall x, neverThrows (f x)) -> neverThrows (forEach f l).
Proof.
  intros Hf. induction l as [| x l IH]; simpl.
  - apply neverThrows_ret.
  - apply neverThrows_bind; [apply Hf | intros _; exact IH].
Qed.

(** An error thrown by a scheduled callback is logged, not propagated. *)
Lemma runImmediate_neverThrows (rec : Interp) (cb : Closure) :
  neverThrows (BatchUpdate.runImmediate rec cb).
Proof.
  intros w e w'. unfold BatchUpdate.runImmediate, tryCatch.
  destruct (i_runCallback rec (closureCode cb) w) as [[a | e0 | ] w1]; try congruence.
  unfold emit, modify. congruence.
Qed.

Lemma flush_neverThrows (rec : Interp) : neverThrows (BatchUpdate.flush rec).
Proof.
  unfold BatchUpdate.flush. apply neverThrows_bind.
  - intros w e w'. unfold gets. congruence.
  - intros cbs. case_bool_decide.
    + apply neverThrows_ret.
    + apply neverThrows_bind; [apply neverThrows_modify|].
      intros _. apply neverThrows_forEach. intros x. apply runImmediate_neverThrows.
Qed.

Lemma batchEnd_neverThrows (rec : Interp) : neverThrows (BatchUpdate.batchEnd rec).
Proof.
  unfold BatchUpdate.batchEnd. apply neverThrows_bind.
  - apply neverThrows_modify.
  - intros _. apply flush_neverThrows.
Qed.

(** C9. The wrapped function runs [fn] in a world where batching is on
    (the one [batchStart] leaves), and [batchEnd] then runs on the world
    [fn] leaves, whether [fn] returned or threw; the outcome of [fn] is the
    outcome of the wrapped call, since [batchEnd] itself never throws. *)
Theorem wrap_brackets_fn {A} (rec : Interp) (fn : list JsVal -> M A)
    (args : list JsVal) (w : World) :
  let w1 := snd (BatchUpdate.batchStart w) in
  isBatchingUpdates (batch w1) = true
  /\ (forall v w2 w3,
        fn args w1 = (Ok v, w2) ->
        BatchUpdate.batchEnd rec w2 = (Ok tt, w3) ->
        BatchUpdate.wrap rec fn args w = (Ok v, w3))
  /\ (forall e w2 w3,
        fn args w1 = (Throw e, w2) ->
        BatchUpdate.batchEnd rec w2 = (Ok tt, w3) ->
        BatchUpdate.wrap rec fn args w = (Throw e, w3))
  /\ neverThrows (BatchUpdate.batchEnd rec).
Proof.
  intros w1. split; [reflexivity|].
  assert (H : forall r w2 w3,
             fn args w1 = (r, w2) -> r <> OutOfFuel ->
             BatchUpdate.batchEnd rec w2 = (Ok tt, w3) ->
             BatchUpdate.wrap rec fn args w = (r, w3)).
  { intros r w2 w3 Hfn Hr Hend.
    unfold w1 in Hfn. cbn [BatchUpdate.batchStart modify snd] in Hfn.
    unfold BatchUpdate.wrap, bind. cbn [BatchUpdate.batchStart modify].
    unfold tryFinally. rewrite Hfn.
    destruct r; [ | | congruence]; rewrite Hend; reflexivity. }
  split; [|split].
  - intros v w2 w3 Hfn Hend. apply (H (Ok v) w2 w3 Hfn); [congruence | exact Hend].
  - intros e w2 w3 Hfn Hend. apply (H (Throw e) w2 w3 Hfn); [congruence | exact Hend].
  - apply batchEnd_neverThrows.
Qed.

Lemma wrap_brackets_fn_witness :
  BatchUpdate.wrap (interp 3) (fun a => call (interp 3) (JFun Demo.throwingFn) a) []
    Demo.world0
  = (Throw (JError "handler failed"),
     set_log (fun _ => [EvCall Demo.throwingFn []]) Demo.world0).
Proof.
  refine (proj1 (proj2 (proj2
    (wrap_brackets_fn (interp 3) (fun a => call (interp 3) (JFun Demo.throwingFn) a)
       [] Demo.world0))) (JError "handler failed") _ _ _ _);
    vm_compute; reflexivity.
Defined.

(** While a batching window is open, a [setState] call merges the state
    and queues a closure of its own: the pending set grows by one entry
    per call. *)
Lemma setState_while_batching
    (rec : Interp) (w : World) (c : CompId) (o : ComponentObj)
    (newState : State) (callback : JsVal) :
  comps w !! c = Some o ->
  isBatchingUpdates (batch w) = true ->
  nextClosure w ∉ map closureId (batchedCallbacks (batch w)) ->
  Component.setState rec c newState callback w
  = (Ok tt,
     set_batch (fun s =>
       {| batchedCallbacks :=
            batchedCallbacks s
            ++ [{| closureId := nextClosure w;
                   closureCode := SetStateUpdate c (c_state o) callback |}];
          isBatchingUpdates := isBatchingUpdates s |})
       (set_nextClosure (S (nextClosure w))
          (set_comps (alter (Component.with_state (Obj.spread (c_state o) newState)) c)
             w))).
Proof.
  intros Hc Hb Hfresh. unfold Component.setState, Component.get.
  rewrite bind_assoc, bind_gets, Hc, bind_ret_l.
  unfold Component.update. rewrite bind_modify.
  unfold BatchUpdate.newClosure at 1. unfold bind at 1.
  unfold BatchUpdate.scheduleUpdate. rewrite bind_gets.
  cbn [batch set_nextClosure set_comps nextClosure]. rewrite Hb.
  unfold modify. f_equal. unfold set_batch. cbn.
  unfold BatchUpdate.add. cbn [closureId].
  rewrite bool_decide_eq_false_2 by exact Hfresh. reflexivity.
Qed.

(** A flush runs every pending closure, in insertion order, after
    emptying the pending set. *)
Lemma flush_runs_each_pending (rec : Interp) (w : World) :
  batchedCallbacks (batch w) <> [] ->
  BatchUpdate.flush rec w
  = forEach (BatchUpdate.runImmediate rec) (batchedCallbacks (batch w))
      (set_batch (fun s => {| batchedCallbacks := [];
                              isBatchingUpdates := isBatchingUpdates s |}) w).
Proof.
  intros Hne. unfold BatchUpdate.flush. rewrite bind_gets.
  rewrite bool_decide_eq_false_2.
  - rewrite bind_modify. reflexivity.
  - intros Hlen. apply Hne. destruct (batchedCallbacks (batch w)); [reflexivity | discriminate].
Qed.

(** C1. Two [setState] calls issued by a component inside one batching
    window leave two closures pending, one per call, and the flush at
    [batchEnd] runs both of them, one after the other: two update passes,
    each with its own render and reconcile when the component is mounted,
    not one. *)
Theorem two_setState_calls_queue_two_updates
    (rec : Interp) (w : World) (c : CompId) (o : ComponentObj)
    (s1 s2 : State) (cb1 cb2 : JsVal) :
  comps w !! c = Some o ->
  batchedCallbacks (batch w) = [] ->
  let st1 := Obj.spread (c_state o) s1 in
  let u1 := {| closureId := nextClosure w;
               closureCode := SetStateUpdate c (c_state o) cb1 |} in
  let u2 := {| closureId := S (nextClosure w);
               closureCode := SetStateUpdate c st1 cb2 |} in
  let queued :=
    Demo.after (BatchUpdate.batchStart ;;
                Component.setState rec c s1 cb1 ;;
                Component.setState rec c s2 cb2) w in
  batchedCallbacks (batch queued) = [u1; u2]
  /\ log queued = log w
  /\ (BatchUpdate.batchStart ;;
      Component.setState rec c s1 cb1 ;;
      Component.setState rec c s2 cb2 ;;
      BatchUpdate.batchEnd rec) w
     = (BatchUpdate.runImmediate rec u1 ;; BatchUpdate.runImmediate rec u2 ;; ret tt)
         (set_batch (fun _ => {| batchedCallbacks := []; isBatchingUpdates := false |})
            queued).
Proof.
  intros Hc Hempty st1 u1 u2 queued.
  pose (w1 := snd (BatchUpdate.batchStart w)).
  assert (H1 := setState_while_batching rec w1 c o s1 cb1 Hc eq_refl).
  cbn [w1 BatchUpdate.batchStart modify snd batch set_batch batchedCallbacks] in H1.
  rewrite Hempty in H1. specialize (H1 (not_elem_of_nil _)).
  cbn [nextClosure set_batch app] in H1. fold u1 in H1.
  match type of H1 with _ = (Ok tt, ?x) => set (w2 := x) in * end.
  assert (Hc2 : comps w2 !! c = Some (Component.with_state st1 o)).
  { unfold w2. cbn [comps set_batch set_nextClosure set_comps].
    rewrite list_lookup_alter_eq, Hc. reflexivity. }
  assert (H2 := setState_while_batching rec w2 c _ s2 cb2 Hc2 eq_refl).
  cbn [w2 batch set_batch batchedCallbacks set_nextClosure set_comps nextClosure
       map closureId] in H2.
  assert (Hfresh : S (nextClosure w)
                   ∉ map closureId (batchedCallbacks (batch w) ++ [u1])).
  { rewrite Hempty. unfold u1. cbn [map app closureId].
    rewrite list_elem_of_singleton. lia. }
  specialize (H2 Hfresh). fold w2 in H2.
  cbn [Component.with_state c_state app] in H2. fold u2 in H2.
  match type of H2 with _ = (Ok tt, ?x) => set (w3 := x) in * end.
  assert (Hq : queued = w3).
  { unfold queued, Demo.after, BatchUpdate.batchStart. rewrite bind_modify.
    change (set_batch _ w) with w1.
    rewrite (bind_ok _ _ _ _ _ H1), H2. reflexivity. }
  assert (Hb3 : batchedCallbacks (batch w3) = [u1; u2]).
  { unfold w3, w2.
    cbn [batch set_batch set_nextClosure set_comps batchedCallbacks].
    rewrite Hempty. reflexivity. }
  split; [rewrite Hq; exact Hb3|].
  split; [rewrite Hq; reflexivity|].
  unfold BatchUpdate.batchStart at 1. rewrite bind_modify. change (set_batch _ w) with w1.
  rewrite (bind_ok _ _ _ _ _ H1), (bind_ok _ _ _ _ _ H2).
  rewrite Hq. unfold BatchUpdate.batchEnd. rewrite bind_modify.
  unfold BatchUpdate.flush. rewrite bind_gets.
  cbn [batch set_batch batchedCallbacks]. rewrite Hb3. cbn [length].
  rewrite bool_decide_eq_false_2 by discriminate.
  rewrite bind_modify. reflexivity.
Qed.

Lemma two_setState_calls_queue_two_updates_witness :
  let before := Demo.mountedCounter in
  let out := Demo.twoSetStates (interp 6) 0 before in
  c_isMounted <$> comps before !! 0 = Some true
  /\ length (batchedCallbacks (batch
       (Demo.after (BatchUpdate.batchStart ;;
                    Component.setState (interp 6) 0 [("count", JNum 1)] JUndefined ;;
                    Component.setState (interp 6) 0 [("count", JNum 2)] JUndefined)
          before))) = 2
  /\ fst out = Ok tt
  /\ since (length (log before)) (log (snd out))
     = [EvRender 0; EvReconcile 0; EvRender 0; EvReconcile 0]
  /\ count (isReconcileOf 0) (since (length (log before)) (log (snd out))) = 2.
Proof.
  destruct (two_setState_calls_queue_two_updates (interp 6) Demo.mountedCounter 0
              {| c_behaviour := BUser Demo.CounterId; c_props := [];
                 c_state := [("count", JNum 0)]; c_domElement := Some 1;
                 c_prevVNode := Some (RChild (ChildNode
                   (createElement (TTag "div") (Some [("title", JNum 0)]) [])));
                 c_isMounted := true; c_errorBoundary := None; c_contexts := [];
                 c_hooks := None; c_unsubscribe := None |}
              [("count", JNum 1)] [("count", JNum 2)] JUndefined JUndefined
              eq_refl eq_refl) as (Hqueued & _ & Hrun).
  split; [reflexivity|]. split; [rewrite Hqueued; reflexivity|].
  unfold Demo.twoSetStates. rewrite Hrun.
  vm_compute. repeat split; reflexivity.
Defined.

(** ** The child diff *)

(** The keyed list [a, b, c] of the examples patched to [c, a, b]: the
    patch succeeds and creates no node, but the live children are the same
    nodes in the same order as before, still labelled [a, b, c]. The order
    that matches the new description would be nodes 4, 2, 3. *)
Example keyed_list_patch_leaves_heap_unchanged :
  let before := Demo.listWorld in
  let out := Reconciler.updateDOMElement (interp 6) (Some 1)
               (RChild (ChildNode Demo.listABC)) (RChild (ChildNode Demo.listCAB))
               before in
  childNodes <$> nodes before !! 1 = Some [2; 3; 4]
  /\ attributes <$> nodes before !! 2 = Some [("id", "a")]
  /\ attributes <$> nodes before !! 3 = Some [("id", "b")]
  /\ attributes <$> nodes before !! 4 = Some [("id", "c")]
  /\ map Reconciler.keyOf (vchildren Demo.listCAB)
     = [Some (JStr "c"); Some (JStr "a"); Some (JStr "b")]
  /\ fst out = Ok tt
  /\ length (nodes (snd out)) = length (nodes before)
  /\ childNodes <$> nodes (snd out) !! 1 = Some [2; 3; 4]
  /\ childNodes <$> nodes (snd out) !! 1 <> Some [4; 2; 3]
  /\ nodes (snd out) = nodes before.
Proof. vm_compute. repeat split; try reflexivity. discriminate. Qed.

(** ** Patching a childless node of the same kind *)

Lemma attrsOnly_refl (d : NodeId) (w : World) : attrsOnly d w w.
Proof.
  split; [reflexivity|]. split; [reflexivity|].
  intros n Hn. exists n. auto.
Qed.

Lemma attrsOnly_trans (d : NodeId) (w1 w2 w3 : World) :
  attrsOnly d w1 w2 -> attrsOnly d w2 w3 -> attrsOnly d w1 w3.
Proof.
  intros (Hl1 & Ho1 & Hd1) (Hl2 & Ho2 & Hd2). split; [congruence|]. split.
  - intros i Hi. rewrite Ho2, Ho1 by exact Hi. reflexivity.
  - intros n Hn. destruct (Hd1 n Hn) as (n1 & Hn1 & Hk1 & Hli1 & Hc1 & Hp1).
    destruct (Hd2 n1 Hn1) as (n2 & Hn2 & Hk2 & Hli2 & Hc2 & Hp2).
    exists n2. repeat split; congruence.
Qed.

Lemma attrsOnly_with_attributes (d : NodeId) (w : World)
    (f : list (string * string) -> list (string * string)) :
  attrsOnly d w (set_nodes (alter (Document.with_attributes f) d) w).
Proof.
  split; [apply length_alter|]. split.
  - intros i Hi. cbn [nodes set_nodes]. apply list_lookup_alter_ne. congruence.
  - intros n Hn. cbn [nodes set_nodes]. rewrite list_lookup_alter_eq, Hn.
    eexists. split; [reflexivity|]. auto.
Qed.

Lemma attrsOnly_set_delegator (d : NodeId) (w : World)
    (f : EventDelegatorState -> EventDelegatorState) :
  attrsOnly d w (set_delegator f w).
Proof. exact (attrsOnly_refl d w). Qed.

Lemma attrStep_ret (d : NodeId) : attrStep d (ret tt).
Proof. intros w n _ _. exists w. split; [reflexivity | apply attrsOnly_refl]. Qed.

Lemma isElement_kind (n n' : DomNode) :
  nodeKind n' = nodeKind n -> Document.isElement n' = Document.isElement n.
Proof. unfold Document.isElement. intros ->. reflexivity. Qed.

Lemma attrStep_seq (d : NodeId) (m1 m2 : M unit) :
  attrStep d m1 -> attrStep d m2 -> attrStep d (m1 ;; m2).
Proof.
  intros H1 H2 w n Hn He.
  destruct (H1 w n Hn He) as (w1 & Hm1 & Hf1).
  destruct Hf1 as (Hl & Ho & Hd). destruct (Hd n Hn) as (n1 & Hn1 & Hk & _).
  destruct (H2 w1 n1 Hn1) as (w2 & Hm2 & Hf2).
  { rewrite (isElement_kind _ _ Hk). exact He. }
  exists w2. split.
  - rewrite (bind_ok _ _ _ _ _ Hm1). exact Hm2.
  - eapply attrsOnly_trans; [|exact Hf2]. split; [exact Hl|]. split; assumption.
Qed.

Lemma attrStep_forEach {A} (d : NodeId) (f : A -> M unit) (l : list A) :
  (forall x, attrStep d (f x)) -> attrStep d (forEach f l).
Proof.
  intros Hf. induction l as [| x l IH]; simpl.
  - apply attrStep_ret.
  - apply attrStep_seq; [apply Hf | exact IH].
Qed.

Lemma attrStep_setAttribute (d : NodeId) (name value : string) :
  attrStep d (Document.setAttribute d name value).
Proof.
  intros w n Hn He. unfold Document.setAttribute, Document.getNode.
  rewrite bind_assoc, bind_gets, Hn, bind_ret_l, He.
  eexists. split; [reflexivity|]. apply attrsOnly_with_attributes.
Qed.

Lemma attrStep_removeAttribute (d : NodeId) (name : string) :
  attrStep d (Document.removeAttribute d name).
Proof.
  intros w n Hn He. unfold Document.removeAttribute, Document.getNode.
  rewrite bind_assoc, bind_gets, Hn, bind_ret_l, He.
  eexists. split; [reflexivity|]. apply attrsOnly_with_attributes.
Qed.

Lemma attrStep_updateProps (d : NodeId) (oldProps newProps : Props) :
  attrStep d (Reconciler.updateProps (Some d) oldProps newProps).
Proof.
  unfold Reconciler.updateProps. apply attrStep_seq; apply attrStep_forEach.
  - intros name. destruct (negb (Obj.has name newProps)); [| apply attrStep_ret].
    destruct (Reconciler.isEventProp name).
    + intros w n _ _. eexists. split; [reflexivity|]. apply attrsOnly_set_delegator.
    + cbn [Document.receiver]. intros w n Hn He. rewrite bind_ret_l.
      exact (attrStep_removeAttribute d name w n Hn He).
  - intros [name value]. destruct (strict_neq _ _); [| apply attrStep_ret].
    destruct (Reconciler.isEventProp name).
    + intros w n _ _. eexists. split; [reflexivity|]. apply attrsOnly_set_delegator.
    + cbn [Document.receiver]. intros w n Hn He. rewrite bind_ret_l.
      exact (attrStep_setAttribute d name _ w n Hn He).
Qed.

(** Trimming removes children of [d] only. *)





(** ** The child diff on a keyed rotation *)

Lemma same_value_zero_refl (k : JsVal) : same_value_zero k k = true.
Proof.
  destruct k; simpl; try reflexivity;
    try (apply bool_decide_eq_true_2; reflexivity).
  apply Z.eqb_refl.
Qed.

Lemma set_nodes_same (w : World) (g : list DomNode -> list DomNode) :
  g (nodes w) = nodes w -> set_nodes g w = w.
Proof. intros H. unfold set_nodes. rewrite H. destruct w; reflexivity. Qed.

Lemma with_parentNode_back (n : DomNode) (p : option NodeId) :
  Document.with_parentNode (parentNode n) (Document.with_parentNode p n) = n.
Proof. destruct n; reflexivity. Qed.

Lemma with_childNodes_back (n : DomNode) (f g : list NodeId -> list NodeId) :
  g (f (childNodes n)) = childNodes n ->
  Document.with_childNodes g (Document.with_childNodes f n) = n.
Proof.
  destruct n. unfold Document.with_childNodes. cbn. intros ->. reflexivity.
Qed.

(** Moving a child in front of the sibling that already follows it changes
    nothing. *)
Lemma insertBefore_next_sibling_noop
    (w : World) (d x y : NodeId) (nd nx : DomNode) :
  nodes w !! d = Some nd ->
  Document.isElement nd = true ->
  nodes w !! x = Some nx ->
  parentNode nx = Some d ->
  x <> d -> x <> y -> y ∈ childNodes nd ->
  Document.insert_before x (Some y) (Document.remove_id x (childNodes nd))
  = childNodes nd ->
  Document.insertBefore d (Some x) (Some y) w = (Ok tt, w).
Proof.
  intros Hd He Hx Hp Hxd Hxy Hy Hlist.
  unfold Document.insertBefore, Document.getNode.
  rewrite bind_assoc, bind_gets, Hd, bind_ret_l, He. cbn [negb].
  rewrite bool_decide_eq_true_2 by exact Hy. cbn [negb].
  rewrite bool_decide_eq_false_2 by congruence.
  unfold Document.detach, Document.getNode.
  rewrite !bind_assoc, bind_gets, Hx, bind_ret_l, Hp.
  unfold Document.update. rewrite !bind_assoc, !bind_modify. unfold modify.
  f_equal.
  repeat match goal with
         | |- context [set_nodes ?f (set_nodes ?g ?w0)] =>
             change (set_nodes f (set_nodes g w0))
               with (set_nodes (fun l => f (g l)) w0)
         end.
  apply set_nodes_same. apply list_eq. intros i.
  destruct (decide (i = x)) as [-> | Hix].
  - rewrite list_lookup_alter_eq.
    rewrite list_lookup_alter_ne by congruence.
    rewrite list_lookup_alter_eq.
    rewrite list_lookup_alter_ne by congruence.
    rewrite Hx. cbn. f_equal. rewrite <- Hp. apply with_parentNode_back.
  - rewrite list_lookup_alter_ne by congruence.
    destruct (decide (i = d)) as [-> | Hid].
    + rewrite list_lookup_alter_eq.
      rewrite list_lookup_alter_ne by congruence.
      rewrite list_lookup_alter_eq, Hd. cbn. f_equal.
      apply with_childNodes_back. exact Hlist.
    + rewrite !list_lookup_alter_ne by congruence. reflexivity.
Qed.

(** Patching one of the three items with a childless description of one
    kind keeps the triple as it is. *)
Lemma patch_childless_attrsOnly
    (rec : Interp) (w : World) (x : NodeId) (nx : DomNode) (v v' : VNode) :
  nodes w !! x = Some nx ->
  Document.isElement nx = true ->
  childNodes nx = [] ->
  vtype v = vtype v' -> vchildren v = [] -> vchildren v' = [] ->
  exists w',
    Reconciler.updateDOMElement rec (Some x) (RChild (ChildNode v)) (RChild (ChildNode v')) w
    = (Ok tt, w')
    /\ attrsOnly x w w'.
Proof.
  intros Hnx Hxe Hxc Htype Hv Hv'.
  destruct (attrStep_updateProps x (vprops v) (vprops v') w nx Hnx Hxe)
    as (w1 & Hprops & Hattrs).
  exists w1. split; [| exact Hattrs].
  destruct Hattrs as (_ & _ & Hsame).
  destruct (Hsame nx Hnx) as (n1 & Hn1 & _ & _ & Hc1 & _).
  unfold Reconciler.updateDOMElement. cbn [Reconciler.typeOf]. mstep.
  rewrite Htype, bool_decide_eq_false_2 by (intros H; apply H; reflexivity).
  rewrite (bind_ok _ _ _ _ _ Hprops).
  unfold Reconciler.updateChildren. rewrite Hv, Hv'.
  cbn [Reconciler.collectKeyed Reconciler.updateChildren_loop Document.receiver length].
  unfold Document.childCount, Document.getNode. mstep.
  rewrite Hn1. mstep. rewrite Hc1, Hxc. reflexivity.
Qed.

(** Patching one of the three items with a childless description of one
    kind keeps the triple as it is. *)
Lemma liveTriple_patch_item
    (rec : Interp) (w : World) (d a b c x : NodeId) (v v' : VNode) :
  liveTriple d a b c w -> x ∈ [a; b; c] ->
  vtype v = vtype v' -> vchildren v = [] -> vchildren v' = [] ->
  exists w',
    Reconciler.updateDOMElement rec (Some x) (RChild (ChildNode v)) (RChild (ChildNode v')) w
    = (Ok tt, w')
    /\ length (nodes w') = length (nodes w)
    /\ liveTriple d a b c w'.
Proof.
  intros [Hnd (nd & Hd & Hde & Hdc) Hitems] Hx Htype Hv Hv'.
  destruct (Hitems x Hx) as (nx & Hnx & Hxe & Hxc & Hxp).
  destruct (patch_childless_attrsOnly rec w x nx v v' Hnx Hxe Hxc Htype Hv Hv')
    as (w' & Hrun & Hlen & Hother & Hsame).
  destruct (Hsame nx Hnx) as (nx' & Hnx' & Hk & _ & Hxc' & Hxp').
  assert (Hdx : d <> x).
  { intros ->. apply NoDup_cons in Hnd as [Hnotin _]. contradiction. }
  exists w'. split; [exact Hrun|]. split; [exact Hlen|].
  split; [exact Hnd | |].
  - exists nd. rewrite Hother by exact Hdx. auto.
  - intros z Hz. destruct (decide (z = x)) as [-> | Hzx].
    + exists nx'. split; [exact Hnx'|].
      split; [rewrite (isElement_kind _ _ Hk); exact Hxe|].
      split; [congruence|]. congruence.
    + rewrite Hother by exact Hzx. apply Hitems. exact Hz.
Qed.

(** C2. For a live list whose children are three childless elements
    [a], [b], [c] and keyed childless descriptions [A], [B], [C] with
    distinct keys, patching the children [A, B, C] to [C, A, B] succeeds
    and creates no node, but leaves the live children in the order
    [a, b, c]: each move re-inserts a node in front of the sibling that
    already follows it. The live nodes are kept; they are not reordered to
    [c, a, b]. *)
Theorem keyed_rotation_keeps_live_order
    (fuel : nat) (w : World) (d a b c : NodeId) (A B C : VNode) :
  liveTriple d a b c w ->
  vchildren A = [] -> vchildren B = [] -> vchildren C = [] ->
  not_nullish (vkey A) = true ->
  not_nullish (vkey B) = true ->
  not_nullish (vkey C) = true ->
  same_value_zero (vkey A) (vkey B) = false ->
  same_value_zero (vkey A) (vkey C) = false ->
  same_value_zero (vkey B) (vkey C) = false ->
  exists w',
    Reconciler.updateChildren (interp (S fuel)) (Some d)
      [ChildNode A; ChildNode B; ChildNode C]
      [ChildNode C; ChildNode A; ChildNode B] w = (Ok tt, w')
    /\ length (nodes w') = length (nodes w)
    /\ childNodes <$> nodes w' !! d = Some [a; b; c]
    /\ childNodes <$> nodes w' !! d <> Some [c; a; b].
Proof.
  intros Hlive HA HB HC HkA HkB HkC HAB HAC HBC.
  assert (Hdist := lt_distinct _ _ _ _ _ Hlive).
  assert (Hab : a <> b /\ a <> c /\ b <> c /\ a <> d /\ b <> d /\ c <> d).
  { apply NoDup_cons in Hdist as [Hd Hdist].
    apply NoDup_cons in Hdist as [Ha Hdist].
    apply NoDup_cons in Hdist as [Hb _].
    repeat split; intros ->; set_solver. }
  destruct Hab as (Hab & Hac & Hbc & Had & Hbd & Hcd).
  (* the three item patches, applied to the nodes at positions 0, 1, 2 *)
  destruct (liveTriple_patch_item (interp fuel) w d a b c a C C Hlive)
    as (w1 & Hrun1 & Hlen1 & Hlive1); [set_solver | reflexivity | exact HC | exact HC |].
  destruct (liveTriple_patch_item (interp fuel) w1 d a b c b A A Hlive1)
    as (w2 & Hrun2 & Hlen2 & Hlive2); [set_solver | reflexivity | exact HA | exact HA |].
  destruct (liveTriple_patch_item (interp fuel) w2 d a b c c B B Hlive2)
    as (w3 & Hrun3 & Hlen3 & Hlive3); [set_solver | reflexivity | exact HB | exact HB |].
  destruct (lt_list _ _ _ _ _ Hlive) as (nd & Hd & Hde & Hdc).
  destruct (lt_list _ _ _ _ _ Hlive1) as (nd1 & Hd1 & Hde1 & Hdc1).
  destruct (lt_list _ _ _ _ _ Hlive2) as (nd2 & Hd2 & Hde2 & Hdc2).
  destruct (lt_list _ _ _ _ _ Hlive3) as (nd3 & Hd3 & Hde3 & Hdc3).
  destruct (lt_item _ _ _ _ _ Hlive1 a) as (na1 & Hna1 & _ & _ & Hpa1); [set_solver|].
  destruct (lt_item _ _ _ _ _ Hlive2 b) as (nb2 & Hnb2 & _ & _ & Hpb2); [set_solver|].
  (* the two moves put a node in front of its own next sibling *)
  assert (Hmove1 : Document.insertBefore d (Some a) (Some b) w1 = (Ok tt, w1)).
  { apply (insertBefore_next_sibling_noop w1 d a b nd1 na1); try assumption.
    - rewrite Hdc1. set_solver.
    - rewrite Hdc1. unfold Document.remove_id. cbn.
      repeat case_decide; try congruence. cbn.
      repeat case_bool_decide; congruence. }
  assert (Hmove2 : Document.insertBefore d (Some b) (Some c) w2 = (Ok tt, w2)).
  { apply (insertBefore_next_sibling_noop w2 d b c nd2 nb2); try assumption.
    - rewrite Hdc2. set_solver.
    - rewrite Hdc2. unfold Document.remove_id. cbn.
      repeat case_decide; try congruence. cbn.
      repeat case_bool_decide; congruence. }
  (* the key table *)
  assert (Hkeyed : Reconciler.collectKeyed 0 [ChildNode A; ChildNode B; ChildNode C] []
                   = [(vkey A, (ChildNode A, 0)); (vkey B, (ChildNode B, 1));
                      (vkey C, (ChildNode C, 2))]).
  { cbn [Reconciler.collectKeyed Reconciler.keyOf]. rewrite HkA, HkB, HkC.
    cbn [Reconciler.keyed_set]. rewrite HAB. cbn [Reconciler.keyed_set].
    rewrite HAC, HBC. reflexivity. }
  exists w3. split; [| split; [congruence|]].
  2: { rewrite Hd3. cbn. rewrite Hdc3. split; [reflexivity | congruence]. }
  unfold Reconciler.updateChildren. rewrite Hkeyed.
  cbn [Reconciler.updateChildren_loop length].
  change (i_updateDOMElement (interp (S fuel)))
    with (Reconciler.updateDOMElement (interp fuel)).
  (* first new child: C, found at old index 2, nothing moves *)
  unfold Reconciler.updateChild at 1. unfold Reconciler.pairOld.
  cbn [Reconciler.keyOf]. rewrite HkC. cbn [Reconciler.keyed_get].
  rewrite HAC, HBC, same_value_zero_refl.
  cbn [Reconciler.child_truthy default Reconciler.isText Document.receiver].
  rewrite bool_decide_eq_false_2 by (cbn; lia).
  unfold Document.childAt at 1, Document.getNode.
  mstep. rewrite Hd. mstep. rewrite Hdc. cbn [lookup list_lookup].
  rewrite (bind_ok _ _ _ _ _ Hrun1). mstep.
  (* second new child: A, old index 0 < 2, moved in front of the node at 1 *)
  unfold Reconciler.updateChild at 1. unfold Reconciler.pairOld.
  cbn [Reconciler.keyOf]. rewrite HkA. cbn [Reconciler.keyed_get].
  rewrite same_value_zero_refl.
  cbn [Reconciler.child_truthy default Reconciler.isText Document.receiver].
  rewrite bool_decide_eq_true_2 by (cbn; lia).
  unfold Document.childAt at 1 2 3, Document.getNode.
  mstep. rewrite Hd1. mstep. rewrite Hd1. mstep. rewrite Hdc1. cbn [lookup list_lookup].
  rewrite (bind_ok _ _ _ _ _ Hmove1). mstep. rewrite Hd1. mstep.
  rewrite Hdc1. cbn [lookup list_lookup].
  rewrite (bind_ok _ _ _ _ _ Hrun2). mstep.
  (* third new child: B, old index 1 < 2, moved in front of the node at 2 *)
  unfold Reconciler.updateChild at 1. unfold Reconciler.pairOld.
  cbn [Reconciler.keyOf]. rewrite HkB. cbn [Reconciler.keyed_get].
  rewrite HAB, same_value_zero_refl.
  cbn [Reconciler.child_truthy default Reconciler.isText Document.receiver].
  rewrite bool_decide_eq_true_2 by (cbn; lia).
  unfold Document.childAt at 1 2 3, Document.getNode.
  mstep. rewrite Hd2. mstep. rewrite Hd2. mstep. rewrite Hdc2. cbn [lookup list_lookup].
  rewrite (bind_ok _ _ _ _ _ Hmove2). mstep. rewrite Hd2. mstep.
  rewrite Hdc2. cbn [lookup list_lookup].
  rewrite (bind_ok _ _ _ _ _ Hrun3). mstep.
  (* nothing to trim *)
  unfold Document.childCount, Document.getNode.
  mstep. rewrite Hd3. mstep. rewrite Hdc3.
  cbn [length Reconciler.trim]. unfold Document.getNode.
  mstep. rewrite Hd3. mstep. rewrite Hdc3.
  rewrite bool_decide_eq_false_2 by (simpl; lia).
  reflexivity.
Qed.

Lemma keyed_rotation_keeps_live_order_witness :
  exists w',
    Reconciler.updateChildren (interp 6) (Some 1)
      (vchildren Demo.listABC) (vchildren Demo.listCAB) Demo.listWorld = (Ok tt, w')
    /\ childNodes <$> nodes w' !! 1 = Some [2; 3; 4].
Proof.
  destruct (keyed_rotation_keeps_live_order 5 Demo.listWorld 1 2 3 4
              (createElement (TTag "li") (Some [("key", JStr "a"); ("id", JStr "a")]) [])
              (createElement (TTag "li") (Some [("key", JStr "b"); ("id", JStr "b")]) [])
              (createElement (TTag "li") (Some [("key", JStr "c"); ("id", JStr "c")]) []))
    as (w' & Hrun & _ & Horder & _); try reflexivity.
  - split.
    + apply (bool_decide_unpack _). vm_compute. exact I.
    + eexists. split; [reflexivity|]. split; reflexivity.
    + intros x Hx.
      rewrite !elem_of_cons, elem_of_nil in Hx.
      destruct Hx as [-> | [-> | [-> | []]]];
        (eexists; split; [reflexivity|]; repeat split; reflexivity).
  - exists w'. split; [exact Hrun | exact Horder].
Defined.

(** ** The hooks runtime *)

Lemma some_differs_spec (deps old : list JsVal) (i : nat) :
  Hooks.some_differs i deps old = true <->
  exists j x, deps !! j = Some x
              /\ strict_neq x (default JUndefined (old !! (i + j))) = true.
Proof.
  revert i. induction deps as [| dep deps IH]; intros i; simpl.
  - split; [discriminate|]. intros (j & x & Hj & _). destruct j; discriminate.
  - rewrite orb_true_iff, IH. split.
    + intros [H | (j & x & Hj & Hx)].
      * exists 0, dep. rewrite Nat.add_0_r. auto.
      * exists (S j), x. rewrite Nat.add_succ_r. auto.
    + intros (j & x & Hj & Hx). destruct j as [| j].
      * left. simpl in Hj. injection Hj as <-. rewrite Nat.add_0_r in Hx. exact Hx.
      * right. exists j, x. rewrite Nat.add_succ_r in Hx. auto.
Qed.

Lemma depsChanged_spec (stored : option (list JsVal)) (deps : list JsVal) :
  Hooks.depsChanged stored deps = true <-> depsDiffer stored deps.
Proof.
  destruct stored as [old |]; simpl; [| tauto].
  rewrite orb_true_iff, negb_true_iff, bool_decide_eq_false, some_differs_spec.
  split.
  - intros [H | (j & x & Hj & Hx)]; [left; exact H|].
    destruct (decide (length deps = length old)) as [Hlen | Hlen]; [| left; exact Hlen].
    right. simpl in Hx.
    destruct (old !! j) as [y |] eqn:Hy.
    + exists j, x, y. auto.
    + apply lookup_lt_Some in Hj. apply lookup_ge_None in Hy. lia.
  - intros [H | (j & x & y & Hj & Hy & Hx)]; [left; exact H|].
    right. exists j, x. simpl. rewrite Hy. auto.
Qed.

Lemma effectDue_spec (stored deps : option (list JsVal)) :
  Hooks.effectDue stored deps = true <->
  deps = None \/ exists d, deps = Some d /\ depsDiffer stored d.
Proof.
  unfold Hooks.effectDue. destruct deps as [d |]; simpl.
  - rewrite depsChanged_spec. split.
    + intros H. right. exists d. auto.
    + intros [H | (d' & Hd & H)]; [discriminate|]. injection Hd as <-. exact H.
  - split; auto.
Qed.

Lemma with_hooks_id (o : ComponentObj) : Component.with_hooks (c_hooks o) o = o.
Proof. destruct o; reflexivity. Qed.

Lemma set_comps_id (w : World) : set_comps (fun l => l) w = w.
Proof. destruct w; reflexivity. Qed.

Lemma storeSlot_seeded (w : World) (c : CompId) (o : ComponentObj) (i : nat) (h : HookId) :
  comps w !! c = Some o -> Hooks.slot o i = Some h ->
  Hooks.storeSlot c i h w = (Ok tt, w).
Proof.
  intros Hc Hslot. unfold Hooks.storeSlot, Component.update, modify. f_equal.
  assert (Hal : alter (fun o0 => Component.with_hooks (Hooks.array_set i h <$> c_hooks o0) o0) c (comps w) = comps w).
  { apply list_eq. intros j. destruct (decide (j = c)) as [-> | Hne].
    - rewrite list_lookup_alter_eq. rewrite Hc. simpl. f_equal.
      unfold Hooks.slot in Hslot. destruct (c_hooks o) as [arr |] eqn:Harr; [| discriminate].
      simpl. destruct (arr !! i) as [[h' |] |] eqn:Hi; simpl in Hslot; try discriminate.
      injection Hslot as ->.
      unfold Hooks.array_set. rewrite bool_decide_eq_true_2 by (eapply lookup_lt_Some; eauto).
      rewrite list_insert_id by exact Hi. rewrite <- Harr. apply with_hooks_id.
    - rewrite list_lookup_alter_ne by congruence. reflexivity. }
  unfold set_comps. rewrite Hal. destruct w; reflexivity.
Qed.

Lemma nextHookIndex_eq (w : World) :
  Hooks.nextHookIndex w
  = (Ok (currentHookIndex (hooksMod w)), snd (Hooks.nextHookIndex w)).
Proof. reflexivity. Qed.

(** C4. A [useEffect] call on a seeded slot runs the effect exactly when
    no dependency list is supplied or the supplied list differs from the
    stored one (none stored, another length, or an unequal element). When
    the effect is not due, the call only advances the slot cursor. When it
    is due, the stored cleanup (if truthy) is called first, the effect is
    called in the world the cleanup leaves, and the value the effect
    returns is stored as the slot's cleanup, with the new list. *)
Theorem useEffect_reruns_iff_deps_differ
    (rec : Interp) (w : World) (c : CompId) (o : ComponentObj)
    (h : HookId) (hk : Hook) (effect : JsVal) (deps : option (list JsVal)) :
  currentComponent (hooksMod w) = Some c ->
  comps w !! c = Some o ->
  Hooks.slot o (currentHookIndex (hooksMod w)) = Some h ->
  hookObjs w !! h = Some hk ->
  let w1 := snd (Hooks.nextHookIndex w) in
  let runCleanup : M unit :=
    if truthy (h_cleanup hk) then call rec (h_cleanup hk) [] ;; ret tt else ret tt in
  (Hooks.effectDue (h_deps hk) deps = true <->
   deps = None \/ exists d, deps = Some d /\ depsDiffer (h_deps hk) d)
  /\ (Hooks.effectDue (h_deps hk) deps = false ->
      Hooks.useEffect rec effect deps w = (Ok tt, w1))
  /\ (Hooks.effectDue (h_deps hk) deps = true ->
      forall w2 cleanup w3,
        runCleanup w1 = (Ok tt, w2) ->
        call rec effect [] w2 = (Ok cleanup, w3) ->
        exists w4,
          Hooks.useEffect rec effect deps w = (Ok tt, w4)
          /\ hookObjs w4
             = alter (Hooks.with_deps deps) h
                 (alter (Hooks.with_cleanup cleanup) h (hookObjs w3))
          /\ log w4 = log w3).
Proof.
  intros Hcur Hc Hslot Hh w1 runCleanup.
  split; [apply effectDue_spec|].
  assert (Hprefix : forall k : HookId -> M unit,
    Hooks.useEffect rec effect deps w
    = ((if Hooks.effectDue (h_deps hk) deps
        then (runCleanup ;;
              cleanup <- call rec effect [] ;;
              Hooks.updateHook h (Hooks.with_cleanup cleanup) ;;
              Hooks.updateHook h (Hooks.with_deps deps))
        else ret tt) ;;
       Hooks.storeSlot c (currentHookIndex (hooksMod w)) h) w1).
  { intros _. unfold Hooks.useEffect.
    rewrite bind_gets, Hcur.
    unfold Component.get. rewrite bind_assoc, bind_gets, Hc, bind_ret_l.
    rewrite (bind_ok _ _ _ _ _ (nextHookIndex_eq w)). fold w1.
    rewrite Hslot, bind_ret_l.
    unfold Hooks.getHook. rewrite bind_assoc, bind_gets.
    change (hookObjs w1) with (hookObjs w). rewrite Hh, bind_ret_l.
    reflexivity. }
  specialize (Hprefix (fun _ => ret tt)).
  split.
  - intros Hdue. rewrite Hprefix, Hdue, bind_ret_l.
    apply (storeSlot_seeded w1 c o); assumption.
  - intros Hdue w2 cleanup w3 Hcl Heff. rewrite Hprefix, Hdue.
    rewrite bind_assoc, (bind_ok _ _ _ _ _ Hcl).
    rewrite bind_assoc, (bind_ok _ _ _ _ _ Heff).
    unfold Hooks.updateHook. rewrite bind_assoc, bind_modify, bind_modify.
    unfold Hooks.storeSlot, Component.update, modify.
    eexists. split; [reflexivity|]. split; reflexivity.
Qed.

Lemma useEffect_reruns_iff_deps_differ_witness :
  exists w4,
    Hooks.useEffect (interp 2) (JFun Demo.effectFn) (Some [JNum 2]) Demo.watcherRerender
    = (Ok tt, w4)
    /\ since (length (log Demo.watcherRerender)) (log w4)
       = [EvCall Demo.cleanupFn []; EvUser "cleanup";
          EvCall Demo.effectFn []; EvUser "effect"]
    /\ h_deps <$> hookObjs w4 !! 0 = Some (Some [JNum 2]).
Proof.
  pose proof (useEffect_reruns_iff_deps_differ (interp 2) Demo.watcherRerender 0
           {| c_behaviour := BUser Demo.WatcherId; c_props := []; c_state := [];
              c_domElement := None; c_prevVNode := None; c_isMounted := false;
              c_errorBoundary := None; c_contexts := []; c_hooks := Some [Some 0];
              c_unsubscribe := None |}
           0
           {| h_type := "effect"; h_value := JUndefined;
              h_deps := Some [JNum 1]; h_cleanup := JFun Demo.cleanupFn |}
           (JFun Demo.effectFn) (Some [JNum 2])
           eq_refl eq_refl eq_refl eq_refl) as (_ & _ & Hdue).
  destruct (Hdue eq_refl
              (Demo.after (call (interp 2) (JFun Demo.cleanupFn) [])
                 (snd (Hooks.nextHookIndex Demo.watcherRerender)))
              (JFun Demo.cleanupFn)
              (Demo.after (call (interp 2) (JFun Demo.effectFn) [])
                 (Demo.after (call (interp 2) (JFun Demo.cleanupFn) [])
                    (snd (Hooks.nextHookIndex Demo.watcherRerender))))
              eq_refl eq_refl) as (w4 & Hrun & Hhooks & Hlog).
  exists w4. split; [exact Hrun|]. split.
  - rewrite Hlog. reflexivity.
  - rewrite Hhooks. reflexivity.
Defined.

(** C3. The setter called outside a render pass, where the module-level
    current component is unset (as it is after every completed render): a
    value that differs is stored in the slot, and that is all the call
    does. No [forceUpdate] is issued, nothing is handed to the scheduler
    and nothing is rendered, whatever component owns the slot. *)
Theorem setter_outside_render_schedules_nothing
    (rec : Interp) (w : World) (hook : HookId) (hk : Hook) (newValue : JsVal) :
  currentComponent (hooksMod w) = None ->
  hookObjs w !! hook = Some hk ->
  is_function newValue = false ->
  strict_neq newValue (h_value hk) = true ->
  Hooks.setter rec hook newValue w
  = (Ok tt, set_hookObjs (alter (Hooks.with_value newValue) hook) w).
Proof.
  intros Hcur Hh Hfun Hneq. unfold Hooks.setter, Hooks.getHook.
  rewrite bind_assoc, bind_gets, Hh, bind_ret_l, Hfun, bind_ret_l.
  rewrite bind_assoc, bind_gets, Hh, bind_ret_l, Hneq. cbv iota.
  unfold Hooks.updateHook, bind, modify, gets.
  cbn [hooksMod set_hookObjs]. rewrite Hcur. reflexivity.
Qed.

Lemma render_leaves_no_current_component
    (rec : Interp) (c : CompId) (p : HookProg) (w w' : World) (r : Rendered) :
  FunctionalComponent.render rec c p w = (Ok r, w') ->
  currentComponent (hooksMod w') = None.
Proof.
  unfold FunctionalComponent.render, Hooks.setCurrentComponent. rewrite bind_modify.
  unfold bind at 1.
  destruct (FunctionalComponent.runHookProg rec p _) as [[v | e | ] w1]; try discriminate.
  rewrite bind_modify. unfold ret. intros H. injection H as _ <-. reflexivity.
Qed.

Lemma setter_outside_render_schedules_nothing_witness :
  c_isMounted <$> comps Demo.mountedClicker !! 0 = Some true
  /\ c_hooks <$> comps Demo.mountedClicker !! 0 = Some (Some [Some 0])
  /\ Hooks.setter (interp 6) 0 (JNum 1) Demo.mountedClicker
     = (Ok tt, set_hookObjs (alter (Hooks.with_value (JNum 1)) 0) Demo.mountedClicker).
Proof.
  split; [reflexivity|]. split; [reflexivity|].
  exact (setter_outside_render_schedules_nothing (interp 6) Demo.mountedClicker 0
           {| h_type := "state"; h_value := JNum 0; h_deps := None;
              h_cleanup := JUndefined |}
           (JNum 1) eq_refl eq_refl eq_refl eq_refl).
Defined.

(** Inside the owner's render pass the same setter does schedule it. *)
Lemma setter_inside_render_forces_update
    (rec : Interp) (w : World) (hook : HookId) (hk : Hook) (newValue : JsVal)
    (c : CompId) :
  currentComponent (hooksMod w) = Some c ->
  hookObjs w !! hook = Some hk ->
  is_function newValue = false ->
  strict_neq newValue (h_value hk) = true ->
  Hooks.setter rec hook newValue w
  = Component.forceUpdate rec c JUndefined
      (set_hookObjs (alter (Hooks.with_value newValue) hook) w).
Proof.
  intros Hcur Hh Hfun Hneq. unfold Hooks.setter, Hooks.getHook.
  rewrite bind_assoc, bind_gets, Hh, bind_ret_l, Hfun, bind_ret_l.
  rewrite bind_assoc, bind_gets, Hh, bind_ret_l, Hneq. cbv iota.
  unfold Hooks.updateHook, bind at 1, modify, gets.
  unfold bind at 1. cbn [hooksMod set_hookObjs]. rewrite Hcur. reflexivity.
Qed.

(** An equal value leaves the slot alone and schedules nothing. *)
Lemma setter_equal_value_is_noop
    (rec : Interp) (w : World) (hook : HookId) (hk : Hook) (newValue : JsVal) :
  hookObjs w !! hook = Some hk ->
  is_function newValue = false ->
  strict_neq newValue (h_value hk) = false ->
  Hooks.setter rec hook newValue w = (Ok tt, w).
Proof.
  intros Hh Hfun Hneq. unfold Hooks.setter, Hooks.getHook.
  rewrite bind_assoc, bind_gets, Hh, bind_ret_l, Hfun, bind_ret_l.
  rewrite bind_assoc, bind_gets, Hh, bind_ret_l, Hneq. reflexivity.
Qed.

(** ** Error boundaries *)

Lemma enterBoundary_spec (w : World) (vnode : VNode) (cls : ClassId) :
  cd_kind (classes w cls) = KErrorBoundary ->
  exists o,
    c_behaviour o = BUser cls
    /\ c_errorBoundary o = currentErrorBoundary w
    /\ enterBoundary vnode cls w
       = (Ok (length (comps w)),
          set_currentErrorBoundary (Some (length (comps w)))
            (set_comps (fun _ => comps w ++ [o]) w)).
Proof.
  intros Hkind.
  pose (c := length (comps w)).
  pose (o := match cd_initialState (classes w cls) (vprops vnode) with
             | Some s => Component.with_state s
                 (Component.with_state ErrorBoundary.initialState
                    (Component.construct (BUser cls) (vprops vnode)))
             | None => Component.with_state ErrorBoundary.initialState
                    (Component.construct (BUser cls) (vprops vnode))
             end).
  pose (o' := match currentErrorBoundary w with
              | Some b => Component.with_errorBoundary (Some b) o
              | None => o
              end).
  exists o'. split; [| split].
  - unfold o', o. destruct (currentErrorBoundary w), (cd_initialState _ _); reflexivity.
  - unfold o', o. destruct (currentErrorBoundary w), (cd_initialState _ _); reflexivity.
  - unfold enterBoundary, Reconciler.instantiate.
    rewrite bind_assoc, bind_gets, Hkind.
    unfold Component.alloc at 1. unfold bind at 1. fold c. fold o.
    rewrite bind_gets. cbn [currentErrorBoundary set_comps].
    fold o'.
    unfold o' at 1. destruct (currentErrorBoundary w) as [b |] eqn:Hb.
    + unfold Component.setErrorBoundary, Component.get.
      rewrite !bind_assoc, bind_gets. cbn [comps set_comps].
      assert (Hlook : (comps w ++ [o]) !! c = Some o).
      { unfold c. rewrite lookup_app_r by lia. rewrite Nat.sub_diag. reflexivity. }
      rewrite Hlook, bind_ret_l. unfold Component.update.
      rewrite bind_modify, bind_modify. unfold ret.
      unfold set_comps, set_currentErrorBoundary. cbn.
      unfold c. rewrite alter_app_r_alt by lia. rewrite Nat.sub_diag.
      unfold o'. reflexivity.
    + rewrite bind_ret_l, bind_modify. unfold o'. reflexivity.
Qed.

(** C5, as amended. When the instantiated component is an error boundary,
    it is the current error-boundary pointer in the world in which its
    render and the materialisation of its subtree start, and when these
    complete normally the pointer is reset to none, whatever it was before
    the boundary was entered. *)
Theorem createComponent_boundary_pointer
    (rec : Interp) (w : World) (vnode : VNode) (cls : ClassId) :
  cd_kind (classes w cls) = KErrorBoundary ->
  let c := length (comps w) in
  let w1 := snd (enterBoundary vnode cls w) in
  currentErrorBoundary w1 = Some c
  /\ (forall rendered w2 element w3,
        i_render rec c w1 = (Ok rendered, w2) ->
        i_createDOMElement rec rendered w2 = (Ok element, w3) ->
        Reconciler.createComponent rec vnode cls w
        = (Ok element, set_currentErrorBoundary None w3)
        /\ currentErrorBoundary (snd (Reconciler.createComponent rec vnode cls w))
           = None).
Proof.
  intros Hkind c w1.
  destruct (enterBoundary_spec w vnode cls Hkind) as (o & Hbeh & _ & Henter).
  unfold w1. rewrite Henter. cbn [snd]. split; [reflexivity|].
  intros rendered w2 element w3 Hrender Hcreate.
  assert (Hrun : Reconciler.createComponent rec vnode cls w
                 = (Ok element, set_currentErrorBoundary None w3)).
  { unfold Reconciler.createComponent, tryCatch.
    assert (Hbody :
      (component <- Reconciler.instantiate cls (vprops vnode) ;;
       outer <- gets currentErrorBoundary ;;
       match outer with
       | Some b => Component.setErrorBoundary component b
       | None => ret tt
       end ;;
       isBoundary <- Reconciler.isErrorBoundary component ;;
       when isBoundary (modify (set_currentErrorBoundary (Some component))) ;;
       rendered <- i_render rec component ;;
       element <- i_createDOMElement rec rendered ;;
       when isBoundary (modify (set_currentErrorBoundary None)) ;;
       ret element) w = (Ok element, set_currentErrorBoundary None w3)).
    { revert Henter. unfold enterBoundary, bind.
      destruct (Reconciler.instantiate cls (vprops vnode) w) as [[c0 | e | ] w0];
        try discriminate.
      unfold gets.
      destruct (match currentErrorBoundary w0 with
                | Some b => Component.setErrorBoundary c0 b
                | None => ret tt
                end w0) as [[[] | e | ] w0'] eqn:Hset; try discriminate.
      unfold modify, ret. intros Henter.
      apply pair_equal_spec in Henter as [Hc0 Hw]. injection Hc0 as ->.
      unfold c in *. clear c.
      assert (Hcomps : comps w0' !! length (comps w) = Some o).
      { apply (f_equal comps) in Hw. cbn [comps set_currentErrorBoundary set_comps] in Hw.
        rewrite Hw. rewrite lookup_app_r by lia.
        rewrite Nat.sub_diag. reflexivity. }
      assert (Hcls : classes w0' = classes w).
      { apply (f_equal classes) in Hw. exact Hw. }
      unfold Reconciler.isErrorBoundary, Component.get, bind, gets.
      rewrite Hcomps. unfold ret. rewrite Hbeh, Hcls, Hkind.
      unfold when, modify. rewrite Hw.
      fold (bind (i_render rec (length (comps w))) (fun rendered0 => 
              fun w => match i_createDOMElement rec rendered0 w with
                       | (Ok a, w') => (Ok a, set_currentErrorBoundary None w')
                       | (Throw e, w') => (Throw e, w')
                       | (OutOfFuel, w') => (OutOfFuel, w')
                       end)).
      rewrite Hrender, Hcreate. reflexivity. }
    rewrite Hbody. reflexivity. }
  split; [exact Hrun|]. rewrite Hrun. reflexivity.
Qed.

Lemma createComponent_boundary_pointer_witness :
  Reconciler.createComponent (interp 3) Demo.innerBoundary
    Demo.ErrorBoundaryExampleId Demo.insideOuterBoundary
  = (Ok 1,
     set_currentErrorBoundary None
       (Demo.after (v <- i_render (interp 3) 1 ;; i_createDOMElement (interp 3) v)
          (snd (enterBoundary Demo.innerBoundary Demo.ErrorBoundaryExampleId
                  Demo.insideOuterBoundary)))).
Proof.
  refine (proj1 (proj2 (createComponent_boundary_pointer (interp 3)
           Demo.insideOuterBoundary Demo.innerBoundary Demo.ErrorBoundaryExampleId
           eq_refl)
           (RChild (ChildNode (createElement (TTag "div") None []))) _ 1 _ _ _));
    vm_compute; reflexivity.
Defined.

(** C5, as stated, fails on nested boundaries: an inner boundary
    materialised while an outer one is current leaves no current boundary
    behind, not the outer one. *)
Lemma boundary_pointer_not_restored :
  let before := Demo.insideOuterBoundary in
  let out := Reconciler.createDOMElement (interp 4)
               (RChild (ChildNode Demo.innerBoundary)) before in
  currentErrorBoundary before = Some 0
  /\ fst out = Ok 1
  /\ currentErrorBoundary (snd out) = None
  /\ currentErrorBoundary (snd out) <> currentErrorBoundary before.
Proof. vm_compute. repeat split; try reflexivity. discriminate. Qed.

(** C6. A boundary whose only child throws [e] from its first render,
    materialised outside any batch and any outer boundary: the node
    returned is the materialised fallback render for [e], and the
    boundary's state records [e]; but up to the fallback's own
    materialisation the engine logs three renders (boundary, child,
    boundary) and nothing else, so the did-catch hook the class defines is
    called only as often as materialising the fallback calls it: by the
    engine, never. *)
Theorem boundary_materialises_fallback_without_didCatch
    (fuel : nat) (w w' : World) (vB vC fv : VNode) (clsB clsC : ClassId)
    (o : ObjId) (e : JsVal) (didCatch : FunId) (el : NodeId) (evs : list Event) :
  vtype vB = TClass clsB ->
  Obj.get "children" (vprops vB) = JElem o vC ->
  vtype vC = TClass clsC ->
  cd_kind (classes w clsB) = KErrorBoundary ->
  cd_initialState (classes w clsB) (vprops vB) = None ->
  cd_shouldComponentUpdate (classes w clsB) = None ->
  cd_fallbackRender (classes w clsB) e = Ok fv ->
  cd_componentDidCatch (classes w clsB) = Some didCatch ->
  cd_kind (classes w clsC) = KComponent ->
  cd_render (classes w clsC) (vprops vC)
    (default [] (cd_initialState (classes w clsC) (vprops vC))) = Throw e ->
  currentErrorBoundary w = None ->
  isBatchingUpdates (batch w) = false ->
  let b := length (comps w) in
  let c := S (length (comps w)) in
  let wX := snd (catchChildError vB vC clsB clsC e w) in
  i_createDOMElement (interp (S fuel)) (RChild (ChildNode fv)) wX = (Ok el, w') ->
  log w' = log wX ++ evs ->
  let out := Reconciler.createDOMElement (interp (S (S fuel)))
               (RChild (ChildNode vB)) w in
  out = (Ok el, set_currentErrorBoundary None w')
  /\ nodes wX = nodes w
  /\ c_state <$> comps wX !! b = Some (ErrorBoundary.getDerivedStateFromError e)
  /\ log (snd out) = log w ++ [EvRender b; EvRender c; EvRender b] ++ evs
  /\ count (isCallOf didCatch) (since (length (log w)) (log (snd out)))
     = count (isCallOf didCatch) evs.
Proof.
  intros HtB Hchildren HtC HkB HiB HsB HfB HdB HkC HrC Hptr Hbatch b c wX Hfb Hevs out.
  set (oB := Component.with_state ErrorBoundary.initialState
               (Component.construct (BUser clsB) (vprops vB))).
  set (oC := match cd_initialState (classes w clsC) (vprops vC) with
             | Some s => Component.with_state s
                           (Component.construct (BUser clsC) (vprops vC))
             | None => Component.construct (BUser clsC) (vprops vC)
             end).
  assert (HbC : c_behaviour oC = BUser clsC)
    by (unfold oC; destruct (cd_initialState (classes w clsC) (vprops vC)); reflexivity).
  assert (HpC : c_props oC = vprops vC)
    by (unfold oC; destruct (cd_initialState (classes w clsC) (vprops vC)); reflexivity).
  assert (HsC : c_state oC = default [] (cd_initialState (classes w clsC) (vprops vC)))
    by (unfold oC; destruct (cd_initialState (classes w clsC) (vprops vC)); reflexivity).
  assert (Hlen : c = length (comps w ++ [oB]))
    by (rewrite length_app; cbn [length]; unfold c; lia).
  set (L1 := alter (Component.with_errorBoundary (Some b)) c
               ((comps w ++ [oB]) ++ [oC])).
  assert (Hlk : L1 !! b = Some oB).
  { unfold L1. rewrite list_lookup_alter_ne by (unfold b, c; lia).
    rewrite lookup_app_l by (rewrite length_app; cbn [length]; unfold b; lia).
    apply lookup_snoc. }
  eassert (HwX : catchChildError vB vC clsB clsC e w = (Ok tt, _)).
  { unfold catchChildError, enterBoundary, Reconciler.instantiate. mrun.
    rewrite HkB, HiB. fold oB.
    unfold Component.alloc at 1. unfold bind at 1. fold b. mrun.
    rewrite Hptr. unfold emit. mrun. rewrite HkC. fold oC.
    unfold Component.alloc at 1; unfold bind at 1; mrun.
    rewrite length_app; cbn [length]; rewrite Nat.add_1_r; fold c.
    unfold Component.setErrorBoundary, Component.get, Component.update; mrun.
    rewrite Hlen at 1. rewrite lookup_snoc. mrun.
    fold L1. rewrite Hlk. mrun.
    unfold BatchUpdate.newClosure at 1. unfold bind at 1. mrun.
    reflexivity. }
  unfold wX in *. clear wX. rewrite HwX in *. cbn [snd] in *. clear HwX.
  assert (Hout : out = (Ok el, set_currentErrorBoundary None w')).
  { unfold out. unfold Reconciler.createDOMElement at 1. rewrite HtB.
    unfold Reconciler.createComponent at 1, tryCatch.
    match goal with |- context [?body w] =>
      match body with bind (Reconciler.instantiate _ _) _ =>
        assert (Hbody : body w = (Ok el, set_currentErrorBoundary None w'));
        [| rewrite Hbody; reflexivity]
      end
    end.
    unfold Reconciler.instantiate. mrun. rewrite HkB, HiB. fold oB.
    unfold Component.alloc at 1. unfold bind at 1. fold b. mrun.
    rewrite Hptr. mrun.
    unfold Reconciler.isErrorBoundary, Component.get. mrun.
    unfold b at 1. rewrite lookup_snoc. mrun.
    cbn [c_behaviour Component.with_state oB Component.construct].
    mrun. rewrite HkB. mrun. unfold when. mrun.
    (* the boundary renders its children *)
    change (i_render (interp (S (S fuel)))) with (Dispatch.render (interp (S fuel))).
    unfold Dispatch.render at 1, emit, Component.get. mrun.
    unfold b at 1. rewrite lookup_snoc. mrun.
    cbn [c_behaviour Component.with_state oB Component.construct].
    mrun. rewrite HkB.
    unfold ErrorBoundary.render at 1, Component.get. mrun.
    unfold b at 1. rewrite lookup_snoc. mrun.
    cbn [c_state c_props Component.with_state oB Component.construct].
    change (truthy (Obj.get "hasError" ErrorBoundary.initialState)) with false.
    cbv iota. mrun. rewrite Hchildren. cbn [asRendered].
    (* the child is materialised and throws *)
    change (i_createDOMElement (interp (S (S fuel))))
      with (Reconciler.createDOMElement (interp (S fuel))).
    unfold Reconciler.createDOMElement at 1. rewrite HtC.
    unfold Reconciler.createComponent at 1.
    match goal with |- (bind (tryCatch ?body ?h) ?k) ?w1 = _ =>
      eassert (Hbody : body w1 = (Throw e, _))
    end.
    { unfold Reconciler.instantiate. mrun. rewrite HkC. fold oC.
      unfold Component.alloc at 1; unfold bind at 1; mrun.
      rewrite length_app; cbn [length]; rewrite Nat.add_1_r; fold c.
      unfold Component.setErrorBoundary, Component.get, Component.update; mrun.
      rewrite Hlen at 1. rewrite lookup_snoc. mrun.
      unfold Reconciler.isErrorBoundary, Component.get. mrun.
      rewrite Hlen at 1 2. rewrite alter_snoc, lookup_snoc. mrun.
      cbn [c_behaviour Component.with_errorBoundary]. rewrite HbC. mrun.
      rewrite HkC. unfold when. mrun.
      change (i_render (interp (S fuel))) with (Dispatch.render (interp fuel)).
      unfold Dispatch.render at 1, emit, Component.get. mrun.
      rewrite Hlen at 1 2. rewrite alter_snoc, lookup_snoc. mrun.
      cbn [c_behaviour c_props c_state Component.with_errorBoundary].
      rewrite HbC. mrun. rewrite HkC, HpC, HsC, HrC.
      reflexivity. }
    rewrite (bind_tryCatch_throw _ _ _ _ _ _ Hbody). clear Hbody.
    (* the error is handed to the boundary *)
    mrun. rewrite bool_decide_eq_true_2 by eauto.
    unfold Reconciler.handleErrorInBoundary. mrun.
    unfold Component.setState, Component.get, Component.update. mrun.
    fold L1. rewrite Hlk. mrun.
    unfold BatchUpdate.newClosure at 1. unfold bind at 1. mrun.
    unfold BatchUpdate.scheduleUpdate. mrun. rewrite Hbatch.
    unfold BatchUpdate.runImmediate.
    match goal with |- (bind (tryCatch ?body ?h) ?k) ?w1 = _ =>
      eassert (Hbody : body w1 = (Ok tt, _))
    end.
    { cbn [closureCode].
      change (i_runCallback (interp (S fuel))) with (Dispatch.runCallback (interp fuel)).
      unfold Dispatch.runCallback, Dispatch.shouldComponentUpdate, Component.get.
      mrun. fold L1. rewrite list_lookup_alter_eq, Hlk.
      cbn [fmap option_fmap option_map]. mrun.
      cbn [c_behaviour Component.with_state oB Component.construct]. mrun.
      rewrite HsB. mrun.
      change (strict_neq (JBool true) (JBool false)) with true.
      unfold when, Component.updateComponent, Component.get. mrun.
      fold L1. rewrite list_lookup_alter_eq, Hlk.
      cbn [fmap option_fmap option_map]. mrun.
      cbn [c_domElement Component.with_state oB Component.construct].
      rewrite bool_decide_eq_false_2 by (intros [? ?]; discriminate).
      cbn [andb]. mrun. reflexivity. }
    rewrite (bind_tryCatch_ok _ _ _ _ _ _ Hbody). clear Hbody. mrun.
    (* the boundary renders again: the fallback *)
    change (i_render (interp (S fuel))) with (Dispatch.render (interp fuel)).
    unfold Dispatch.render at 1, emit, Component.get. mrun.
    fold L1. rewrite list_lookup_alter_eq, Hlk.
    cbn [fmap option_fmap option_map]. mrun.
    cbn [c_behaviour Component.with_state oB Component.construct]. mrun.
    rewrite HkB.
    unfold ErrorBoundary.render at 1, Component.get. mrun.
    fold L1. rewrite list_lookup_alter_eq, Hlk.
    cbn [fmap option_fmap option_map]. mrun.
    assert (Hspread : Obj.spread (c_state oB)
                        (ErrorBoundary.getDerivedStateFromError e)
                      = ErrorBoundary.getDerivedStateFromError e) by reflexivity.
    rewrite Hspread in *. cbn [c_state Component.with_state].
    change (truthy (Obj.get "hasError" (ErrorBoundary.getDerivedStateFromError e)))
      with true.
    change (Obj.get "error" (ErrorBoundary.getDerivedStateFromError e)) with e.
    cbv iota. rewrite HfB. change (liftRes (Ok fv)) with (ret fv). mrun.
    rewrite (bind_ok _ _ _ _ _ Hfb). mrun. reflexivity. }
  assert (Hlog : log (snd out) = log w ++ [EvRender b; EvRender c; EvRender b] ++ evs).
  { rewrite Hout. cbn [snd]. wsimpl. rewrite Hevs. wsimpl.
    rewrite <- !app_assoc. reflexivity. }
  split; [exact Hout |]. split; [reflexivity |]. split.
  - wsimpl. fold L1. rewrite list_lookup_alter_eq, Hlk. reflexivity.
  - split; [exact Hlog |]. rewrite Hlog. unfold since.
    rewrite drop_app_length. unfold count.
    reflexivity.
Qed.

Lemma boundary_materialises_fallback_without_didCatch_witness :
  let out := Reconciler.createDOMElement (interp 8)
               (RChild (ChildNode Demo.guarded)) Demo.world0 in
  fst out = Ok 1
  /\ log (snd out) = [EvRender 0; EvRender 1; EvRender 0]
  /\ count (isCallOf Demo.didCatch) (since 0 (log (snd out))) = 0.
Proof.
  pose proof (boundary_materialises_fallback_without_didCatch 6 Demo.world0
              (snd (i_createDOMElement (interp 7)
                      (RChild (ChildNode (Demo.fallback Demo.crash)))
                      (snd (catchChildError Demo.guarded Demo.buggyChild
                              Demo.ErrorBoundaryExampleId Demo.BuggyCounterId
                              Demo.crash Demo.world0))))
              Demo.guarded Demo.buggyChild (Demo.fallback Demo.crash)
              Demo.ErrorBoundaryExampleId Demo.BuggyCounterId 100 Demo.crash
              Demo.didCatch 1 []) as H.
  destruct H as (Hout & _ & _ & Hlog & Hcount);
    try (vm_compute; reflexivity).
  cbv zeta in *. split; [| split].
  - rewrite Hout. reflexivity.
  - rewrite Hlog. vm_compute. reflexivity.
  - change 0 with (length (log Demo.world0)) at 1. rewrite Hcount. reflexivity.
Defined.

(** The demo's boundary around the crashing counter: the live tree is the
    fallback heading with its text, the boundary's state records the
    error, and the hook the class defines does not occur in the log. *)
Example demo_boundary_shows_fallback :
  let out := Reconciler.createDOMElement (interp 8)
               (RChild (ChildNode Demo.guarded)) Demo.world0 in
  fst out = Ok 1
  /\ nodes (snd out) = nodes Demo.fallbackWorld
  /\ nodeKind <$> nodes (snd out) !! 1 = Some (ElementNode "h2")
  /\ nodeKind <$> nodes (snd out) !! 2 = Some (TextNode "Something went wrong.")
  /\ c_state <$> comps (snd out) !! 0
     = Some (ErrorBoundary.getDerivedStateFromError Demo.crash)
  /\ cd_componentDidCatch (classes (snd out) Demo.ErrorBoundaryExampleId)
     = Some Demo.didCatch
  /\ log (snd out) = [EvRender 0; EvRender 1; EvRender 0]
  /\ count (isCallOf Demo.didCatch) (log (snd out)) = 0.
Proof. vm_compute. repeat split; reflexivity. Qed.

(** ** The context channel *)

(** A successful mount ends with the did-mount hook. *)
Lemma mount_ends_with_componentDidMount
    (rec : Interp) (c : CompId) (container : NodeId) (w w1 w2 w3 : World)
    (vnode : Rendered) (el : NodeId) :
  i_render rec c w = (Ok vnode, w1) ->
  i_createDOMElement rec vnode
    (set_comps (alter (Component.with_prevVNode (Some vnode)) c) w1) = (Ok el, w2) ->
  Document.appendChild container el
    (set_comps (alter (Component.with_domElement (Some el)) c) w2) = (Ok tt, w3) ->
  Component.mount rec c container w
  = i_lifecycle rec ComponentDidMount c
      (set_comps (alter (Component.with_isMounted true) c) w3).
Proof.
  intros Hrender Hcreate Happend. unfold Component.mount, Component.update.
  rewrite (bind_ok _ _ _ _ _ Hrender), bind_modify.
  rewrite (bind_ok _ _ _ _ _ Hcreate), bind_modify.
  rewrite (bind_ok _ _ _ _ _ Happend), bind_modify. reflexivity.
Qed.

(** The [Provider] member of a context only builds a provider and returns
    what it renders: the channel is left as it was. *)
Lemma Provider_member_only_renders (ctx : CtxId) (props : Props) (w : World) :
  ContextProvider.Provider ctx props w
  = (Ok (asRendered (Obj.get "children" props)),
     set_comps (fun l => l ++ [Component.construct (BProvider ctx) props]) w)
  /\ contexts (snd (ContextProvider.Provider ctx props w)) = contexts w.
Proof.
  assert (H : ContextProvider.Provider ctx props w
              = (Ok (asRendered (Obj.get "children" props)),
                 set_comps (fun l => l ++ [Component.construct (BProvider ctx) props]) w)).
  { unfold ContextProvider.Provider, ContextProvider.construct.
    unfold Component.alloc at 1. unfold bind at 1.
    unfold ContextProvider.render, Component.get.
    rewrite bind_assoc, bind_gets. cbn [comps set_comps].
    rewrite lookup_app_r by lia. rewrite Nat.sub_diag. reflexivity. }
  split; [exact H|]. rewrite H. reflexivity.
Qed.



(** * Further properties of the engine *)

(** ** The node builder, continued *)

Lemma get_without (name k : string) (o : Props) :
  name <> k -> Obj.get name (Obj.without k o) = Obj.get name o.
Proof.
  intros Hne. unfold Obj.without. induction o as [| [k' v] o IH]; [reflexivity|].
  rewrite filter_cons. cbn [fst Obj.get].
  destruct (decide (k' ≠ k)) as [Hk | Hk].
  - cbn [Obj.get]. rewrite IH. reflexivity.
  - apply dec_stable in Hk. subst k'.
    rewrite bool_decide_eq_false_2 by congruence. exact IH.
Qed.

Lemma has_without_same (k : string) (o : Props) :
  Obj.has k (Obj.without k o) = false.
Proof.
  unfold Obj.without. induction o as [| [k' v] o IH]; [reflexivity|].
  rewrite filter_cons. cbn [fst].
  destruct (decide (k' ≠ k)) as [Hk | Hk]; [| exact IH].
  cbn [Obj.has]. rewrite IH, bool_decide_eq_false_2 by exact Hk. reflexivity.
Qed.

Lemma has_without (name k : string) (o : Props) :
  name <> k -> Obj.has name (Obj.without k o) = Obj.has name o.
Proof.
  intros Hne. unfold Obj.without. induction o as [| [k' v] o IH]; [reflexivity|].
  rewrite filter_cons. cbn [fst Obj.has].
  destruct (decide (k' ≠ k)) as [Hk | Hk].
  - cbn [Obj.has]. rewrite IH. reflexivity.
  - apply dec_stable in Hk. subst k'.
    rewrite bool_decide_eq_false_2 by congruence. exact IH.
Qed.

Lemma get_absent (name : string) (o : Props) :
  Obj.has name o = false -> Obj.get name o = JUndefined.
Proof.
  induction o as [| [k v] o IH]; [reflexivity|]. cbn [Obj.has Obj.get].
  case_bool_decide; [discriminate | exact IH].
Qed.

(** X1. [createElement] takes the key out of the properties and nothing
    else: the node's properties have no entry named [key], and every other
    name is present or absent, and bound to the same value, as in the
    properties given. *)
Theorem createElement_props_are_the_rest
    (type : VType) (props : Props) (children : list ChildArg) :
  let v := createElement type (Some props) children in
  Obj.has "key" (vprops v) = false
  /\ Obj.get "key" (vprops v) = JUndefined
  /\ (forall name, name <> "key" ->
        Obj.has name (vprops v) = Obj.has name props
        /\ Obj.get name (vprops v) = Obj.get name props).
Proof.
  unfold createElement. cbn [vprops default]. unfold id.
  split; [apply has_without_same|]. split.
  - apply get_absent, has_without_same.
  - intros name Hne. split; [apply has_without | apply get_without]; exact Hne.
Qed.

Lemma keep_defined_app (a b : list ChildItem) :
  keep_defined (a ++ b) = keep_defined a ++ keep_defined b.
Proof. unfold keep_defined. apply omap_app. Qed.

Lemma flat_app (a b : list ChildArg) : flat (a ++ b) = flat a ++ flat b.
Proof. unfold flat. rewrite map_app, concat_app. reflexivity. Qed.

Lemma flat_map_One (l : list ChildItem) : flat (map One l) = l.
Proof.
  unfold flat. induction l as [| i l IH]; [reflexivity|].
  cbn [map concat app]. rewrite IH. reflexivity.
Qed.


Lemma flat_cons (a : ChildArg) (l : list ChildArg) :
  flat (a :: l) = match a with One i => [i] | Many l' => l' end ++ flat l.
Proof. reflexivity. Qed.

Lemma keep_defined_jsx_defined (l : list ChildArg) :
  keep_defined (flat (List.filter jsx_defined l)) = keep_defined (flat l).
Proof.
  induction l as [| a l IH]; [reflexivity|].
  cbn [List.filter]. destruct a as [[| | c] | l']; cbn [jsx_defined];
    rewrite ?flat_cons, ?keep_defined_app, IH; reflexivity.
Qed.

Lemma jsx_flat_asJsxArg (args : list ChildArg) :
  flat (jsx_flat (map asJsxArg args)) = flat args.
Proof.
  induction args as [| a args IH]; [reflexivity|].
  unfold jsx_flat in *. cbn [map concat]. rewrite flat_app, IH, flat_cons.
  destruct a as [i | l]; cbn [asJsxArg]; [reflexivity|].
  rewrite flat_map_One. reflexivity.
Qed.

(** X3. [jsx] is [createElement] after one more level of flattening: its
    own filter for [null] and [undefined] and its default for missing
    properties change nothing. In particular the two build the same node
    from children that are items or arrays of items. *)
Theorem jsx_is_createElement_of_flat
    (type : VType) (props : option Props) :
  (forall children : list JsxArg,
     jsx type props children = createElement type props (jsx_flat children))
  /\ (forall children : list ChildArg,
        jsx type props (map asJsxArg children) = createElement type props children).
Proof.
  assert (H : forall children : list JsxArg,
             jsx type props children = createElement type props (jsx_flat children)).
  { intros children. unfold jsx, createElement.
    rewrite keep_defined_jsx_defined. destruct props; reflexivity. }
  split; [exact H|]. intros children. rewrite H. unfold createElement.
  rewrite jsx_flat_asJsxArg. reflexivity.
Qed.

Lemma strict_eq_refl (a : JsVal) : a <> JNaN -> strict_eq a a = true.
Proof.
  intros Hn. destruct a; cbn [strict_eq]; try reflexivity;
    try (apply bool_decide_eq_true_2; reflexivity).
  - apply Z.eqb_refl.
  - congruence.
Qed.

(** X4. Every node that [createElement] builds is equal to itself in the
    sense of [areNodesEqual]: the key it stores is never [NaN], the one
    value that is not strictly equal to itself. *)
Theorem areNodesEqual_refl_on_built_nodes
    (type : VType) (props : option Props) (children : list ChildArg) :
  let v := createElement type props children in
  vkey v <> JNaN /\ areNodesEqual v v = true.
Proof.
  cbv zeta.
  assert (Hk : vkey (createElement type props children) <> JNaN).
  { unfold createElement. cbn [vkey].
    destruct (truthy (Obj.get "key" (default [] props))) eqn:E; [| discriminate].
    intros Hnan. rewrite Hnan in E. discriminate. }
  split; [exact Hk|]. unfold areNodesEqual.
  rewrite bool_decide_eq_true_2 by reflexivity. apply strict_eq_refl, Hk.
Qed.

(** ** The scheduler and the component container, continued *)

Lemma add_idem (cb : Closure) (l : list Closure) :
  BatchUpdate.add cb (BatchUpdate.add cb l) = BatchUpdate.add cb l.
Proof.
  unfold BatchUpdate.add.
  destruct (decide (closureId cb ∈ map closureId l)) as [H | H].
  { rewrite (bool_decide_eq_true_2 _ H).
    rewrite (bool_decide_eq_true_2 _ H). reflexivity. }
  rewrite (bool_decide_eq_false_2 _ H).
  rewrite bool_decide_eq_true_2; [reflexivity|].
  rewrite map_app. apply elem_of_app. right. cbn [map]. apply list_elem_of_singleton.
  reflexivity.
Qed.

Lemma add_NoDup (cb : Closure) (l : list Closure) :
  NoDup (map closureId l) -> NoDup (map closureId (BatchUpdate.add cb l)).
Proof.
  intros Hnd. unfold BatchUpdate.add. case_bool_decide as H; [exact Hnd|].
  rewrite map_app. apply NoDup_app. split; [exact Hnd|]. split.
  - intros x Hx Hx'. cbn [map] in Hx'. apply list_elem_of_singleton in Hx'.
    subst x. contradiction.
  - cbn [map]. apply NoDup_singleton.
Qed.

(** X5. The pending set is a set of closure objects: while a batch is
    open, scheduling a closure that is already pending changes nothing,
    and the pending closures stay pairwise distinct. *)
Theorem scheduleUpdate_keeps_each_closure_once
    (rec : Interp) (cb : Closure) (w : World) :
  isBatchingUpdates (batch w) = true ->
  let w' := snd (BatchUpdate.scheduleUpdate rec cb w) in
  BatchUpdate.scheduleUpdate rec cb w = (Ok tt, w')
  /\ closureId cb ∈ map closureId (batchedCallbacks (batch w'))
  /\ BatchUpdate.scheduleUpdate rec cb w' = (Ok tt, w')
  /\ (NoDup (map closureId (batchedCallbacks (batch w))) ->
      NoDup (map closureId (batchedCallbacks (batch w')))).
Proof.
  intros Hb. unfold BatchUpdate.scheduleUpdate. rewrite !bind_gets, Hb.
  cbn [snd modify]. wsimpl. cbn [isBatchingUpdates batchedCallbacks]. rewrite Hb.
  split; [reflexivity|]. split; [| split].
  - unfold BatchUpdate.add. case_bool_decide as H; [exact H|].
    rewrite map_app. apply elem_of_app. right. apply list_elem_of_singleton.
    reflexivity.
  - unfold modify. f_equal. unfold set_batch. cbn. rewrite add_idem.
    reflexivity.
  - apply add_NoDup.
Qed.

Lemma scheduleUpdate_keeps_each_closure_once_witness :
  let cb := {| closureId := 0; closureCode := ForceUpdateUpdate 0 JUndefined |} in
  let w := snd (BatchUpdate.batchStart Demo.world0) in
  let w' := snd (BatchUpdate.scheduleUpdate (interp 0) cb w) in
  batchedCallbacks (batch w') = [cb]
  /\ BatchUpdate.scheduleUpdate (interp 0) cb w' = (Ok tt, w').
Proof.
  cbv zeta.
  destruct (scheduleUpdate_keeps_each_closure_once (interp 0)
              {| closureId := 0; closureCode := ForceUpdateUpdate 0 JUndefined |}
              (snd (BatchUpdate.batchStart Demo.world0)) eq_refl)
    as (_ & _ & Hagain & _).
  split; [reflexivity | exact Hagain].
Defined.

Lemma scheduleUpdate_neverThrows (rec : Interp) (cb : Closure) :
  neverThrows (BatchUpdate.scheduleUpdate rec cb).
Proof.
  unfold BatchUpdate.scheduleUpdate. apply neverThrows_bind.
  - intros w e w'. unfold gets. congruence.
  - intros [|]; [apply neverThrows_modify | apply runImmediate_neverThrows].
Qed.

(** X6. [setState] on an existing instance never throws to its caller,
    whatever the user code reached by the update does: the new state is
    merged first, and an update that runs at once has its error logged by
    the scheduler. *)
Theorem setState_never_throws
    (rec : Interp) (w : World) (c : CompId) (o : ComponentObj)
    (newState : State) (callback : JsVal) :
  comps w !! c = Some o ->
  forall e w', Component.setState rec c newState callback w <> (Throw e, w').
Proof.
  intros Hc. unfold Component.setState, Component.get.
  intros e w'. rewrite bind_assoc, bind_gets, Hc, bind_ret_l.
  unfold Component.update. rewrite bind_modify.
  unfold BatchUpdate.newClosure at 1. unfold bind at 1.
  apply scheduleUpdate_neverThrows.
Qed.

Lemma setState_never_throws_witness :
  Component.setState (interp 5) 0 [("count", JNum 1)] (JFun Demo.throwingFn)
    Demo.mountedCounter <> (Throw (JError "handler failed"), Demo.mountedCounter).
Proof.
  eapply setState_never_throws. vm_compute. reflexivity.
Defined.

Lemma handleError_climb_rethrows (n : nat) (c : CompId) (error : JsVal) (w : World) :
  snd (Component.handleError_climb n c error w) = w
  /\ fst (Component.handleError_climb n c error w) <> Ok tt.
Proof.
  revert c. induction n as [| n IH]; intros c; cbn [Component.handleError_climb];
    unfold Component.get; rewrite bind_assoc, bind_gets;
    destruct (comps w !! c) as [o |]; try (split; [reflexivity | discriminate]);
    rewrite bind_ret_l; destruct (c_errorBoundary o) as [b |];
    try (split; [reflexivity | discriminate]).
  apply IH.
Qed.

Lemma handleError_under_boundary
    (c b : CompId) (o ob : ComponentObj) (error : JsVal) (w : World) :
  comps w !! c = Some o -> c_errorBoundary o = Some b ->
  comps w !! b = Some ob -> c_errorBoundary ob = None ->
  Component.handleError c error w = (Throw error, w).
Proof.
  unfold Component.handleError. rewrite bind_gets.
  - intros Hc Hb Hcb Hbb.
    assert (Hlen : c < length (comps w)) by (eapply lookup_lt_Some; exact Hc).
    destruct (length (comps w)) as [| n]; [lia|].
    cbn [Component.handleError_climb]. unfold Component.get at 1.
    rewrite bind_assoc, bind_gets, Hc, bind_ret_l, Hb.
    destruct n; cbn [Component.handleError_climb];
      unfold Component.get; rewrite bind_assoc, bind_gets, Hcb, bind_ret_l, Hbb;
      reflexivity.
Qed.

(** X7. [handleError] handles nothing: it changes no state and never
    returns normally. The error climbs the back-references to enclosing
    boundaries, whose [handleError] is the same inherited method, and is
    thrown again at the end of the chain. *)
Theorem handleError_always_rethrows (c : CompId) (error : JsVal) (w : World) :
  snd (Component.handleError c error w) = w
  /\ fst (Component.handleError c error w) <> Ok tt
  /\ (forall o, comps w !! c = Some o -> c_errorBoundary o = None ->
        Component.handleError c error w = (Throw error, w))
  /\ (forall o b ob, comps w !! c = Some o -> c_errorBoundary o = Some b ->
        comps w !! b = Some ob -> c_errorBoundary ob = None ->
        Component.handleError c error w = (Throw error, w)).
Proof.
  split; [| split; [| split]].
  - unfold Component.handleError. rewrite bind_gets.
    apply handleError_climb_rethrows.
  - unfold Component.handleError. rewrite bind_gets.
    apply handleError_climb_rethrows.
  - intros o Hc Hb. unfold Component.handleError. rewrite bind_gets.
    destruct (length (comps w)); cbn [Component.handleError_climb];
      unfold Component.get; rewrite bind_assoc, bind_gets, Hc, bind_ret_l, Hb;
      reflexivity.
  - intros o b ob. apply handleError_under_boundary.
Qed.

(** X8. An error thrown by [render] during an update is not shown by any
    boundary: [updateComponent] hands it to [handleError], which throws it
    again, and the scheduler logs it. The live nodes and every instance,
    the enclosing boundary included, stay as they were. *)
Theorem update_error_is_logged_not_caught
    (fuel : nat) (w : World) (c b : CompId) (o ob : ComponentObj) (cls : ClassId)
    (el : NodeId) (prev : VNode) (e : JsVal) :
  comps w !! c = Some o ->
  c_behaviour o = BUser cls ->
  cd_kind (classes w cls) = KComponent ->
  cd_componentWillUpdate (classes w cls) = None ->
  cd_render (classes w cls) (c_props o) (c_state o) = Throw e ->
  c_domElement o = Some el ->
  c_prevVNode o = Some (RChild (ChildNode prev)) ->
  c_isMounted o = true ->
  c_errorBoundary o = Some b ->
  comps w !! b = Some ob ->
  c_errorBoundary ob = None ->
  isBatchingUpdates (batch w) = false ->
  Component.forceUpdate (interp (S (S fuel))) c JUndefined w
  = (Ok tt,
     set_log (fun l => l ++ [EvForceUpdate c; EvRender c; EvConsoleError e])
       (set_nextClosure (S (nextClosure w)) w)).
Proof.
  intros Hc Hbeh Hkind Hwill Hrender Hdom Hprev Hmounted Hbnd Hb Hbb Hbatch.
  unfold Component.forceUpdate, emit, Component.get. mrun.
  rewrite Hc. mrun. rewrite Hmounted.
  unfold BatchUpdate.newClosure at 1. unfold bind at 1. mrun.
  unfold BatchUpdate.scheduleUpdate. mrun. rewrite Hbatch.
  unfold BatchUpdate.runImmediate. cbn [closureCode].
  change (i_runCallback (interp (S (S fuel))))
    with (Dispatch.runCallback (interp (S fuel))).
  match goal with |- tryCatch ?body ?h ?w1 = _ =>
    eassert (Hbody : body w1 = (Throw e, _))
  end.
  { unfold Dispatch.runCallback, Component.get. mrun. rewrite Hc. mrun.
    unfold Component.updateComponent, Component.get. mrun. rewrite Hc. mrun.
    rewrite Hdom, Hprev, Hmounted.
    rewrite bool_decide_eq_true_2 by eauto. cbn [andb Component.rendered_truthy].
    match goal with |- bind (tryCatch ?body ?h) ?k ?w1 = _ =>
      eassert (Hinner : body w1 = (Throw e, _))
    end.
    { change (i_lifecycle (interp (S fuel))) with (Dispatch.lifecycle (interp fuel)).
      unfold Dispatch.lifecycle, Component.get. mrun. rewrite Hc. mrun.
      rewrite Hbeh. mrun. cbn [Dispatch.userHook]. rewrite Hwill. mrun.
      change (i_render (interp (S fuel))) with (Dispatch.render (interp fuel)).
      unfold Dispatch.render, emit, Component.get. mrun. rewrite Hc. mrun.
      rewrite Hbeh. mrun. rewrite Hkind, Hrender. reflexivity. }
    rewrite (bind_tryCatch_throw _ _ _ _ _ _ Hinner). clear Hinner.
    erewrite bind_throw; [reflexivity|].
    eapply handleError_under_boundary; wsimpl; eassumption. }
  unfold tryCatch. rewrite Hbody. unfold emit, modify. f_equal.
  unfold set_log. cbn. rewrite <- !app_assoc. reflexivity.
Qed.

Lemma update_error_is_logged_not_caught_witness :
  let out := Component.forceUpdate (interp 2) 1 JUndefined crashingUnderBoundary in
  fst out = Ok tt
  /\ comps (snd out) = comps crashingUnderBoundary
  /\ nodes (snd out) = nodes crashingUnderBoundary
  /\ log (snd out) = [EvForceUpdate 1; EvRender 1; EvConsoleError Demo.crash].
Proof.
  cbv zeta.
  erewrite (update_error_is_logged_not_caught 0 crashingUnderBoundary 1 0);
    try (vm_compute; reflexivity).
  repeat split.
Defined.

Lemma count_app (p : Event -> bool) (a b : list Event) :
  count p (a ++ b) = count p a + count p b.
Proof. unfold count. rewrite List.filter_app, length_app. reflexivity. Qed.

(** X9. [setState] on an instance that is not mounted merges the new
    state and renders nothing: outside a batch the update closure runs at
    once, consults [shouldComponentUpdate], and [updateComponent] returns
    without calling [render] or touching a live node. *)
Theorem setState_unmounted_merges_without_render
    (fuel : nat) (w : World) (c : CompId) (o : ComponentObj) (newState : State) :
  comps w !! c = Some o ->
  c_isMounted o = false ->
  isBatchingUpdates (batch w) = false ->
  let out := Component.setState (interp (S fuel)) c newState JUndefined w in
  (forall e, fst out <> Throw e)
  /\ comps (snd out)
     = alter (Component.with_state (Obj.spread (c_state o) newState)) c (comps w)
  /\ nodes (snd out) = nodes w
  /\ (forall c', count (isRenderOf c') (log (snd out)) = count (isRenderOf c') (log w)).
Proof.
  intros Hc Hm Hbatch out.
  set (o' := Component.with_state (Obj.spread (c_state o) newState) o).
  set (w1 := set_nextClosure (S (nextClosure w))
               (set_comps (alter (Component.with_state
                                    (Obj.spread (c_state o) newState)) c) w)).
  assert (Hc1 : comps w1 !! c = Some o').
  { unfold w1. wsimpl. rewrite list_lookup_alter_eq, Hc. reflexivity. }
  assert (Hupd : forall prev,
             Component.updateComponent (interp fuel) c prev w1 = (Ok tt, w1)).
  { intros prev. unfold Component.updateComponent, Component.get. mrun.
    rewrite Hc1. mrun. unfold o'. cbn [c_isMounted Component.with_state].
    rewrite Hm, andb_false_r. reflexivity. }
  assert (Hid : w1 = set_log (fun l => l ++ []) w1).
  { destruct w1. unfold set_log. cbn. rewrite app_nil_r. reflexivity. }
  assert (Hrun : exists r evs,
             Dispatch.runCallback (interp fuel)
               (SetStateUpdate c (c_state o) JUndefined) w1
             = (r, set_log (fun l => l ++ evs) w1)
             /\ (forall c', count (isRenderOf c') evs = 0)
             /\ (forall e, r = Throw e -> evs = [])).
  { unfold Dispatch.runCallback, Dispatch.shouldComponentUpdate, Component.get.
    mrun. rewrite Hc1. mrun.
    assert (Hrest : forall should,
      (when (strict_neq should (JBool false))
         (Component.updateComponent (interp fuel) c (c_state o)) ;;
       optCall (interp fuel) JUndefined []) w1 = (Ok tt, w1)).
    { intros should. unfold when.
      destruct (strict_neq should (JBool false));
        [rewrite (bind_ok _ _ _ _ _ (Hupd _)) | rewrite bind_ret_l]; reflexivity. }
    destruct (c_behaviour o') as [cls | ctx | ctx].
    - mrun. destruct (cd_shouldComponentUpdate (classes w1 cls)) as [f |].
      + unfold liftRes, bind at 1.
        destruct (f (c_props o') (c_state o')) as [should | e | ].
        * rewrite Hrest. exists (Ok tt), []. rewrite <- Hid. repeat split.
        * exists (Throw e), []. rewrite <- Hid. repeat split.
        * exists OutOfFuel, []. rewrite <- Hid. repeat split.
      + rewrite bind_ret_l, Hrest. exists (Ok tt), []. rewrite <- Hid. repeat split.
    - rewrite bind_ret_l, Hrest. exists (Ok tt), []. rewrite <- Hid. repeat split.
    - rewrite bind_ret_l, Hrest. exists (Ok tt), []. rewrite <- Hid. repeat split. }
  destruct Hrun as (r & evs & Hrun & Hnone & Hthrow).
  assert (Hout : exists r' evs',
             out = (r', set_log (fun l => l ++ evs') w1)
             /\ (forall e, r' <> Throw e)
             /\ (forall c', count (isRenderOf c') evs' = 0)).
  { unfold out, Component.setState, Component.get. mrun. rewrite Hc. mrun.
    unfold Component.update. mrun.
    unfold BatchUpdate.newClosure at 1. unfold bind at 1. mrun.
    unfold BatchUpdate.scheduleUpdate. mrun. rewrite Hbatch.
    unfold BatchUpdate.runImmediate. cbn [closureCode].
    change (i_runCallback (interp (S fuel))) with (Dispatch.runCallback (interp fuel)).
    fold w1. unfold tryCatch. rewrite Hrun.
    destruct r as [[] | e | ].
    - exists (Ok tt), evs. split; [reflexivity|]. split; [discriminate | exact Hnone].
    - rewrite (Hthrow e eq_refl). exists (Ok tt), [EvConsoleError e].
      unfold emit, modify. split; [| split; [discriminate | reflexivity]].
      f_equal. rewrite <- Hid. reflexivity.
    - exists OutOfFuel, evs. split; [reflexivity|]. split; [discriminate | exact Hnone]. }
  destruct Hout as (r' & evs' & -> & Hr' & Hnone').
  cbn [fst snd]. unfold w1. wsimpl. split; [exact Hr'|]. split; [reflexivity|].
  split; [reflexivity|]. intros c'. rewrite count_app, Hnone'. lia.
Qed.

Lemma setState_unmounted_merges_without_render_witness :
  let w := Demo.after (Reconciler.instantiate Demo.CounterId []) Demo.world0 in
  let out := Component.setState (interp 3) 0 [("count", JNum 3)] JUndefined w in
  c_state <$> comps (snd out) !! 0 = Some [("count", JNum 3)]
  /\ nodes (snd out) = nodes w.
Proof.
  cbv zeta.
  destruct (setState_unmounted_merges_without_render 2
               (Demo.after (Reconciler.instantiate Demo.CounterId []) Demo.world0)
               0 (Component.with_state [("count", JNum 0)]
                    (Component.construct (BUser Demo.CounterId) []))
               [("count", JNum 3)])
    as (_ & Hcomps & Hnodes & _);
    try (vm_compute; reflexivity).
  split; [| exact Hnodes]. rewrite Hcomps. vm_compute. reflexivity.
Defined.

Lemma unsubscribeFromContexts_contexts_only (c : CompId) (o : ComponentObj) (w : World) :
  comps w !! c = Some o ->
  exists g,
    Component.unsubscribeFromContexts c w
    = (Ok tt, set_comps (alter (Component.with_contexts []) c) (set_contexts g w)).
Proof.
  intros Hc. unfold Component.unsubscribeFromContexts, Component.get.
  rewrite bind_assoc, bind_gets, Hc, bind_ret_l. unfold Component.update.
  generalize (c_contexts o). intros l. revert w Hc.
  induction l as [| ctx l IH]; intros w Hc.
  - exists (fun x => x). cbn [forEach]. rewrite bind_ret_l. unfold modify.
    destruct w. reflexivity.
  - cbn [forEach]. rewrite bind_assoc, bind_modify.
    match goal with |- context [set_contexts ?f w] =>
      destruct (IH (set_contexts f w) Hc) as [g Hg]; exists (fun x => g (f x))
    end.
    rewrite Hg. reflexivity.
Qed.

(** X10. Unmounting a mounted instance of a class without a will-unmount
    hook takes its live node out of its parent and resets the instance: it
    is no longer mounted, it has no live node, no previous description and
    no recorded context, and no other instance changes. Unmounting it
    again does nothing. *)
Theorem unmount_detaches_and_resets
    (fuel : nat) (w : World) (c : CompId) (o : ComponentObj) (cls : ClassId)
    (el : NodeId) (n : DomNode) :
  comps w !! c = Some o ->
  c_behaviour o = BUser cls ->
  cd_componentWillUnmount (classes w cls) = None ->
  c_domElement o = Some el ->
  c_isMounted o = true ->
  nodes w !! el = Some n ->
  exists w',
    Component.unmount (interp (S fuel)) c w = (Ok tt, w')
    /\ comps w'
       = alter (fun o => Component.with_prevVNode None
                           (Component.with_domElement None
                              (Component.with_isMounted false
                                 (Component.with_contexts [] o)))) c (comps w)
    /\ parentNode <$> nodes w' !! el = Some None
    /\ (forall p np, parentNode n = Some p -> p <> el -> nodes w !! p = Some np ->
          childNodes <$> nodes w' !! p
          = Some (Document.remove_id el (childNodes np)))
    /\ Component.unmount (interp (S fuel)) c w' = (Ok tt, w').
Proof.
  intros Hc Hbeh Hhook Hdom Hmounted Hel.
  destruct (unsubscribeFromContexts_contexts_only c o w Hc) as [g Hunsub].
  set (w1 := set_comps (alter (Component.with_contexts []) c) (set_contexts g w)) in *.
  assert (Hc1 : comps w1 !! c = Some (Component.with_contexts [] o)).
  { unfold w1. wsimpl. rewrite list_lookup_alter_eq, Hc. reflexivity. }
  set (reset := fun w2 : World =>
         set_comps (alter (Component.with_prevVNode None) c)
           (set_comps (alter (Component.with_domElement None) c)
              (set_comps (alter (Component.with_isMounted false) c) w2))).
  assert (Hrun : forall w2,
             Document.detach el w1 = (Ok tt, w2) ->
             Component.unmount (interp (S fuel)) c w = (Ok tt, reset w2)).
  { intros w2 Hdetach. unfold Component.unmount, Component.get. mrun.
    rewrite Hc. mrun. rewrite Hdom, Hmounted.
    change (i_lifecycle (interp (S fuel))) with (Dispatch.lifecycle (interp fuel)).
    unfold Dispatch.lifecycle, Component.get. mrun. rewrite Hc. mrun.
    rewrite Hbeh. mrun. cbn [Dispatch.userHook]. rewrite Hhook. mrun.
    rewrite (bind_ok _ _ _ _ _ Hunsub). mrun. fold w1. rewrite Hc1. mrun.
    cbn [c_domElement Component.with_contexts]. rewrite Hdom.
    rewrite (bind_ok _ _ _ _ _ Hdetach). unfold Component.update. mrun.
    reflexivity. }
  assert (Hagain : forall w2, comps w2 = comps w1 ->
             Component.unmount (interp (S fuel)) c (reset w2) = (Ok tt, reset w2)).
  { intros w2 Hcomps. unfold Component.unmount, Component.get. mrun.
    unfold reset at 1. wsimpl. rewrite !list_lookup_alter_eq, Hcomps, Hc1.
    cbn [fmap option_fmap option_map]. mrun. reflexivity. }
  assert (Hcomps : forall w2, comps w2 = comps w1 ->
             comps (reset w2)
             = alter (fun o => Component.with_prevVNode None
                           (Component.with_domElement None
                              (Component.with_isMounted false
                                 (Component.with_contexts [] o)))) c (comps w)).
  { intros w2 Hw2. unfold reset. wsimpl. rewrite Hw2. unfold w1. wsimpl.
    rewrite !list_alter_alter_eq. reflexivity. }
  unfold Document.detach, Document.getNode in Hrun.
  assert (Hel1 : nodes w1 !! el = Some n) by exact Hel.
  destruct (parentNode n) as [p |] eqn:Hp.
  - eexists. split.
    { apply Hrun. mrun. rewrite Hel1. mrun. rewrite Hp. unfold Document.update.
      mrun. reflexivity. }
    split; [apply Hcomps; reflexivity|]. split; [| split].
    + unfold reset. wsimpl. rewrite list_lookup_alter_eq.
      destruct (decide (p = el)) as [-> | Hne].
      * rewrite list_lookup_alter_eq. unfold w1. wsimpl. rewrite Hel. reflexivity.
      * rewrite list_lookup_alter_ne by congruence. unfold w1. wsimpl.
        rewrite Hel. reflexivity.
    + intros p' np Hp' Hne Hnp. injection Hp' as <-. unfold reset. wsimpl.
      rewrite list_lookup_alter_ne by congruence.
      rewrite list_lookup_alter_eq. unfold w1. wsimpl. rewrite Hnp. reflexivity.
    + apply Hagain. reflexivity.
  - exists (reset w1). split.
    { apply Hrun. mrun. rewrite Hel1. mrun. rewrite Hp. reflexivity. }
    split; [apply Hcomps; reflexivity|]. split; [| split].
    + unfold reset, w1. wsimpl. rewrite Hel. cbn. rewrite Hp. reflexivity.
    + intros p' np Hp'. discriminate.
    + apply Hagain. reflexivity.
Qed.

Lemma unmount_detaches_and_resets_witness :
  exists w',
    Component.unmount (interp 1) 0 Demo.mountedCounter = (Ok tt, w')
    /\ childNodes <$> nodes w' !! Demo.body = Some []
    /\ c_isMounted <$> comps w' !! 0 = Some false
    /\ Component.unmount (interp 1) 0 w' = (Ok tt, w').
Proof.
  edestruct (unmount_detaches_and_resets 0 Demo.mountedCounter 0)
    as (w' & Hrun & Hcomps & _ & Hparent & Hagain);
    [vm_compute; reflexivity ..|].
  exists w'. split; [exact Hrun|]. split; [| split; [| exact Hagain]].
  - erewrite (Hparent Demo.body); [| vm_compute; reflexivity | discriminate
                                   | vm_compute; reflexivity].
    reflexivity.
  - rewrite Hcomps. reflexivity.
Defined.

(** ** The context channel, continued *)

Lemma filter_ne_snoc (c : CompId) (l : list CompId) :
  c ∉ l -> filter (fun s => s ≠ c) (l ++ [c]) = l.
Proof.
  intros Hnotin. rewrite filter_app, filter_cons, filter_nil.
  destruct (decide (c ≠ c)) as [H | _]; [congruence|]. rewrite app_nil_r.
  induction l as [| y l IH]; [reflexivity|].
  rewrite filter_cons. apply not_elem_of_cons in Hnotin as [Hne Hnotin].
  destruct (decide (y ≠ c)) as [_ | H]; [| exfalso; apply H; congruence].
  rewrite IH by exact Hnotin. reflexivity.
Qed.

Lemma alter_at {A} (f : A -> A) (i : nat) (l : list A) (x : A) :
  l !! i = Some x -> f x = x -> alter f i l = l.
Proof.
  intros Hx Hf. apply list_eq. intros j. destruct (decide (i = j)) as [<- | Hne].
  - rewrite list_lookup_alter_eq, Hx. cbn. rewrite Hf. reflexivity.
  - apply list_lookup_alter_ne. exact Hne.
Qed.

Lemma alter_ext_at {A} (f g : A -> A) (i : nat) (l : list A) (x : A) :
  l !! i = Some x -> f x = g x -> alter f i l = alter g i l.
Proof.
  intros Hx Hf. apply list_eq. intros j. destruct (decide (i = j)) as [<- | Hne].
  - rewrite !list_lookup_alter_eq, Hx. cbn. rewrite Hf. reflexivity.
  - rewrite !list_lookup_alter_ne by exact Hne. reflexivity.
Qed.

Lemma set_contexts_ext (f g : list ContextObj -> list ContextObj) (w : World) :
  f (contexts w) = g (contexts w) -> set_contexts f w = set_contexts g w.
Proof. intros H. unfold set_contexts. rewrite H. reflexivity. Qed.

Lemma set_contexts_id (f : list ContextObj -> list ContextObj) (w : World) :
  f (contexts w) = contexts w -> set_contexts f w = w.
Proof. intros H. unfold set_contexts. rewrite H. destruct w. reflexivity. Qed.

(** X11. The subscribers of a context are a set kept in subscription
    order: subscribing a component a second time changes nothing, and
    unsubscribing a component that was newly subscribed gives back the
    context as it was, value included. *)
Theorem subscribe_unsubscribe_round_trip
    (w : World) (ctx : CtxId) (x : ContextObj) (c : CompId) :
  contexts w !! ctx = Some x ->
  let w1 := snd (Context.subscribe ctx c w) in
  Context.subscribe ctx c w = (Ok tt, w1)
  /\ c ∈ default [] (x_subscribers <$> contexts w1 !! ctx)
  /\ Context.subscribe ctx c w1 = (Ok tt, w1)
  /\ (c ∉ default [] (x_subscribers <$>
                         contexts (snd (Context.unsubscribe ctx c w1)) !! ctx))
  /\ (c ∉ x_subscribers x -> Context.unsubscribe ctx c w1 = (Ok tt, w)).
Proof.
  intros Hctx. cbv zeta.
  assert (Hsub : forall w0 x0, contexts w0 !! ctx = Some x0 ->
            Context.subscribe ctx c w0
            = (Ok tt, set_contexts (alter (fun x =>
                 {| x_subscribers :=
                      if bool_decide (c ∈ x_subscribers x) then x_subscribers x
                      else x_subscribers x ++ [c];
                    x_currentValue := x_currentValue x |}) ctx) w0)).
  { intros w0 x0 H0. unfold Context.subscribe, Context.get.
    rewrite bind_assoc, bind_gets, H0, bind_ret_l. reflexivity. }
  assert (Hunsub : forall w0 x0, contexts w0 !! ctx = Some x0 ->
            Context.unsubscribe ctx c w0
            = (Ok tt, set_contexts (alter (fun x =>
                 {| x_subscribers := filter (fun s => s ≠ c) (x_subscribers x);
                    x_currentValue := x_currentValue x |}) ctx) w0)).
  { intros w0 x0 H0. unfold Context.unsubscribe, Context.get.
    rewrite bind_assoc, bind_gets, H0, bind_ret_l. reflexivity. }
  rewrite (Hsub w x Hctx). cbn [snd].
  set (x1 := {| x_subscribers :=
                  if bool_decide (c ∈ x_subscribers x) then x_subscribers x
                  else x_subscribers x ++ [c];
                x_currentValue := x_currentValue x |}).
  set (w1 := set_contexts _ w).
  assert (Hctx1 : contexts w1 !! ctx = Some x1).
  { unfold w1. wsimpl. rewrite list_lookup_alter_eq, Hctx. reflexivity. }
  assert (Hin : c ∈ x_subscribers x1).
  { unfold x1. cbn [x_subscribers]. case_bool_decide as H; [exact H|].
    apply elem_of_app. right. apply list_elem_of_singleton. reflexivity. }
  split; [reflexivity|]. split; [rewrite Hctx1; exact Hin|]. split; [| split].
  - rewrite (Hsub w1 x1 Hctx1). f_equal. apply set_contexts_id.
    eapply alter_at; [exact Hctx1|].
    rewrite bool_decide_eq_true_2 by exact Hin. reflexivity.
  - rewrite (Hunsub w1 x1 Hctx1). cbn [snd]. wsimpl.
    rewrite list_lookup_alter_eq, Hctx1. cbn.
    intros Hc. apply list_elem_of_filter in Hc as [Hne _]. congruence.
  - intros Hnotin. rewrite (Hunsub w1 x1 Hctx1). f_equal.
    unfold w1. change (set_contexts ?f (set_contexts ?g w))
      with (set_contexts (fun l => f (g l)) w).
    apply set_contexts_id.
    rewrite list_alter_alter_eq. eapply alter_at; [exact Hctx|].
    cbn. rewrite bool_decide_eq_false_2 by exact Hnotin.
    rewrite filter_ne_snoc by exact Hnotin. destruct x. reflexivity.
Qed.

Lemma subscribe_unsubscribe_round_trip_witness :
  let w1 := snd (Context.subscribe 0 7 Demo.themeWorld) in
  x_subscribers <$> contexts w1 !! 0 = Some [0; 7]
  /\ Context.subscribe 0 7 w1 = (Ok tt, w1)
  /\ Context.unsubscribe 0 7 w1 = (Ok tt, Demo.themeWorld).
Proof.
  cbv zeta.
  destruct (subscribe_unsubscribe_round_trip Demo.themeWorld 0
              {| x_subscribers := [0]; x_currentValue := JStr "light" |} 7 eq_refl)
    as (_ & _ & Htwice & _ & Hback).
  split; [reflexivity|]. split; [exact Htwice|]. apply Hback.
  cbn [x_subscribers]. rewrite list_elem_of_singleton. discriminate.
Defined.

(** X12. [subscribeToContext] records the context on the component and
    returns the context's current value, but it does not enter the
    component among the context's subscribers: the channel is left as it
    was, so a later write to the context does not reach the component. *)
Theorem subscribeToContext_does_not_subscribe
    (w : World) (c : CompId) (o : ComponentObj) (ctx : CtxId) (x : ContextObj) :
  comps w !! c = Some o ->
  contexts w !! ctx = Some x ->
  let out := subscribeToContext c ctx w in
  fst out = Ok (x_currentValue x)
  /\ contexts (snd out) = contexts w
  /\ (ctx ∈ default [] (c_contexts <$> comps (snd out) !! c))
  /\ (forall rec value,
        Context.notify rec ctx (snd (Context.write ctx value (snd out)))
        = forEach (fun s => Component.forceUpdate rec s JUndefined) (x_subscribers x)
            (snd (Context.write ctx value (snd out)))).
Proof.
  intros Hc Hctx out.
  assert (Hout : out = (Ok (x_currentValue x),
                        set_comps (alter (Component.with_contexts
                          (if bool_decide (ctx ∈ c_contexts o) then c_contexts o
                           else c_contexts o ++ [ctx])) c) w)).
  { unfold out, subscribeToContext, Component.get, Component.update.
    rewrite bind_assoc, bind_gets, Hc, bind_ret_l, bind_modify.
    unfold Context.getValue, Context.get.
    rewrite !bind_assoc, bind_gets. wsimpl. rewrite Hctx. reflexivity. }
  rewrite Hout. cbn [fst snd]. wsimpl.
  split; [reflexivity|]. split; [reflexivity|]. split.
  - rewrite list_lookup_alter_eq, Hc. cbn.
    case_bool_decide as H; [exact H|].
    apply elem_of_app. right. apply list_elem_of_singleton. reflexivity.
  - intros rec value. unfold Context.write, Context.get.
    rewrite bind_assoc, bind_gets. wsimpl. rewrite Hctx, bind_ret_l.
    cbn [snd modify]. unfold Context.notify, Context.get.
    rewrite bind_assoc, bind_gets. wsimpl.
    rewrite list_lookup_alter_eq, Hctx. reflexivity.
Qed.

Lemma subscribeToContext_does_not_subscribe_witness :
  let out := subscribeToContext 1 0 Demo.themeWorld in
  fst out = Ok (JStr "light")
  /\ x_subscribers <$> contexts (snd out) !! 0 = Some [0]
  /\ c_contexts <$> comps (snd out) !! 1 = Some [0].
Proof.
  cbv zeta.
  destruct (subscribeToContext_does_not_subscribe Demo.themeWorld 1
              (Component.construct (BProvider 0)
                 [("value", JStr "dark");
                  ("children", JElem 102 (createElement (TTag "section") None []))])
              0 {| x_subscribers := [0]; x_currentValue := JStr "light" |})
    as (Hval & Hctx & _ & _); [reflexivity | reflexivity |].
  split; [exact Hval|]. split; [rewrite Hctx; reflexivity | reflexivity].
Defined.

(** X13. A consumer is a subscriber of its context exactly while it is
    mounted: its did-mount hook subscribes it and remembers the context,
    and its will-unmount hook unsubscribes it again, which for a consumer
    that was not subscribed before gives back the channel as it was. A
    will-unmount before any did-mount does nothing. *)
Theorem consumer_subscribed_while_mounted
    (rec : Interp) (w : World) (c : CompId) (o : ComponentObj)
    (ctx : CtxId) (x : ContextObj) :
  comps w !! c = Some o ->
  c_behaviour o = BConsumer ctx ->
  contexts w !! ctx = Some x ->
  c ∉ x_subscribers x ->
  let w1 := snd (Dispatch.lifecycle rec ComponentDidMount c w) in
  let w2 := snd (Dispatch.lifecycle rec ComponentWillUnmount c w1) in
  Dispatch.lifecycle rec ComponentDidMount c w = (Ok tt, w1)
  /\ x_subscribers <$> contexts w1 !! ctx = Some (x_subscribers x ++ [c])
  /\ Dispatch.lifecycle rec ComponentWillUnmount c w1 = (Ok tt, w2)
  /\ contexts w2 = contexts w
  /\ (c_unsubscribe o = None ->
      Dispatch.lifecycle rec ComponentWillUnmount c w = (Ok tt, w)).
Proof.
  intros Hc Hbeh Hctx Hnotin. cbv zeta.
  assert (Hmount : Dispatch.lifecycle rec ComponentDidMount c w
            = (Ok tt,
               set_comps (alter (Component.with_unsubscribe (Some ctx)) c)
                 (set_contexts (alter (fun x =>
                    {| x_subscribers := x_subscribers x ++ [c];
                       x_currentValue := x_currentValue x |}) ctx) w))).
  { unfold Dispatch.lifecycle, Component.get.
    rewrite bind_assoc, bind_gets, Hc, bind_ret_l, Hbeh.
    unfold ContextConsumer.componentDidMount, Context.subscribe, Context.get.
    rewrite !bind_assoc, bind_gets, Hctx, bind_ret_l, bind_modify.
    unfold Component.update, modify. f_equal. f_equal.
    apply set_contexts_ext. eapply alter_ext_at; [exact Hctx|].
    rewrite bool_decide_eq_false_2 by exact Hnotin. reflexivity. }
  rewrite Hmount. cbn [snd].
  set (w1 := set_comps _ (set_contexts _ w)).
  assert (Hunmount : Dispatch.lifecycle rec ComponentWillUnmount c w1
            = (Ok tt,
               set_contexts (alter (fun x =>
                 {| x_subscribers := filter (fun s => s ≠ c) (x_subscribers x);
                    x_currentValue := x_currentValue x |}) ctx) w1)).
  { unfold Dispatch.lifecycle, Component.get.
    rewrite bind_assoc, bind_gets. unfold w1 at 1. wsimpl.
    rewrite list_lookup_alter_eq, Hc. cbn [fmap option_fmap option_map].
    rewrite bind_ret_l. cbn [c_behaviour Component.with_unsubscribe]. rewrite Hbeh.
    unfold ContextConsumer.componentWillUnmount, Component.get.
    rewrite bind_assoc, bind_gets. unfold w1 at 1. wsimpl.
    rewrite list_lookup_alter_eq, Hc. cbn [fmap option_fmap option_map].
    rewrite bind_ret_l. cbn [c_unsubscribe Component.with_unsubscribe].
    unfold Context.unsubscribe, Context.get.
    rewrite bind_assoc, bind_gets. unfold w1 at 1. wsimpl.
    rewrite list_lookup_alter_eq, Hctx. cbn [fmap option_fmap option_map].
    rewrite bind_ret_l. reflexivity. }
  split; [reflexivity|]. split; [| split; [rewrite Hunmount; reflexivity | split]].
  - unfold w1. wsimpl. rewrite list_lookup_alter_eq, Hctx. reflexivity.
  - rewrite Hunmount. cbn [snd]. unfold w1. wsimpl.
    rewrite list_alter_alter_eq. eapply alter_at; [exact Hctx|].
    cbn. rewrite filter_ne_snoc by exact Hnotin. destruct x. reflexivity.
  - intros Hnone. unfold Dispatch.lifecycle, Component.get.
    rewrite bind_assoc, bind_gets, Hc, bind_ret_l, Hbeh.
    unfold ContextConsumer.componentWillUnmount, Component.get.
    rewrite bind_assoc, bind_gets, Hc, bind_ret_l, Hnone. reflexivity.
Qed.

Lemma consumer_subscribed_while_mounted_witness :
  let w1 := snd (Dispatch.lifecycle (interp 0) ComponentDidMount 2 themeConsumerWorld) in
  let w2 := snd (Dispatch.lifecycle (interp 0) ComponentWillUnmount 2 w1) in
  x_subscribers <$> contexts w1 !! 0 = Some [0; 2]
  /\ contexts w2 = contexts themeConsumerWorld.
Proof.
  cbv zeta.
  destruct (consumer_subscribed_while_mounted (interp 0) themeConsumerWorld 2
              (Component.construct (BConsumer 0) [("children", JFun 11)]) 0
              {| x_subscribers := [0]; x_currentValue := JStr "light" |}
              eq_refl eq_refl eq_refl)
    as (_ & Hsubs & _ & Hback & _).
  - cbn [x_subscribers]. rewrite list_elem_of_singleton. discriminate.
  - split; [exact Hsubs | exact Hback].
Defined.

Lemma forceUpdate_while_batching
    (rec : Interp) (w : World) (c : CompId) (o : ComponentObj) :
  comps w !! c = Some o ->
  isBatchingUpdates (batch w) = true ->
  exists w',
    Component.forceUpdate rec c JUndefined w = (Ok tt, w')
    /\ comps w' = comps w /\ contexts w' = contexts w /\ nodes w' = nodes w
    /\ isBatchingUpdates (batch w') = true
    /\ log w' = log w ++ [EvForceUpdate c].
Proof.
  intros Hc Hb. unfold Component.forceUpdate, emit, Component.get. mrun.
  rewrite Hc. mrun. destruct (c_isMounted o).
  - unfold BatchUpdate.newClosure at 1. unfold bind at 1. mrun.
    unfold BatchUpdate.scheduleUpdate. mrun. rewrite Hb.
    eexists. split; [reflexivity|]. wsimpl. cbn [isBatchingUpdates].
    repeat split. exact Hb.
  - eexists. split; [reflexivity|]. wsimpl. repeat split. exact Hb.
Qed.

Lemma notify_each_while_batching
    (rec : Interp) (l : list CompId) (w : World) :
  Forall (fun s => is_Some (comps w !! s)) l ->
  isBatchingUpdates (batch w) = true ->
  exists w',
    forEach (fun s => Component.forceUpdate rec s JUndefined) l w = (Ok tt, w')
    /\ comps w' = comps w /\ contexts w' = contexts w /\ nodes w' = nodes w
    /\ isBatchingUpdates (batch w') = true
    /\ log w' = log w ++ map EvForceUpdate l.
Proof.
  revert w. induction l as [| s l IH]; intros w Hall Hb.
  - exists w. cbn [forEach map]. rewrite app_nil_r. repeat split. exact Hb.
  - apply Forall_cons in Hall as [[o Hs] Hall].
    destruct (forceUpdate_while_batching rec w s o Hs Hb)
      as (w1 & Hrun & Hcomps & Hctx & Hnodes & Hb1 & Hlog).
    destruct (IH w1) as (w2 & Hrun2 & Hcomps2 & Hctx2 & Hnodes2 & Hb2 & Hlog2).
    { rewrite Hcomps. exact Hall. }
    { exact Hb1. }
    exists w2. cbn [forEach]. rewrite (bind_ok _ _ _ _ _ Hrun).
    split; [exact Hrun2|]. repeat split; try congruence.
    rewrite Hlog2, Hlog, <- app_assoc. reflexivity.
Qed.

(** X14. A write to a context always notifies, whether or not the value
    changed: the value is replaced and [forceUpdate] is called on every
    subscriber once, in subscription order. Inside a batch nothing is
    rendered by the write: the updates of the mounted subscribers wait for
    the end of the batch. *)
Theorem setValue_notifies_every_subscriber
    (rec : Interp) (w : World) (ctx : CtxId) (x : ContextObj) (value : JsVal) :
  contexts w !! ctx = Some x ->
  Forall (fun s => is_Some (comps w !! s)) (x_subscribers x) ->
  isBatchingUpdates (batch w) = true ->
  exists w',
    Context.setValue rec ctx value w = (Ok tt, w')
    /\ contexts w' !! ctx
       = Some {| x_subscribers := x_subscribers x; x_currentValue := value |}
    /\ log w' = log w ++ map EvForceUpdate (x_subscribers x)
    /\ comps w' = comps w /\ nodes w' = nodes w.
Proof.
  intros Hctx Hall Hb. unfold Context.setValue, Context.write, Context.get.
  rewrite !bind_assoc, bind_gets, Hctx, bind_ret_l, bind_modify.
  unfold Context.notify, Context.get. rewrite bind_assoc, bind_gets. wsimpl.
  rewrite list_lookup_alter_eq, Hctx. cbn [fmap option_fmap option_map].
  rewrite bind_ret_l. cbn [x_subscribers].
  match goal with |- context [forEach _ _ ?w1] =>
    destruct (notify_each_while_batching rec (x_subscribers x) w1 Hall Hb)
      as (w2 & Hrun & Hcomps & Hctx2 & Hnodes & _ & Hlog)
  end.
  exists w2. split; [exact Hrun|]. rewrite Hctx2, Hlog, Hcomps, Hnodes. wsimpl.
  rewrite list_lookup_alter_eq, Hctx. repeat split.
Qed.

Lemma setValue_notifies_every_subscriber_witness :
  exists w',
    Context.setValue (interp 3) 0 (JStr "light")
      (snd (BatchUpdate.batchStart Demo.themeWorld)) = (Ok tt, w')
    /\ log w' = log Demo.themeWorld ++ [EvForceUpdate 0].
Proof.
  destruct (setValue_notifies_every_subscriber (interp 3)
              (snd (BatchUpdate.batchStart Demo.themeWorld)) 0
              {| x_subscribers := [0]; x_currentValue := JStr "light" |}
              (JStr "light") eq_refl)
    as (w' & Hrun & _ & Hlog & _).
  - constructor; [eexists; vm_compute; reflexivity | constructor].
  - reflexivity.
  - exists w'. split; [exact Hrun | exact Hlog].
Defined.

(** ** The delegated event table *)

Lemma table_get_alter (f : EventDelegator.Handlers -> EventDelegator.Handlers)
    (ty ty' : string) (t : list (string * EventDelegator.Handlers)) :
  EventDelegator.table_get ty' (EventDelegator.table_alter f ty t)
  = if bool_decide (ty' = ty)
    then f <$> EventDelegator.table_get ty t
    else EventDelegator.table_get ty' t.
Proof.
  induction t as [| [k h] t IH]; cbn [EventDelegator.table_get EventDelegator.table_alter].
  - case_bool_decide; reflexivity.
  - destruct (decide (k = ty)) as [-> | Hk].
    + rewrite (bool_decide_eq_true_2 (ty = ty)) by reflexivity.
      cbn [EventDelegator.table_get].
      destruct (decide (ty' = ty)) as [-> | Hne].
      * rewrite !bool_decide_eq_true_2 by reflexivity. reflexivity.
      * rewrite (bool_decide_eq_false_2 (ty' = ty)) by exact Hne.
        rewrite !(bool_decide_eq_false_2 (ty = ty')) by congruence. reflexivity.
    + rewrite (bool_decide_eq_false_2 (k = ty)) by exact Hk.
      cbn [EventDelegator.table_get]. rewrite IH.
      destruct (decide (k = ty')) as [-> | Hk'].
      * rewrite !(bool_decide_eq_true_2 (ty' = ty')) by reflexivity.
        rewrite (bool_decide_eq_false_2 (ty' = ty)) by exact Hk. reflexivity.
      * rewrite !(bool_decide_eq_false_2 (k = ty')) by exact Hk'. reflexivity.
Qed.

Lemma table_get_snoc (ty ty' : string) (h : EventDelegator.Handlers)
    (t : list (string * EventDelegator.Handlers)) :
  EventDelegator.table_get ty' (t ++ [(ty, h)])
  = match EventDelegator.table_get ty' t with
    | Some x => Some x
    | None => if bool_decide (ty = ty') then Some h else None
    end.
Proof.
  induction t as [| [k x] t IH]; cbn [app EventDelegator.table_get]; [reflexivity|].
  destruct (bool_decide (k = ty')); [reflexivity | exact IH].
Qed.

Lemma handlers_get_set (el el' : option NodeId) (h : JsVal)
    (l : EventDelegator.Handlers) :
  EventDelegator.handlers_get el' (EventDelegator.handlers_set el h l)
  = if bool_decide (el' = el) then Some h else EventDelegator.handlers_get el' l.
Proof.
  induction l as [| [k x] l IH];
    cbn [EventDelegator.handlers_get EventDelegator.handlers_set].
  - destruct (decide (el' = el)) as [-> | Hne].
    + rewrite !bool_decide_eq_true_2 by reflexivity. reflexivity.
    + rewrite (bool_decide_eq_false_2 (el' = el)) by exact Hne.
      rewrite bool_decide_eq_false_2 by congruence. reflexivity.
  - destruct (decide (k = el)) as [-> | Hk].
    + rewrite (bool_decide_eq_true_2 (el = el)) by reflexivity.
      cbn [EventDelegator.handlers_get].
      destruct (decide (el' = el)) as [-> | Hne].
      * rewrite !bool_decide_eq_true_2 by reflexivity. reflexivity.
      * rewrite (bool_decide_eq_false_2 (el' = el)) by exact Hne.
        rewrite !(bool_decide_eq_false_2 (el = el')) by congruence. reflexivity.
    + rewrite (bool_decide_eq_false_2 (k = el)) by exact Hk.
      cbn [EventDelegator.handlers_get]. rewrite IH.
      destruct (decide (k = el')) as [-> | Hk'].
      * rewrite !(bool_decide_eq_true_2 (el' = el')) by reflexivity.
        rewrite (bool_decide_eq_false_2 (el' = el)) by exact Hk. reflexivity.
      * rewrite !(bool_decide_eq_false_2 (k = el')) by exact Hk'. reflexivity.
Qed.

Lemma handlers_get_filter (el el' : option NodeId)
    (l : list (option NodeId * JsVal)) :
  EventDelegator.handlers_get el' (filter (fun kv => kv.1 ≠ el) l)
  = if bool_decide (el' = el) then None else EventDelegator.handlers_get el' l.
Proof.
  induction l as [| [k x] l IH].
  - cbn. case_bool_decide; reflexivity.
  - rewrite filter_cons. cbn [fst EventDelegator.handlers_get].
    destruct (decide (k ≠ el)) as [Hk | Hk].
    + cbn [EventDelegator.handlers_get]. rewrite IH.
      destruct (decide (k = el')) as [-> | Hk'].
      * rewrite (bool_decide_eq_true_2 (el' = el')) by reflexivity.
        rewrite (bool_decide_eq_false_2 (el' = el)) by exact Hk. reflexivity.
      * rewrite (bool_decide_eq_false_2 (k = el')) by exact Hk'. reflexivity.
    + apply dec_stable in Hk. subst k. rewrite IH.
      destruct (decide (el' = el)) as [-> | Hne].
      * rewrite bool_decide_eq_true_2 by reflexivity. reflexivity.
      * rewrite (bool_decide_eq_false_2 (el' = el)) by exact Hne.
        rewrite (bool_decide_eq_false_2 (el = el')) by congruence. reflexivity.
Qed.

Lemma handlerOf_add (d : EventDelegatorState) (el el' : option NodeId)
    (ty ty' : string) (h : JsVal) :
  let table :=
    match EventDelegator.table_get ty (eventHandlers d) with
    | Some _ => eventHandlers d
    | None => eventHandlers d ++ [(ty, [])]
    end in
  (h0 ← EventDelegator.table_get ty'
          (EventDelegator.table_alter (EventDelegator.handlers_set el h) ty table);
   EventDelegator.handlers_get el' h0)
  = if bool_decide (ty' = ty) && bool_decide (el' = el) then Some h
    else handlerOf d ty' el'.
Proof.
  cbv zeta. unfold handlerOf. rewrite table_get_alter.
  destruct (decide (ty' = ty)) as [-> | Hty].
  - rewrite bool_decide_eq_true_2 by reflexivity. cbn [andb].
    destruct (EventDelegator.table_get ty (eventHandlers d)) as [h0 |] eqn:E.
    + rewrite E. cbn. apply handlers_get_set.
    + rewrite table_get_snoc, E, bool_decide_eq_true_2 by reflexivity.
      cbn [fmap option_fmap option_map mbind option_bind].
      rewrite handlers_get_set. reflexivity.
  - rewrite (bool_decide_eq_false_2 (ty' = ty)) by exact Hty. cbn [andb].
    destruct (EventDelegator.table_get ty (eventHandlers d)); [reflexivity|].
    rewrite table_get_snoc.
    destruct (EventDelegator.table_get ty' (eventHandlers d)); [reflexivity|].
    rewrite bool_decide_eq_false_2 by congruence. reflexivity.
Qed.

Lemma handlerOf_remove (d : EventDelegatorState) (el el' : option NodeId)
    (ty ty' : string) :
  (h0 ← EventDelegator.table_get ty'
          (EventDelegator.table_alter (filter (fun kv => kv.1 ≠ el)) ty
             (eventHandlers d));
   EventDelegator.handlers_get el' h0)
  = if bool_decide (ty' = ty) && bool_decide (el' = el) then None
    else handlerOf d ty' el'.
Proof.
  unfold handlerOf. rewrite table_get_alter.
  destruct (decide (ty' = ty)) as [-> | Hty].
  - rewrite bool_decide_eq_true_2 by reflexivity. cbn [andb].
    destruct (EventDelegator.table_get ty (eventHandlers d)) as [h0 |]; cbn.
    + apply handlers_get_filter.
    + case_bool_decide; reflexivity.
  - rewrite (bool_decide_eq_false_2 (ty' = ty)) by exact Hty. reflexivity.
Qed.

(** X15. The delegated table holds at most one handler for an element
    and an event type: registering sets it, replacing an earlier one, and
    removing clears it, in both cases leaving every other element and type
    as it was. The event type stays delegated after the removal. *)
Theorem delegated_handler_add_then_remove
    (w : World) (element : option NodeId) (eventType : string) (handler : JsVal) :
  let w1 := snd (EventDelegator.addEventListener element eventType handler w) in
  let w2 := snd (EventDelegator.removeEventListener element eventType w1) in
  handlerOf (delegator w1) eventType element = Some handler
  /\ (forall ty el, (ty, el) <> (eventType, element) ->
        handlerOf (delegator w1) ty el = handlerOf (delegator w) ty el
        /\ handlerOf (delegator w2) ty el = handlerOf (delegator w) ty el)
  /\ (eventType ∈ delegatedEvents (delegator w1))
  /\ handlerOf (delegator w2) eventType element = None
  /\ delegatedEvents (delegator w2) = delegatedEvents (delegator w1).
Proof.
  cbv zeta. unfold EventDelegator.addEventListener, EventDelegator.removeEventListener.
  cbn [snd modify]. wsimpl. cbn [eventHandlers delegatedEvents].
  set (d := delegator w).
  assert (Hadd : forall ty el,
    handlerOf
      {| eventHandlers :=
           EventDelegator.table_alter (EventDelegator.handlers_set element handler)
             eventType
             match EventDelegator.table_get eventType (eventHandlers d) with
             | Some _ => eventHandlers d
             | None => eventHandlers d ++ [(eventType, [])]
             end;
         delegatedEvents :=
           if bool_decide (eventType ∈ delegatedEvents d) then delegatedEvents d
           else delegatedEvents d ++ [eventType] |} ty el
    = if bool_decide (ty = eventType) && bool_decide (el = element) then Some handler
      else handlerOf d ty el).
  { intros ty el. exact (handlerOf_add d element el eventType ty handler). }
  assert (Hne : forall ty el, (ty, el) <> (eventType, element) ->
            bool_decide (ty = eventType) && bool_decide (el = element) = false).
  { intros ty el H. apply andb_false_iff.
    destruct (decide (ty = eventType)) as [-> | H1];
      [| left; apply bool_decide_eq_false_2; exact H1].
    right. apply bool_decide_eq_false_2. congruence. }
  split; [| split; [| split; [| split]]].
  - rewrite Hadd, !bool_decide_eq_true_2 by reflexivity. reflexivity.
  - intros ty el H. split.
    + rewrite Hadd, (Hne ty el H). reflexivity.
    + unfold handlerOf at 1. cbn [eventHandlers].
      match goal with |- context [EventDelegator.table_alter (filter _) _ ?t] =>
        change t with (eventHandlers {| eventHandlers := t; delegatedEvents := [] |})
      end.
      rewrite handlerOf_remove, (Hne ty el H).
      unfold handlerOf at 1. cbn [eventHandlers].
      rewrite (handlerOf_add d element el eventType ty handler), (Hne ty el H).
      reflexivity.
  - case_bool_decide as H; [exact H|]. apply elem_of_app. right.
    apply list_elem_of_singleton. reflexivity.
  - unfold handlerOf at 1. cbn [eventHandlers].
    match goal with |- context [EventDelegator.table_alter (filter _) _ ?t] =>
      change t with (eventHandlers {| eventHandlers := t; delegatedEvents := [] |})
    end.
    rewrite handlerOf_remove, !bool_decide_eq_true_2 by reflexivity. reflexivity.
  - reflexivity.
Qed.

(** ** The hooks runtime, continued *)

(** Run a hook call on a seeded slot up to the point where the hook
    object has been read. *)
Ltac seeded_slot Hcur Hc Hslot Hh w :=
  rewrite bind_gets, Hcur;
  unfold Component.get; rewrite bind_assoc, bind_gets, Hc, bind_ret_l;
  rewrite (bind_ok _ _ _ _ _ (nextHookIndex_eq w));
  rewrite Hslot, bind_ret_l;
  unfold Hooks.getHook at 1; rewrite bind_assoc, bind_gets;
  change (hookObjs (snd (Hooks.nextHookIndex w))) with (hookObjs w);
  rewrite Hh, bind_ret_l.

Lemma useMemo_seeded
    (rec : Interp) (w : World) (c : CompId) (o : ComponentObj)
    (h : HookId) (hk : Hook) (factory : Hooks.Factory) (deps : list JsVal) :
  currentComponent (hooksMod w) = Some c ->
  comps w !! c = Some o ->
  Hooks.slot o (currentHookIndex (hooksMod w)) = Some h ->
  hookObjs w !! h = Some hk ->
  (Hooks.depsChanged (h_deps hk) deps = false ->
   Hooks.useMemo rec factory deps w
   = (Ok (h_value hk), snd (Hooks.nextHookIndex w)))
  /\ (Hooks.depsChanged (h_deps hk) deps = true ->
      forall value w2 hk2,
        Hooks.callFactory rec factory (snd (Hooks.nextHookIndex w)) = (Ok value, w2) ->
        hookObjs w2 !! h = Some hk2 ->
        exists w3,
          Hooks.useMemo rec factory deps w = (Ok value, w3)
          /\ hookObjs w3
             = alter (Hooks.with_deps (Some deps)) h
                 (alter (Hooks.with_value value) h (hookObjs w2))
          /\ log w3 = log w2).
Proof.
  intros Hcur Hc Hslot Hh. set (w1 := snd (Hooks.nextHookIndex w)).
  assert (Hrun : Hooks.useMemo rec factory deps w
            = ((if Hooks.depsChanged (h_deps hk) deps
                then
                  value <- Hooks.callFactory rec factory ;;
                  Hooks.updateHook h (Hooks.with_value value) ;;
                  Hooks.updateHook h (Hooks.with_deps (Some deps))
                else ret tt) ;;
               Hooks.storeSlot c (currentHookIndex (hooksMod w)) h ;;
               hk' <- Hooks.getHook h ;;
               ret (h_value hk')) w1).
  { unfold Hooks.useMemo. seeded_slot Hcur Hc Hslot Hh w. reflexivity. }
  rewrite Hrun. clear Hrun. split.
  - intros Hsame. rewrite Hsame, bind_ret_l.
    rewrite (bind_ok _ _ _ _ _ (storeSlot_seeded w1 c o _ h Hc Hslot)).
    unfold Hooks.getHook. rewrite bind_assoc, bind_gets.
    change (hookObjs w1) with (hookObjs w). rewrite Hh. reflexivity.
  - intros Hdue value w2 hk2 Hfac Hh2. rewrite Hdue.
    rewrite !bind_assoc, (bind_ok _ _ _ _ _ Hfac).
    unfold Hooks.updateHook. rewrite !bind_assoc, !bind_modify.
    unfold Hooks.storeSlot, Component.update. rewrite bind_modify.
    unfold Hooks.getHook. rewrite bind_assoc, bind_gets. wsimpl.
    rewrite !list_lookup_alter_eq, Hh2. cbn [fmap option_fmap option_map].
    rewrite bind_ret_l. eexists. split; [reflexivity|]. split; reflexivity.
Qed.

(** X16. [useMemo] on a seeded slot: when the supplied dependency list
    does not differ from the stored one, the stored value is returned and
    the factory is not called, the call only advancing the slot cursor;
    when it differs, the factory is called and its result is stored with
    the new list and returned. *)
Theorem useMemo_recomputes_iff_deps_differ
    (rec : Interp) (w : World) (c : CompId) (o : ComponentObj)
    (h : HookId) (hk : Hook) (factory : Hooks.Factory) (deps : list JsVal) :
  currentComponent (hooksMod w) = Some c ->
  comps w !! c = Some o ->
  Hooks.slot o (currentHookIndex (hooksMod w)) = Some h ->
  hookObjs w !! h = Some hk ->
  let w1 := snd (Hooks.nextHookIndex w) in
  (Hooks.depsChanged (h_deps hk) deps = true <-> depsDiffer (h_deps hk) deps)
  /\ (Hooks.depsChanged (h_deps hk) deps = false ->
      Hooks.useMemo rec factory deps w = (Ok (h_value hk), w1))
  /\ (Hooks.depsChanged (h_deps hk) deps = true ->
      forall value w2 hk2,
        Hooks.callFactory rec factory w1 = (Ok value, w2) ->
        hookObjs w2 !! h = Some hk2 ->
        exists w3,
          Hooks.useMemo rec factory deps w = (Ok value, w3)
          /\ hookObjs w3
             = alter (Hooks.with_deps (Some deps)) h
                 (alter (Hooks.with_value value) h (hookObjs w2))
          /\ log w3 = log w2).
Proof.
  intros Hcur Hc Hslot Hh w1. split; [apply depsChanged_spec|].
  exact (useMemo_seeded rec w c o h hk factory deps Hcur Hc Hslot Hh).
Qed.

(** a memo slot of [Watcher]-like instance 0: the world [watcherRerender]
    has an effect hook with dependencies [[1]] at slot 0 *)
Lemma useMemo_recomputes_iff_deps_differ_witness :
  Hooks.useMemo (interp 2) (Hooks.UserFactory (JFun Demo.effectFn)) [JNum 1]
    Demo.watcherRerender
  = (Ok JUndefined, snd (Hooks.nextHookIndex Demo.watcherRerender))
  /\ exists w3,
       Hooks.useMemo (interp 2) (Hooks.UserFactory (JFun Demo.effectFn)) [JNum 2]
         Demo.watcherRerender = (Ok (JFun Demo.cleanupFn), w3)
       /\ h_deps <$> hookObjs w3 !! 0 = Some (Some [JNum 2]).
Proof.
  pose proof (fun deps =>
    useMemo_recomputes_iff_deps_differ (interp 2) Demo.watcherRerender 0
      {| c_behaviour := BUser Demo.WatcherId; c_props := []; c_state := [];
         c_domElement := None; c_prevVNode := None; c_isMounted := false;
         c_errorBoundary := None; c_contexts := []; c_hooks := Some [Some 0];
         c_unsubscribe := None |}
      0
      {| h_type := "effect"; h_value := JUndefined;
         h_deps := Some [JNum 1]; h_cleanup := JFun Demo.cleanupFn |}
      (Hooks.UserFactory (JFun Demo.effectFn)) deps
      eq_refl eq_refl eq_refl eq_refl) as H.
  split.
  - destruct (H [JNum 1]) as (_ & Hsame & _). exact (Hsame eq_refl).
  - destruct (H [JNum 2]) as (_ & _ & Hdue).
    destruct (Hdue eq_refl (JFun Demo.cleanupFn)
                (Demo.after (call (interp 2) (JFun Demo.effectFn) [])
                   (snd (Hooks.nextHookIndex Demo.watcherRerender)))
                {| h_type := "effect"; h_value := JUndefined;
                   h_deps := Some [JNum 1]; h_cleanup := JFun Demo.cleanupFn |}
                eq_refl eq_refl) as (w3 & Hrun & Hhooks & _).
    exists w3. split; [exact Hrun|]. rewrite Hhooks. reflexivity.
Defined.

(** X17. [NaN] is never strictly equal to itself, so a dependency list
    that contains [NaN] always counts as changed: an effect, a layout
    effect or a memo with such a list is run again on every render. *)
Theorem deps_with_NaN_always_changed
    (stored : option (list JsVal)) (deps : list JsVal) :
  JNaN ∈ deps ->
  Hooks.depsChanged stored deps = true
  /\ Hooks.effectDue stored (Some deps) = true
  /\ Hooks.layoutEffectDue stored (Some deps) = true.
Proof.
  intros Hin.
  assert (H : Hooks.depsChanged stored deps = true).
  { destruct stored as [old |]; [| reflexivity]. cbn [Hooks.depsChanged].
    apply orb_true_iff. right. apply some_differs_spec.
    apply list_elem_of_lookup in Hin as [j Hj]. exists j, JNaN.
    split; [exact Hj | reflexivity]. }
  split; [exact H|]. split.
  - unfold Hooks.effectDue. cbn. exact H.
  - unfold Hooks.layoutEffectDue. destruct stored as [old |]; [| reflexivity]. exact H.
Qed.

Lemma deps_with_NaN_always_changed_witness :
  Hooks.depsChanged (Some [JNum 1; JNaN]) [JNum 1; JNaN] = true
  /\ Hooks.depsChanged (Some [JNum 1; JNum 2]) [JNum 1; JNum 2] = false.
Proof.
  split; [| reflexivity].
  apply (deps_with_NaN_always_changed (Some [JNum 1; JNaN]) [JNum 1; JNaN]).
  apply elem_of_cons. right. apply elem_of_cons. left. reflexivity.
Defined.

(** X18. [useCallback] on a seeded slot calls no user code: it returns the
    stored function as long as the dependency list does not differ, even
    when another function is passed, and otherwise stores and returns the
    function passed. *)
Theorem useCallback_keeps_function_until_deps_differ
    (rec : Interp) (w : World) (c : CompId) (o : ComponentObj)
    (h : HookId) (hk : Hook) (callback : JsVal) (deps : list JsVal) :
  currentComponent (hooksMod w) = Some c ->
  comps w !! c = Some o ->
  Hooks.slot o (currentHookIndex (hooksMod w)) = Some h ->
  hookObjs w !! h = Some hk ->
  let out := Hooks.useCallback rec callback deps w in
  fst out = Ok (if Hooks.depsChanged (h_deps hk) deps then callback else h_value hk)
  /\ log (snd out) = log w
  /\ hookObjs (snd out)
     = (if Hooks.depsChanged (h_deps hk) deps
        then alter (Hooks.with_deps (Some deps)) h
               (alter (Hooks.with_value callback) h (hookObjs w))
        else hookObjs w).
Proof.
  intros Hcur Hc Hslot Hh out.
  destruct (useMemo_seeded rec w c o h hk (Hooks.ConstantFactory callback) deps
              Hcur Hc Hslot Hh) as [Hsame Hdue].
  unfold out, Hooks.useCallback.
  destruct (Hooks.depsChanged (h_deps hk) deps).
  - destruct (Hdue eq_refl callback (snd (Hooks.nextHookIndex w)) hk eq_refl Hh)
      as (w3 & -> & Hhooks & Hlog).
    cbn [fst snd]. split; [reflexivity|]. split; [exact Hlog | exact Hhooks].
  - rewrite (Hsame eq_refl). repeat split.
Qed.

Lemma useCallback_keeps_function_until_deps_differ_witness :
  fst (Hooks.useCallback (interp 0) (JFun 12) [JNum 1] Demo.watcherRerender)
  = Ok JUndefined
  /\ fst (Hooks.useCallback (interp 0) (JFun 12) [JNum 2] Demo.watcherRerender)
     = Ok (JFun 12).
Proof.
  pose proof (fun deps =>
    useCallback_keeps_function_until_deps_differ (interp 0) Demo.watcherRerender 0
      {| c_behaviour := BUser Demo.WatcherId; c_props := []; c_state := [];
         c_domElement := None; c_prevVNode := None; c_isMounted := false;
         c_errorBoundary := None; c_contexts := []; c_hooks := Some [Some 0];
         c_unsubscribe := None |}
      0
      {| h_type := "effect"; h_value := JUndefined;
         h_deps := Some [JNum 1]; h_cleanup := JFun Demo.cleanupFn |}
      (JFun 12) deps eq_refl eq_refl eq_refl eq_refl) as H.
  split.
  - exact (proj1 (H [JNum 1])).
  - exact (proj1 (H [JNum 2])).
Defined.

Lemma bind_ext {A B} (m : M A) (k1 k2 : A -> M B) (w : World) :
  (forall a w', k1 a w' = k2 a w') -> bind m k1 w = bind m k2 w.
Proof.
  intros H. unfold bind. destruct (m w) as [[a | e | ] w']; [apply H | reflexivity ..].
Qed.

Lemma layoutEffectDue_effectDue (stored deps : option (list JsVal)) :
  Hooks.layoutEffectDue stored deps = Hooks.effectDue stored deps.
Proof.
  unfold Hooks.layoutEffectDue, Hooks.effectDue.
  destruct stored as [old |], deps as [d |]; reflexivity.
Qed.

(** X19. [useLayoutEffect] decides whether to run exactly as [useEffect]
    does, although its condition is written differently, and on a seeded
    slot the two calls are the same computation: same cleanup, same effect
    call, same stored list. *)
Theorem useLayoutEffect_is_useEffect_on_seeded_slot
    (rec : Interp) (w : World) (c : CompId) (o : ComponentObj) (h : HookId)
    (effect : JsVal) (deps : option (list JsVal)) :
  currentComponent (hooksMod w) = Some c ->
  comps w !! c = Some o ->
  Hooks.slot o (currentHookIndex (hooksMod w)) = Some h ->
  (forall stored, Hooks.layoutEffectDue stored deps = Hooks.effectDue stored deps)
  /\ Hooks.useLayoutEffect rec effect deps w = Hooks.useEffect rec effect deps w.
Proof.
  intros Hcur Hc Hslot. split; [intros stored; apply layoutEffectDue_effectDue|].
  assert (HL : Hooks.useLayoutEffect rec effect deps w
            = (hk <- Hooks.getHook h ;;
               (if Hooks.layoutEffectDue (h_deps hk) deps
                then
                  (if truthy (h_cleanup hk) then call rec (h_cleanup hk) [] ;; ret tt
                   else ret tt) ;;
                  cleanup <- call rec effect [] ;;
                  Hooks.updateHook h (Hooks.with_cleanup cleanup) ;;
                  Hooks.updateHook h (Hooks.with_deps deps)
                else ret tt) ;;
               Hooks.storeSlot c (currentHookIndex (hooksMod w)) h)
                (snd (Hooks.nextHookIndex w))).
  { unfold Hooks.useLayoutEffect. rewrite bind_gets, Hcur. unfold Component.get.
    rewrite bind_assoc, bind_gets, Hc, bind_ret_l.
    rewrite (bind_ok _ _ _ _ _ (nextHookIndex_eq w)).
    rewrite Hslot, bind_ret_l. reflexivity. }
  assert (HR : Hooks.useEffect rec effect deps w
            = (hk <- Hooks.getHook h ;;
               (if Hooks.effectDue (h_deps hk) deps
                then
                  (if truthy (h_cleanup hk) then call rec (h_cleanup hk) [] ;; ret tt
                   else ret tt) ;;
                  cleanup <- call rec effect [] ;;
                  Hooks.updateHook h (Hooks.with_cleanup cleanup) ;;
                  Hooks.updateHook h (Hooks.with_deps deps)
                else ret tt) ;;
               Hooks.storeSlot c (currentHookIndex (hooksMod w)) h)
                (snd (Hooks.nextHookIndex w))).
  { unfold Hooks.useEffect. rewrite bind_gets, Hcur. unfold Component.get.
    rewrite bind_assoc, bind_gets, Hc, bind_ret_l.
    rewrite (bind_ok _ _ _ _ _ (nextHookIndex_eq w)).
    rewrite Hslot, bind_ret_l. reflexivity. }
  rewrite HL, HR. apply bind_ext. intros hk w'.
  rewrite layoutEffectDue_effectDue. reflexivity.
Qed.

Lemma useLayoutEffect_is_useEffect_on_seeded_slot_witness :
  Hooks.useLayoutEffect (interp 2) (JFun Demo.effectFn) (Some [JNum 2])
    Demo.watcherRerender
  = Hooks.useEffect (interp 2) (JFun Demo.effectFn) (Some [JNum 2])
      Demo.watcherRerender.
Proof.
  exact (proj2 (useLayoutEffect_is_useEffect_on_seeded_slot (interp 2)
                  Demo.watcherRerender 0
                  {| c_behaviour := BUser Demo.WatcherId; c_props := []; c_state := [];
                     c_domElement := None; c_prevVNode := None; c_isMounted := false;
                     c_errorBoundary := None; c_contexts := [];
                     c_hooks := Some [Some 0]; c_unsubscribe := None |}
                  0 (JFun Demo.effectFn) (Some [JNum 2]) eq_refl eq_refl eq_refl)).
Defined.

(** X20. [useState] on a seeded slot ignores its argument: it returns the
    stored value with the setter of the stored hook and only advances the
    slot cursor. An initialiser function is not called again. *)
Theorem useState_seeded_ignores_initial_value
    (rec : Interp) (w : World) (c : CompId) (o : ComponentObj)
    (h : HookId) (hk : Hook) (initialValue : JsVal) :
  currentComponent (hooksMod w) = Some c ->
  comps w !! c = Some o ->
  Hooks.slot o (currentHookIndex (hooksMod w)) = Some h ->
  hookObjs w !! h = Some hk ->
  Hooks.useState rec initialValue w
  = (Ok (h_value hk, h), snd (Hooks.nextHookIndex w)).
Proof.
  intros Hcur Hc Hslot Hh. unfold Hooks.useState.
  rewrite bind_gets, Hcur. unfold Component.get.
  rewrite bind_assoc, bind_gets, Hc, bind_ret_l.
  rewrite (bind_ok _ _ _ _ _ (nextHookIndex_eq w)).
  rewrite Hslot, bind_ret_l. unfold Hooks.getHook.
  rewrite bind_assoc, bind_gets.
  change (hookObjs (snd (Hooks.nextHookIndex w))) with (hookObjs w).
  rewrite Hh. reflexivity.
Qed.

Lemma useState_seeded_ignores_initial_value_witness :
  Hooks.useState (interp 0) (JFun Demo.throwingFn)
    (Demo.after (Hooks.setCurrentComponent (Some 0)) Demo.mountedClicker)
  = (Ok (JNum 0, 0),
     snd (Hooks.nextHookIndex
            (Demo.after (Hooks.setCurrentComponent (Some 0)) Demo.mountedClicker))).
Proof.
  exact (useState_seeded_ignores_initial_value (interp 0)
           (Demo.after (Hooks.setCurrentComponent (Some 0)) Demo.mountedClicker) 0
           (default (Component.construct (BUser 0) [])
              (comps Demo.mountedClicker !! 0))
           0 {| h_type := "state"; h_value := JNum 0; h_deps := None;
                h_cleanup := JUndefined |}
           (JFun Demo.throwingFn) eq_refl eq_refl eq_refl eq_refl).
Defined.

Lemma lookup_array_set (i : nat) (x : HookId) (arr : list (option HookId)) :
  Hooks.array_set i x arr !! i = Some (Some x).
Proof.
  unfold Hooks.array_set. case_bool_decide as H.
  - apply list_lookup_insert_eq. exact H.
  - rewrite lookup_app_r by lia. rewrite lookup_app_r; rewrite length_replicate; [| lia].
    replace (i - length arr - (i - length arr)) with 0 by lia. reflexivity.
Qed.

(** X21. The first [useState] call for a slot of a functional component
    creates the hook with the initial value and enters it in the
    component's hook array at the cursor position, extending the array
    when the position lies beyond its end and leaving the other positions
    alone. The slot is then seeded: a later render finds this hook and
    this value there. *)
Theorem useState_first_call_seeds_the_slot
    (rec : Interp) (w : World) (c : CompId) (o : ComponentObj)
    (arr : list (option HookId)) (initialValue : JsVal) :
  currentComponent (hooksMod w) = Some c ->
  comps w !! c = Some o ->
  c_hooks o = Some arr ->
  Hooks.slot o (currentHookIndex (hooksMod w)) = None ->
  is_function initialValue = false ->
  let i := currentHookIndex (hooksMod w) in
  let h := length (hookObjs w) in
  exists w' o',
    Hooks.useState rec initialValue w = (Ok (initialValue, h), w')
    /\ comps w' !! c = Some o'
    /\ Hooks.slot o' i = Some h
    /\ h_value <$> hookObjs w' !! h = Some initialValue
    /\ (forall j, j <> i -> j < length arr -> Hooks.slot o' j = Hooks.slot o j)
    /\ currentHookIndex (hooksMod w') = S i.
Proof.
  intros Hcur Hc Harr Hslot Hfun i h. subst i h.
  unfold Hooks.useState. rewrite bind_gets, Hcur. unfold Component.get.
  rewrite bind_assoc, bind_gets, Hc, bind_ret_l.
  rewrite (bind_ok _ _ _ _ _ (nextHookIndex_eq w)). rewrite Hslot, Hfun.
  mstep. unfold Hooks.allocHook at 1. unfold bind at 1.
  unfold Hooks.storeSlot, Component.update. mstep.
  unfold Hooks.getHook. mstep.
  cbn [snd Hooks.nextHookIndex]. wsimpl. rewrite lookup_snoc. mstep.
  cbn [h_value]. eexists. eexists. split; [reflexivity|]. wsimpl.
  rewrite list_lookup_alter_eq, Hc. cbn [fmap option_fmap option_map].
  split; [reflexivity|]. unfold Hooks.slot. cbn [c_hooks Component.with_hooks].
  rewrite Harr. cbn [fmap option_fmap option_map].
  split; [| split; [| split]].
  - rewrite lookup_array_set. reflexivity.
  - rewrite lookup_snoc. reflexivity.
  - intros j Hne Hlt. unfold Hooks.array_set. case_bool_decide.
    + rewrite list_lookup_insert_ne by congruence. reflexivity.
    + rewrite lookup_app_l by exact Hlt. reflexivity.
  - reflexivity.
Qed.

Lemma useState_first_call_seeds_the_slot_witness :
  let w := Demo.after (c <- Reconciler.instantiate Demo.ClickerId [] ;;
                       Hooks.setCurrentComponent (Some c)) Demo.world0 in
  exists w' o',
    Hooks.useState (interp 0) (JNum 4) w = (Ok (JNum 4, 0), w')
    /\ comps w' !! 0 = Some o'
    /\ Hooks.slot o' 0 = Some 0.
Proof.
  cbv zeta.
  destruct (useState_first_call_seeds_the_slot (interp 0)
              (Demo.after (c <- Reconciler.instantiate Demo.ClickerId [] ;;
                           Hooks.setCurrentComponent (Some c)) Demo.world0)
              0 (Component.with_hooks (Some [])
                   (Component.construct (BUser Demo.ClickerId) []))
              [] (JNum 4) eq_refl eq_refl eq_refl eq_refl eq_refl)
    as (w' & o' & Hrun & Hc & Hslot & _).
  exists w', o'. split; [exact Hrun|]. split; [exact Hc | exact Hslot].
Defined.

(** X22. Hooks work only inside a render pass: once a functional
    component's [render] has returned, the current component is unset, and
    every hook called then throws the error "Hooks can only be used in
    functional components" without changing any state. *)
Theorem hooks_outside_render_throw
    (rec : Interp) (c : CompId) (p : HookProg) (w w' : World) (r : Rendered)
    (v : JsVal) (deps : list JsVal) (odeps : option (list JsVal))
    (factory : Hooks.Factory) :
  FunctionalComponent.render rec c p w = (Ok r, w') ->
  Hooks.useState rec v w' = (Throw Hooks.hooksError, w')
  /\ Hooks.useEffect rec v odeps w' = (Throw Hooks.hooksError, w')
  /\ Hooks.useLayoutEffect rec v odeps w' = (Throw Hooks.hooksError, w')
  /\ Hooks.useMemo rec factory deps w' = (Throw Hooks.hooksError, w')
  /\ Hooks.useCallback rec v deps w' = (Throw Hooks.hooksError, w').
Proof.
  intros Hrender.
  pose proof (render_leaves_no_current_component rec c p w w' r Hrender) as Hcur.
  unfold Hooks.useCallback, Hooks.useState, Hooks.useEffect, Hooks.useLayoutEffect,
    Hooks.useMemo.
  rewrite !bind_gets, Hcur. repeat split.
Qed.

Lemma hooks_outside_render_throw_witness :
  Hooks.useState (interp 3) (JNum 1) Demo.mountedClicker
  = (Throw Hooks.hooksError, Demo.mountedClicker).
Proof.
  refine (proj1 (hooks_outside_render_throw (interp 3) 0
                   (cd_renderFunction Demo.Clicker 0)
                   (Demo.after (Hooks.setCurrentComponent None) Demo.mountedClicker)
                   Demo.mountedClicker
                   (RChild (ChildNode (createElement (TTag "p")
                                         (Some [("title", JNum 0)]) [])))
                   (JNum 1) [] None (Hooks.ConstantFactory JUndefined) _)).
  vm_compute. reflexivity.
Defined.

(** ** The child diff, continued *)

Lemma updateChildren_loop_texts
    (rec : Interp) (dom : option NodeId) (keyed : Reconciler.KeyedChildren)
    (oldChildren : list VChild) (news : list string) (lastIndex newIndex : nat)
    (w : World) :
  lastIndex <= newIndex ->
  (forall k, k < length news ->
     exists s, oldChildren !! (newIndex + k) = Some (ChildText s) /\ s <> "") ->
  Reconciler.updateChildren_loop rec dom keyed oldChildren lastIndex newIndex
    (map ChildText news) w = (Ok tt, w).
Proof.
  revert lastIndex newIndex. induction news as [| s' news IH];
    intros lastIndex newIndex Hle Hold; [reflexivity|].
  cbn [map Reconciler.updateChildren_loop].
  destruct (Hold 0) as (s & Hs & Hne); [cbn [length]; lia|]. rewrite Nat.add_0_r in Hs.
  unfold Reconciler.updateChild, Reconciler.pairOld. cbn [Reconciler.keyOf].
  rewrite Hs. cbn [Reconciler.child_truthy default].
  rewrite bool_decide_eq_false_2 by exact Hne. cbn [negb].
  unfold id. rewrite bool_decide_eq_false_2 by lia.
  mstep. apply IH; [lia|].
  intros k Hk. destruct (Hold (S k)) as (s0 & Hs0 & Hne0); [cbn [length]; lia|].
  exists s0. rewrite Nat.add_succ_r in Hs0. auto.
Qed.

(** X23. A changed text child is not written to the live tree. When the
    old and the new children are strings, equally many, the old ones not
    empty, the child diff pairs them by position and does nothing: no live
    node is touched, whatever the new strings are. *)
Theorem text_children_are_never_patched
    (rec : Interp) (w : World) (d : NodeId) (n : DomNode) (olds news : list string) :
  nodes w !! d = Some n ->
  length (childNodes n) <= length news ->
  length olds = length news ->
  Forall (fun s => s <> "") olds ->
  Reconciler.updateChildren rec (Some d) (map ChildText olds) (map ChildText news) w
  = (Ok tt, w).
Proof.
  intros Hd Hlive Hlen Hne. unfold Reconciler.updateChildren.
  assert (Hold : forall k, k < length news ->
            exists s, map ChildText olds !! (0 + k) = Some (ChildText s) /\ s <> "").
  { intros k Hk. cbn [Nat.add].
    destruct (lookup_lt_is_Some_2 olds k) as [s Hs]; [lia|].
    exists s. rewrite list_lookup_fmap, Hs. split; [reflexivity|].
    eapply (proj1 (Forall_lookup _ _) Hne); exact Hs. }
  rewrite (bind_ok _ _ _ _ _
             (updateChildren_loop_texts rec (Some d) _ (map ChildText olds) news 0 0 w
                (le_n 0) Hold)).
  cbn [Document.receiver]. rewrite bind_ret_l.
  unfold Document.childCount, Document.getNode.
  rewrite !bind_assoc, bind_gets, Hd, !bind_ret_l. rewrite length_map.
  destruct (length (childNodes n)) as [| k] eqn:Hk; [reflexivity|].
  cbn [Reconciler.trim]. unfold Document.getNode.
  rewrite bind_assoc, bind_gets, Hd, bind_ret_l.
  rewrite bool_decide_eq_false_2 by lia. reflexivity.
Qed.

Lemma text_children_are_never_patched_witness :
  nodeKind <$> nodes paragraphWorld !! 2 = Some (TextNode "one")
  /\ Reconciler.updateChildren (interp 1) (Some 1)
       [ChildText "one"] [ChildText "two"] paragraphWorld
     = (Ok tt, paragraphWorld).
Proof.
  split; [reflexivity|].
  apply (text_children_are_never_patched (interp 1) paragraphWorld 1
           (default (Document.newNode (TextNode "")) (nodes paragraphWorld !! 1))
           ["one"] ["two"]).
  - reflexivity.
  - vm_compute. lia.
  - reflexivity.
  - constructor; [discriminate | constructor].
Defined.

(** ** Properties on update *)













(** ** Keys *)

Lemma same_value_zero_keyClass (a b : JsVal) :
  same_value_zero a b = true <-> keyClass a = keyClass b.
Proof.
  destruct a, b; cbn [same_value_zero strict_eq keyClass];
    try (split; [discriminate | intros H; discriminate H]);
    try (split; reflexivity);
    try (rewrite bool_decide_eq_true; split; [intros ->; reflexivity | intros H; injection H; auto]).
  rewrite Z.eqb_eq. split; [intros ->; reflexivity | intros H; injection H; auto].
Qed.

Lemma same_value_zero_trans_l (a b c : JsVal) :
  same_value_zero a b = true -> same_value_zero a c = same_value_zero b c.
Proof.
  intros Hab. apply same_value_zero_keyClass in Hab.
  destruct (same_value_zero b c) eqn:Hbc.
  - apply same_value_zero_keyClass in Hbc. apply same_value_zero_keyClass. congruence.
  - destruct (same_value_zero a c) eqn:Hac; [| reflexivity].
    apply same_value_zero_keyClass in Hac.
    assert (H : same_value_zero b c = true)
      by (apply same_value_zero_keyClass; congruence).
    congruence.
Qed.

Lemma keyed_get_set (k k' : JsVal) (e : VChild * nat) (m : Reconciler.KeyedChildren) :
  Reconciler.keyed_get k (Reconciler.keyed_set k' e m)
  = if same_value_zero k' k then Some e else Reconciler.keyed_get k m.
Proof.
  induction m as [| [k0 x] m IH]; cbn [Reconciler.keyed_set Reconciler.keyed_get].
  - reflexivity.
  - destruct (same_value_zero k0 k') eqn:H0; cbn [Reconciler.keyed_get].
    + rewrite (same_value_zero_trans_l k0 k' k H0).
      destruct (same_value_zero k' k); reflexivity.
    + rewrite IH. destruct (same_value_zero k0 k) eqn:H1; [| reflexivity].
      assert (Hsym : same_value_zero k' k = false).
      { destruct (same_value_zero k' k) eqn:E; [| reflexivity].
        apply same_value_zero_keyClass in E. apply same_value_zero_keyClass in H1.
        assert (same_value_zero k0 k' = true)
          by (apply same_value_zero_keyClass; congruence).
        congruence. }
      rewrite Hsym. reflexivity.
Qed.

Lemma collectKeyed_no_match (k : JsVal) (olds : list VChild) (i : nat)
    (m : Reconciler.KeyedChildren) :
  (forall j c k', olds !! j = Some c -> Reconciler.keyOf c = Some k' ->
                  same_value_zero k' k = false) ->
  Reconciler.keyed_get k (Reconciler.collectKeyed i olds m) = Reconciler.keyed_get k m.
Proof.
  revert i m. induction olds as [| c olds IH]; intros i m Hnone; [reflexivity|].
  cbn [Reconciler.collectKeyed]. rewrite IH.
  - destruct (Reconciler.keyOf c) as [k' |] eqn:Hk; [| reflexivity].
    rewrite keyed_get_set, (Hnone 0 c k' eq_refl Hk). reflexivity.
  - intros j c' k' Hj. exact (Hnone (S j) c' k' Hj).
Qed.

Lemma collectKeyed_last_match (k k0 : JsVal) (olds : list VChild) (i j : nat)
    (c : VChild) (m : Reconciler.KeyedChildren) :
  olds !! j = Some c ->
  Reconciler.keyOf c = Some k0 ->
  same_value_zero k0 k = true ->
  (forall j' c' k', j < j' -> olds !! j' = Some c' -> Reconciler.keyOf c' = Some k' ->
                    same_value_zero k' k = false) ->
  Reconciler.keyed_get k (Reconciler.collectKeyed i olds m) = Some (c, i + j).
Proof.
  revert i j m. induction olds as [| c0 olds IH]; intros i j m Hj Hk Heq Hlater.
  - discriminate.
  - cbn [Reconciler.collectKeyed]. destruct j as [| j].
    + cbn in Hj. injection Hj as ->. rewrite Hk, collectKeyed_no_match.
      * rewrite keyed_get_set, Heq, Nat.add_0_r. reflexivity.
      * intros j' c' k' Hj'. apply (Hlater (S j') c' k'); [lia | exact Hj'].
    + rewrite (IH (S i) j _ Hj Hk Heq).
      * f_equal. f_equal. lia.
      * intros j' c' k' Hlt Hj'. apply (Hlater (S j') c' k'); [lia | exact Hj'].
Qed.

(** X26. When several old children carry the same key, the table of keyed
    children keeps the last of them: a new child with that key is paired
    with the last old child of that key and with its index, and the
    earlier ones are not reused. *)
Theorem duplicate_keys_pair_with_the_last
    (oldChildren : list VChild) (j : nat) (c newChild : VChild) (k : JsVal)
    (newIndex : nat) :
  oldChildren !! j = Some c ->
  Reconciler.keyOf c = Some k ->
  Reconciler.keyOf newChild = Some k ->
  (forall j' c' k', j < j' -> oldChildren !! j' = Some c' ->
                    Reconciler.keyOf c' = Some k' -> same_value_zero k' k = false) ->
  Reconciler.pairOld (Reconciler.collectKeyed 0 oldChildren []) oldChildren
    newChild newIndex = (Some c, Some j).
Proof.
  intros Hj Hk Hnew Hlater. unfold Reconciler.pairOld. rewrite Hnew.
  rewrite (collectKeyed_last_match k k oldChildren 0 j c [] Hj Hk
             (same_value_zero_refl k) Hlater).
  reflexivity.
Qed.

Lemma duplicate_keys_pair_with_the_last_witness :
  let li id := ChildNode (createElement (TTag "li")
                            (Some [("key", JStr "a"); ("id", JStr id)]) []) in
  Reconciler.pairOld (Reconciler.collectKeyed 0 [li "first"; li "second"] [])
    [li "first"; li "second"] (li "new") 0
  = (Some (li "second"), Some 1).
Proof.
  cbv zeta.
  apply (duplicate_keys_pair_with_the_last _ 1 _ _ (JStr "a")); try reflexivity.
  intros j' c' k' Hlt Hj'. destruct j' as [| [| j']]; try lia; discriminate.
Defined.

(** ** Materialisation of a description without components *)

(** *** Worlds that differ in their nodes only *)

Lemma set_nodes_const (w : World) : set_nodes (fun _ => nodes w) w = w.
Proof. destruct w; reflexivity. Qed.

(** *** Properties applied to a new element *)


(** *** The layout of a subtree depends on the parent in its root only *)





(** *** The loop over the children *)








(** ** Replacement on a change of type *)



(** ** Removal of surplus children *)

Lemma remove_id_shorter (l : NodeId) (ch : list NodeId) :
  l ∈ ch -> length (Document.remove_id l ch) < length ch.
Proof.
  unfold Document.remove_id. induction ch as [| y ch IH]; intros Hin.
  - inversion Hin.
  - rewrite filter_cons. destruct (decide (y ≠ l)) as [Hne | Heq].
    + cbn [length]. apply elem_of_cons in Hin as [-> | Hin]; [done|].
      specialize (IH Hin). lia.
    + cbn [length]. pose proof (length_filter (fun y => y ≠ l) ch). lia.
Qed.

Lemma trim_removes_all (d : NodeId) (w : World) (k : nat) :
  forall (ns : list DomNode) (node : DomNode),
    ns !! d = Some node ->
    length (childNodes node) <= k ->
    exists ns',
      Reconciler.trim k d 0 (set_nodes (fun _ => ns) w)
      = (Ok tt, set_nodes (fun _ => ns') w)
      /\ length ns' = length ns
      /\ (childNodes <$> ns' !! d) = Some []
      /\ (forall i, i <> d -> i ∉ childNodes node -> ns' !! i = ns !! i)
      /\ (forall i x', ns' !! i = Some x' ->
            i ∈ childNodes node \/ (exists x, ns !! i = Some x /\ parentNode x = None) ->
            parentNode x' = None).
Proof.
  induction k as [| k IH]; intros ns node Hd Hlen.
  - exists ns. destruct (childNodes node) as [| y ch] eqn:Hch; [| cbn in Hlen; lia].
    split; [destruct w; reflexivity|]. split; [reflexivity|].
    split; [rewrite Hd; cbn; congruence|]. split; [reflexivity|].
    intros i x' Hi [Hin | (x & Hx & Hnone)]; [inversion Hin|]. congruence.
  - cbn [Reconciler.trim]. unfold Document.getNode at 1.
    rewrite bind_assoc, bind_gets. wsimpl. rewrite Hd, bind_ret_l.
    case_bool_decide as Hpos.
    + destruct (last (childNodes node)) as [l |] eqn:Hlast.
      2:{ apply last_None in Hlast. rewrite Hlast in Hpos. cbn in Hpos. lia. }
      pose proof (last_Some_elem_of _ _ Hlast) as Hin.
      unfold Document.removeChild, Document.getNode.
      rewrite !bind_assoc, bind_gets. wsimpl. rewrite Hd, bind_ret_l.
      rewrite (bool_decide_eq_true_2 _ Hin).
      unfold Document.update. rewrite !bind_assoc, !bind_modify. wsimpl.
      change (set_nodes ?f (set_nodes ?g (set_nodes (fun _ => ns) w)))
        with (set_nodes (fun _ => f (g ns)) w).
      set (ns1 := alter (Document.with_parentNode None) l
                    (alter (Document.with_childNodes (Document.remove_id l)) d ns)).
      assert (Hd1 : exists node1, ns1 !! d = Some node1
                /\ childNodes node1 = Document.remove_id l (childNodes node)).
      { unfold ns1. destruct (decide (l = d)) as [-> | Hne].
        - rewrite list_lookup_alter_eq, list_lookup_alter_eq, Hd. cbn.
          eexists. split; [reflexivity|]. reflexivity.
        - rewrite list_lookup_alter_ne by congruence.
          rewrite list_lookup_alter_eq, Hd. cbn.
          eexists. split; [reflexivity|]. reflexivity. }
      destruct Hd1 as (node1 & Hd1 & Hch1).
      pose proof (remove_id_shorter l _ Hin) as Hshort.
      destruct (IH ns1 node1 Hd1 ltac:(rewrite Hch1; lia))
        as (ns' & Hrun & Hl & Hempty & Hother & Hpar).
      exists ns'. split; [exact Hrun|].
      split; [rewrite Hl; unfold ns1; rewrite !length_alter; reflexivity|].
      split; [exact Hempty|]. split.
      * intros i Hid Hnot. rewrite Hother; [| exact Hid |].
        -- unfold ns1. rewrite !list_lookup_alter_ne; [reflexivity | congruence |].
           intros ->. contradiction.
        -- rewrite Hch1. unfold Document.remove_id. rewrite list_elem_of_filter.
           tauto.
      * intros i x' Hi Hcase. apply (Hpar i x' Hi).
        destruct (decide (i = l)) as [-> | Hil].
        -- right. unfold ns1. rewrite list_lookup_alter_eq.
           assert (Hsome : is_Some (ns' !! l)) by eauto.
           apply lookup_lt_is_Some in Hsome. rewrite Hl in Hsome.
           unfold ns1 in Hsome. rewrite length_alter in Hsome.
           apply lookup_lt_is_Some in Hsome as [x0 Hx0]. rewrite Hx0. cbn.
           eexists. split; [reflexivity|]. reflexivity.
        -- destruct Hcase as [Hin' | (x & Hx & Hnone)].
           ++ left. rewrite Hch1. unfold Document.remove_id.
              rewrite list_elem_of_filter. tauto.
           ++ right. unfold ns1. rewrite list_lookup_alter_ne by congruence.
              destruct (decide (i = d)) as [-> | Hid].
              ** rewrite list_lookup_alter_eq, Hx. cbn. eexists. split; [reflexivity|].
                 exact Hnone.
              ** rewrite list_lookup_alter_ne by congruence. eauto.
    + exists ns. assert (Hnil : childNodes node = []).
      { destruct (childNodes node); [reflexivity | cbn in Hpos; lia]. }
      split; [destruct w; reflexivity|]. split; [reflexivity|].
      split; [rewrite Hd; cbn; congruence|]. split; [reflexivity|].
      intros i x' Hi [Hin | (x & Hx & Hnone)]; [rewrite Hnil in Hin; inversion Hin|].
      congruence.
Qed.

(** X29. Patching the children of a live node to the empty list removes
    them all, whatever the old descriptions were: afterwards the node has
    no children, each former child is without a parent, and every other
    node is as it was. Only the node store changes: no instance among the
    removed children is unmounted. *)
Theorem patch_to_no_children_empties_the_node (rec : Interp) (d : NodeId)
    (oldChildren : list VChild) (w : World) (node : DomNode) :
  nodes w !! d = Some node ->
  exists ns',
    Reconciler.updateChildren rec (Some d) oldChildren [] w
    = (Ok tt, set_nodes (fun _ => ns') w)
    /\ length ns' = length (nodes w)
    /\ (childNodes <$> ns' !! d) = Some []
    /\ (forall i x', i ∈ childNodes node -> ns' !! i = Some x' -> parentNode x' = None)
    /\ (forall i, i <> d -> i ∉ childNodes node -> ns' !! i = nodes w !! i).
Proof.
  intros Hd.
  destruct (trim_removes_all d w (length (childNodes node)) (nodes w) node Hd
              (Nat.le_refl _)) as (ns' & Hrun & Hl & Hempty & Hother & Hpar).
  exists ns'. split; [| split; [exact Hl | split; [exact Hempty | split]]].
  - unfold Reconciler.updateChildren. cbn [Reconciler.updateChildren_loop length].
    rewrite bind_ret_l. cbn [Document.receiver]. rewrite bind_ret_l.
    unfold Document.childCount, Document.getNode.
    rewrite !bind_assoc, bind_gets, Hd, !bind_ret_l.
    rewrite <- (set_nodes_const w) at 1. exact Hrun.
  - intros i x' Hin Hi. apply (Hpar i x' Hi). left. exact Hin.
  - exact Hother.
Qed.

Lemma patch_to_no_children_empties_the_node_witness :
  exists ns',
    Reconciler.updateChildren (interp 0) (Some 0) [ChildText "gone"] [] replaceWorld
    = (Ok tt, set_nodes (fun _ => ns') replaceWorld)
    /\ length ns' = length (nodes replaceWorld)
    /\ (childNodes <$> ns' !! 0) = Some []
    /\ (forall i x', i ∈ [1] -> ns' !! i = Some x' -> parentNode x' = None)
    /\ (forall i, i <> 0 -> i ∉ [1] -> ns' !! i = nodes replaceWorld !! i).
Proof.
  apply (patch_to_no_children_empties_the_node (interp 0) 0 [ChildText "gone"]
           replaceWorld
           (Document.with_childNodes (fun _ => [1])
              (Document.newNode (ElementNode "body")))).
  reflexivity.
Defined.
